(** * LoRa data logger (codigo_python_raspberry.py): session logic

    A shallow embedding of the logger's line processing and of the loop body
    of [main], followed by the properties of the session state machine.

    Modelling conventions.
    - Text is [string]; a character is a code point below 256.
    - A Python [float] is modelled by its exact value: every finite binary64
      number is an integer multiple of 2^-1074, so a finite float is a sign
      and a magnitude counted in units of 2^-1074.  Comparison, truncation
      and formatting are exact functions of that value; the only rounding
      in the program happens in [float(text)].
    - [datetime.now()] is an input: each iteration of the loop receives the
      clock readings it would observe.
    - The files are a finite map from paths to rows.  Whether the disk
      lets [open(csv_log, "a")] succeed is an input of each iteration, like
      the clock; a path with a name longer than [NAME_MAX] is never opened.
      A file that has been opened is written without error. *)

From Stdlib Require Import ZArith NArith String Ascii List Lia Bool.
From Stdlib Require Import DecimalString DecimalPos.
From stdpp Require Import gmap strings.

Local Open Scope string_scope.
Local Open Scope Z_scope.

(** ** Python built-ins used by the logger *)

Module Py.

(** [str.isspace] on code points below 256. *)
Definition isspace (c : ascii) : bool :=
  let n := N_of_ascii c in
  (((9 <=? n) && (n <=? 13)) || ((28 <=? n) && (n <=? 32))
   || (n =? 133) || (n =? 160))%N.

Fixpoint lstrip (s : string) : string :=
  match s with
  | EmptyString => EmptyString
  | String c s' => if isspace c then lstrip s' else s
  end.

Fixpoint rstrip (s : string) : string :=
  match s with
  | EmptyString => EmptyString
  | String c s' =>
      match rstrip s' with
      | EmptyString => if isspace c then EmptyString else String c EmptyString
      | r => String c r
      end
  end.

(** [s.strip()] *)
Definition strip (s : string) : string := rstrip (lstrip s).

(** [s.startswith(p)] *)
Definition startswith (p s : string) : bool := String.prefix p s.

(** [s.split(sep)] for a one-character separator. *)
Fixpoint split (sep : ascii) (s : string) : list string :=
  match s with
  | EmptyString => [EmptyString]
  | String c s' =>
      if Ascii.eqb c sep then EmptyString :: split sep s'
      else match split sep s' with
           | w :: ws => String c w :: ws
           | [] => [String c EmptyString]
           end
  end.

(** [s.split()]: the maximal runs of non-whitespace characters. *)
Fixpoint split_ws (s : string) : list string :=
  match s with
  | EmptyString => []
  | String c s' =>
      if isspace c then split_ws s'
      else match s' with
           | EmptyString => [String c EmptyString]
           | String c' _ =>
               if isspace c' then String c EmptyString :: split_ws s'
               else match split_ws s' with
                    | w :: ws => String c w :: ws
                    | [] => [String c EmptyString]
                    end
           end
  end.

(** [parts[-1]], raising [IndexError] (here [None]) on the empty list. *)
Definition last_item {A} (l : list A) : option A := List.last (map Some l) None.

(** *** Floats *)

Inductive float : Type :=
| Fnan
| Finf (neg : bool)
| Ffin (neg : bool) (mag : N).   (* (-1)^neg * mag * 2^-1074 *)

Definition signed (neg : bool) (mag : N) : Z :=
  if neg then - Z.of_N mag else Z.of_N mag.

(** IEEE comparison: unordered as soon as a NaN is involved, and the two
    zeros compare equal. *)
Definition fcompare (a b : float) : option comparison :=
  match a, b with
  | Fnan, _ | _, Fnan => None
  | Finf false, Finf false => Some Eq
  | Finf true, Finf true => Some Eq
  | Finf false, _ => Some Gt
  | Finf true, _ => Some Lt
  | _, Finf false => Some Lt
  | _, Finf true => Some Gt
  | Ffin s1 u1, Ffin s2 u2 => Some (signed s1 u1 ?= signed s2 u2)
  end.

(** [a == b], [a != b], [a <= b], [a > b] *)
Definition feq (a b : float) : bool :=
  match fcompare a b with Some Eq => true | _ => false end.
Definition fne (a b : float) : bool := negb (feq a b).
Definition fle (a b : float) : bool :=
  match fcompare a b with Some Lt | Some Eq => true | _ => false end.
Definition fgt (a b : float) : bool :=
  match fcompare a b with Some Gt => true | _ => false end.

(** The literal [0.0]. *)
Definition zero : float := Ffin false 0.

Definition unit_exp : Z := 1074.

(** Nearest integer to [num/den], ties to even ([0 <= num], [0 < den]). *)
Definition round_half_even (num den : Z) : Z :=
  let q := num / den in
  let r := num mod den in
  if 2 * r <? den then q
  else if den <? 2 * r then q + 1
  else if Z.even q then q else q + 1.

(** The binary64 number nearest to [p/q] ([0 < p], [0 < q]): 53 significant
    bits, exponent of the last bit at least -1074, overflow to infinity. *)
Definition binary64_of_ratio (neg : bool) (p q : Z) : float :=
  let scaled (e : Z) := if 0 <=? e then (p, q * 2 ^ e) else (p * 2 ^ (- e), q) in
  let e0 := Z.log2 p - Z.log2 q - 52 in
  let e1 := let '(n, d) := scaled e0 in if n <? 2 ^ 52 * d then e0 - 1 else e0 in
  let e := Z.max e1 (- unit_exp) in
  let '(n, d) := scaled e in
  let mag := round_half_even n d * 2 ^ (e + unit_exp) in
  if 2 ^ (1024 + unit_exp) <=? mag then Finf neg else Ffin neg (Z.to_N mag).

Definition digit_val (c : ascii) : option Z :=
  let n := N_of_ascii c in
  if ((48 <=? n) && (n <=? 57))%N then Some (Z.of_N n - 48) else None.

(** A run of digits in which single underscores may separate digits:
    the accumulated value, the number of digits read, and the rest. *)
Fixpoint digitpart (acc : Z) (n : nat) (s : string) : Z * nat * string :=
  match s with
  | EmptyString => (acc, n, s)
  | String c s' =>
      match digit_val c with
      | Some d => digitpart (10 * acc + d) (S n) s'
      | None =>
          if Ascii.eqb c "_" && negb (Nat.eqb n 0) then
            match s' with
            | String c2 s'' =>
                match digit_val c2 with
                | Some d => digitpart (10 * acc + d) (S n) s''
                | None => (acc, n, s)
                end
            | EmptyString => (acc, n, s)
            end
          else (acc, n, s)
      end
  end.

Definition take_sign (s : string) : bool * string :=
  match s with
  | String "-" s' => (true, s')
  | String "+" s' => (false, s')
  | _ => (false, s)
  end.

Definition lower (c : ascii) : ascii :=
  let n := N_of_ascii c in
  if ((65 <=? n) && (n <=? 90))%N then ascii_of_N (n + 32) else c.

Fixpoint lowercase (s : string) : string :=
  match s with
  | EmptyString => EmptyString
  | String c s' => String (lower c) (lowercase s')
  end.

(** The exponent part: empty, or [e]/[E], an optional sign and digits. *)
Definition exponent (s : string) : option Z :=
  match s with
  | EmptyString => Some 0
  | String c s' =>
      if Ascii.eqb (lower c) "e" then
        let '(neg, s1) := take_sign s' in
        match digitpart 0 0 s1 with
        | (_, O, _) => None
        | (x, _, EmptyString) => Some (if neg then - x else x)
        | _ => None
        end
      else None
  end.

(** [digits], [digits.], [digits.digits] or [.digits], then the exponent:
    the mantissa as an integer and the decimal exponent to apply to it. *)
Definition decimal (s : string) : option (Z * Z) :=
  let '(m1, n1, r1) := digitpart 0 0 s in
  let '(m, n2, r) :=
    match r1 with
    | String "." r1' => digitpart m1 0 r1'
    | _ => (m1, O, r1)
    end in
  if Nat.eqb (n1 + n2) 0 then None
  else match exponent r with
       | Some x => Some (m, x - Z.of_nat n2)
       | None => None
       end.

(** The whitespace [float] skips at both ends of its argument: the
    whitespace of C, and the whitespace code points above 127, which it
    turns into spaces first.  The separators 28 to 31, which [str.strip]
    removes, are not among them. *)
Definition float_space (c : ascii) : bool :=
  let n := N_of_ascii c in
  (((9 <=? n) && (n <=? 13)) || (n =? 32) || (n =? 133) || (n =? 160))%N.

Fixpoint float_lstrip (s : string) : string :=
  match s with
  | EmptyString => EmptyString
  | String c s' => if float_space c then float_lstrip s' else s
  end.

Fixpoint float_rstrip (s : string) : string :=
  match s with
  | EmptyString => EmptyString
  | String c s' =>
      match float_rstrip s' with
      | EmptyString => if float_space c then EmptyString else String c EmptyString
      | r => String c r
      end
  end.

(** [float(text)], with [None] for [ValueError]. *)
Definition float_of_str (text : string) : option float :=
  let '(neg, s) := take_sign (float_rstrip (float_lstrip text)) in
  let w := lowercase s in
  if String.eqb w "inf" || String.eqb w "infinity" then Some (Finf neg)
  else if String.eqb w "nan" then Some Fnan
  else match decimal s with
       | None => None
       | Some (m, x) =>
           if m =? 0 then Some (Ffin neg 0)
           else if 0 <=? x then Some (binary64_of_ratio neg (m * 10 ^ x) 1)
           else Some (binary64_of_ratio neg m (10 ^ (- x)))
       end.

(** [int(x)] for a float [x]: truncation towards zero; [None] stands for
    the [ValueError]/[OverflowError] raised on NaN and the infinities. *)
Definition int_of_float (x : float) : option Z :=
  match x with
  | Ffin neg mag => Some (signed neg (mag / 2 ^ 1074)%N)
  | _ => None
  end.

(** [str(n)] for an [int]. *)
Definition str_of_int (n : Z) : string := NilZero.string_of_int (Z.to_int n).

Definition str_of_nat (n : N) : string := NilZero.string_of_uint (N.to_uint n).

Definition digit_char (d : N) : ascii := ascii_of_N (48 + d).

(** [f"{x:.2f}"]: the exact value rounded to hundredths, ties to even. *)
Definition format_2f (x : float) : string :=
  match x with
  | Fnan => "nan"
  | Finf neg => if neg then "-inf" else "inf"
  | Ffin neg mag =>
      let h := Z.to_N (round_half_even (100 * Z.of_N mag) (2 ^ unit_exp)) in
      (if neg then "-" else "")
        ++ str_of_nat (h / 100)
        ++ String "." (String (digit_char (h mod 100 / 10))
                         (String (digit_char (h mod 10)) EmptyString))
  end.

(** Zero-padding of a decimal number to a minimal width ([%02d], [%04d]). *)
Fixpoint zeros (n : nat) : string :=
  match n with
  | O => EmptyString
  | S n' => String "0" (zeros n')
  end.

Definition zero_pad (width : nat) (n : N) : string :=
  let s := str_of_nat n in
  zeros (width - String.length s) ++ s.

(** The fields of a [datetime] that the two [strftime] formats print. *)
Record datetime : Type := {
  year : N; month : N; day : N; hour : N; minute : N; second : N
}.

(** [strftime("%Y-%m-%d" + sep + "%H" + tsep + "%M" + tsep + "%S")] *)
Definition strftime (sep tsep : string) (t : datetime) : string :=
  zero_pad 4 (year t) ++ "-" ++ zero_pad 2 (month t) ++ "-" ++ zero_pad 2 (day t)
    ++ sep ++ zero_pad 2 (hour t) ++ tsep ++ zero_pad 2 (minute t)
    ++ tsep ++ zero_pad 2 (second t).

(** [os.path.join(a, b)] on POSIX. *)
Definition ends_with_slash (a : string) : bool :=
  match String.get (String.length a - 1) a with
  | Some c => Ascii.eqb c "/"
  | None => false
  end.

Definition path_join (a b : string) : string :=
  if startswith "/" b then b
  else if String.eqb a "" || ends_with_slash a then a ++ b
  else a ++ "/" ++ b.

(** The number of bytes of a text in the file system encoding (UTF-8): two
    for a code point from 128 on. *)
Fixpoint fs_bytes (s : string) : nat :=
  match s with
  | EmptyString => O
  | String c s' => ((if (N_of_ascii c <? 128)%N then 1 else 2) + fs_bytes s')%nat
  end.

(** The longest file name Linux accepts, in bytes. *)
Definition NAME_MAX : nat := 255.

(** A component of the path is longer than [NAME_MAX]: [open] raises
    [OSError] (ENAMETOOLONG) whatever the disk holds. *)
Definition name_too_long (path : string) : bool :=
  existsb (fun name => (NAME_MAX <? fs_bytes name)%nat) (split "/" path).

End Py.

Import Py.

(** ** The logger *)

(** The dictionaries built by [process_data_line] and [process_lost_line]
    always carry the ten keys of [CSV_HEADERS]; ["Distance(m)"] is the field
    [Distance]. *)
Record row : Type := {
  Timestamp : string;
  Event : string;
  MessageNumber : string;
  Distance : string;
  Received : string;
  Lost : string;
  RSSI : string;
  SNR : string;
  TotalPackets : string;
  LossRate : string
}.

Definition set_Lost (v : string) (d : row) : row :=
  {| Timestamp := Timestamp d; Event := Event d; MessageNumber := MessageNumber d;
     Distance := Distance d; Received := Received d; Lost := v; RSSI := RSSI d;
     SNR := SNR d; TotalPackets := TotalPackets d; LossRate := LossRate d |}.

Definition set_TotalPackets (v : string) (d : row) : row :=
  {| Timestamp := Timestamp d; Event := Event d; MessageNumber := MessageNumber d;
     Distance := Distance d; Received := Received d; Lost := Lost d; RSSI := RSSI d;
     SNR := SNR d; TotalPackets := v; LossRate := LossRate d |}.

Definition CSV_HEADERS : list string :=
  ["Timestamp"; "Event"; "MessageNumber"; "Distance(m)"; "Received"; "Lost";
   "RSSI"; "SNR"; "TotalPackets"; "LossRate"].

(** What [csv.DictWriter.writerow] writes for a dictionary: its values in
    the order of [CSV_HEADERS]. *)
Definition cells (d : row) : list string :=
  [Timestamp d; Event d; MessageNumber d; Distance d; Received d; Lost d;
   RSSI d; SNR d; TotalPackets d; LossRate d].

(** The lines printed on standard output, one constructor per [print]. *)
Inductive message : Type :=
| MsgRaw (line : string)                (* "RAW:" *)
| MsgIgnoringGap                        (* "Ignoring large gap message; not updating Lost count." *)
| MsgIncomplete (line : string)         (* "Incomplete DATA line received:" *)
| MsgLostError                          (* "Error processing LOST line:" *)
| MsgNoCsvYet                           (* "No CSV log file created yet; LOST event not logged to CSV." *)
| MsgDistanceError                      (* "Error converting distance to float:" *)
| MsgTransientZero (lost : Z)           (* "Transient 0.00 value detected, using last valid Lost count: ..." *)
| MsgNewSession (d : float) (path : string)   (* "New session detected: New distance (...). Creating log file: ..." *)
| MsgLowerValue (current last : float)  (* "Transient or lower value detected (...)" *)
| MsgNewDistance (d : float) (path : string)  (* "New distance detected (...). Creating new log file: ..." *)
| MsgLogged (data : row)                (* "Logged data:" *)
| MsgWriteError.                        (* "Error writing to CSV:" *)

(** [process_data_line(line)], with the reading [now] of the clock.  The
    dictionary holds strings only, so the [except] branch is unreachable. *)
Definition process_data_line (now : datetime) (line : string)
  : list message * option row :=
  let parts := split "," line in
  if (length parts <? 10)%nat then ([MsgIncomplete line], None)
  else
    let data :=
      {| Timestamp := strftime " " ":" now;
         Event := "DATA";
         MessageNumber := nth 2 parts "";
         Distance := nth 3 parts "";
         Received := nth 4 parts "";
         Lost := nth 5 parts "";
         RSSI := nth 6 parts "";
         SNR := nth 7 parts "";
         TotalPackets := nth 8 parts "";
         LossRate := strip (nth 9 parts "") |} in
    if String.eqb (strip (TotalPackets data)) "0"
    then ([], Some (set_TotalPackets (Received data) data))
    else ([], Some data).

(** [process_lost_line(line)]: [parts[-1]] raises on an empty list, which
    the [except] branch turns into a message and [None]. *)
Definition process_lost_line (now : datetime) (line : string)
  : list message * option row :=
  let parts := split_ws line in
  match last_item parts with
  | Some lost_packet =>
      ([], Some {| Timestamp := strftime " " ":" now;
                   Event := "LOST";
                   MessageNumber := lost_packet;
                   Distance := ""; Received := ""; Lost := ""; RSSI := "";
                   SNR := ""; TotalPackets := ""; LossRate := "" |})
  | None => ([MsgLostError], None)
  end.

(** The local variables of [main] that survive an iteration, the log
    files, and the standard output. *)
Record world : Type := {
  current_csv_log : option string;
  last_distance : option float;
  last_lost : option Z;
  files : gmap string (list (list string));
  stdout : list message
}.

Definition print (m : message) (w : world) : world :=
  {| current_csv_log := current_csv_log w; last_distance := last_distance w;
     last_lost := last_lost w; files := files w; stdout := (stdout w ++ [m])%list |}.

Definition prints (ms : list message) (w : world) : world :=
  fold_left (fun w m => print m w) ms w.

Definition set_last_lost (n : Z) (w : world) : world :=
  {| current_csv_log := current_csv_log w; last_distance := last_distance w;
     last_lost := Some n; files := files w; stdout := stdout w |}.

(** [last_distance = d; current_csv_log = path] *)
Definition open_session (d : float) (path : string) (w : world) : world :=
  {| current_csv_log := Some path; last_distance := Some d;
     last_lost := last_lost w; files := files w; stdout := stdout w |}.

(** The [with open(csv_log, "a")] block of [log_data]: append the row,
    after the header when the file does not exist yet. *)
Definition write_row (data : row) (csv_log : string)
    (fs : gmap string (list (list string))) : gmap string (list (list string)) :=
  let content :=
    match fs !! csv_log with
    | Some rows => (rows ++ [cells data])%list
    | None => [CSV_HEADERS; cells data]
    end in
  <[csv_log := content]> fs.

(** Whether [open(csv_log, "a")] succeeds: the disk allows it ([allowed]:
    no directory at the path, the directory exists and can be written to,
    and so on) and no name in the path is too long. *)
Definition can_open (allowed : bool) (csv_log : string) : bool :=
  allowed && negb (name_too_long csv_log).

(** [log_data(data, csv_log)]: when the file opens, the row is written and
    the dictionary printed; when [open] raises, the [except] branch prints
    the error and the disk is as it was. *)
Definition log_data (allowed : bool) (data : row) (csv_log : string)
    (w : world) : world :=
  if can_open allowed csv_log then
    {| current_csv_log := current_csv_log w; last_distance := last_distance w;
       last_lost := last_lost w; files := write_row data csv_log (files w);
       stdout := (stdout w ++ [MsgLogged data])%list |}
  else print MsgWriteError w.

(** Truth value of [current_csv_log]: neither [None] nor the empty string. *)
Definition truthy (p : option string) : option string :=
  match p with
  | Some s => if String.eqb s "" then None else Some s
  | None => None
  end.

(** [os.path.join(log_dir, f"lora_data_{d:.2f}m_{timestamp}.csv")] *)
Definition session_file (log_dir : string) (d : float) (now : datetime) : string :=
  path_join log_dir
    ("lora_data_" ++ format_2f d ++ "m_" ++ strftime "_" "-" now ++ ".csv").

(** [int(float(text))], 0 when either conversion raises. *)
Definition lost_count (text : string) : Z :=
  match float_of_str text with
  | Some x => match int_of_float x with Some n => n | None => 0 end
  | None => 0
  end.

(** What one pass through the loop receives: the decoded line, the
    readings of [datetime.now()] taken for the row and for the file name,
    and whether the disk lets the log file be opened in this pass. *)
Record reading : Type := {
  raw : string;
  now_row : datetime;
  now_file : datetime;
  disk_ok : bool
}.

(** The DATA branch of the loop, from the parsed distance on. *)
Definition on_distance (log_dir : string) (r : reading) (data : row)
    (current_distance : float) (w : world) : world :=
  let '(data, w) :=
    match last_distance w with
    | Some last =>
        if feq current_distance zero && fne last zero then
          let l := match last_lost w with Some n => n | None => 0 end in
          (set_Lost (str_of_int l) data, print (MsgTransientZero l) w)
        else (data, set_last_lost (lost_count (Lost data)) w)
    | None => (data, set_last_lost (lost_count (Lost data)) w)
    end in
  let w :=
    match last_distance w with
    | None =>
        let path := session_file log_dir current_distance (now_file r) in
        print (MsgNewSession current_distance path)
          (open_session current_distance path w)
    | Some last =>
        if fle current_distance last && fne current_distance last then
          print (MsgLowerValue current_distance last) w
        else if fgt current_distance last then
          let path := session_file log_dir current_distance (now_file r) in
          print (MsgNewDistance current_distance path)
            (open_session current_distance path w)
        else w
    end in
  match truthy (current_csv_log w) with
  | Some path => log_data (disk_ok r) data path w
  | None => w
  end.

(** One iteration of [while True] in which a line is available. *)
Definition loop_body (log_dir : string) (w : world) (r : reading) : world :=
  let line := strip (raw r) in
  if String.eqb line "" then w
  else
    let w := print (MsgRaw line) w in
    if startswith "Large gap detected" line then print MsgIgnoringGap w
    else if startswith "LOST:" line then
      let '(msgs, lost_data) := process_lost_line (now_row r) line in
      let w := prints msgs w in
      match lost_data, truthy (current_csv_log w) with
      | Some d, Some path => log_data (disk_ok r) d path w
      | _, _ => print MsgNoCsvYet w
      end
    else if startswith "DATA," line then
      let '(msgs, data) := process_data_line (now_row r) line in
      let w := prints msgs w in
      match data with
      | None => w
      | Some data =>
          match float_of_str (Distance data) with
          | None => print MsgDistanceError w
          | Some current_distance => on_distance log_dir r data current_distance w
          end
      end
    else w.

(** The loop over the lines the serial port delivers. *)
Definition main_loop (log_dir : string) (w : world) (rs : list reading) : world :=
  fold_left (loop_body log_dir) rs w.

(** The locals of [main] before the loop, over the files already on disk. *)
Definition initial (fs : gmap string (list (list string))) : world :=
  {| current_csv_log := None; last_distance := None; last_lost := None;
     files := fs; stdout := [] |}.

(** ** Notions used in the statements *)

(** [current_csv_log], [last_distance] and [last_lost]. *)
Definition locals (w : world) : option string * option float * option Z :=
  (current_csv_log w, last_distance w, last_lost w).

(** A well-formed DATA reading: the stripped line starts with [DATA,], has
    its ten fields, and its distance field converts to the float [d]. *)
Definition data_reading (r : reading) (data : row) (d : float) : Prop :=
  startswith "DATA," (strip (raw r)) = true /\
  process_data_line (now_row r) (strip (raw r)) = ([], Some data) /\
  float_of_str (Distance data) = Some d.

(** The directory part that [path_join] puts in front of a relative name. *)
Definition dir_prefix (a : string) : string :=
  if String.eqb a "" || ends_with_slash a then a else a ++ "/".

(** The file name of a session, without the directory. *)
Definition session_name (d : float) (now : datetime) : string :=
  "lora_data_" ++ format_2f d ++ "m_" ++ strftime "_" "-" now ++ ".csv".

(** In worlds the loop can reach, a recorded distance, an open log file and
    a recorded lost count come together, and the file carries the name of
    the recorded distance. *)
Definition session_inv (log_dir : string) (w : world) : Prop :=
  match last_distance w with
  | None => current_csv_log w = None /\ last_lost w = None
  | Some d =>
      (exists t, current_csv_log w = Some (session_file log_dir d t)) /\
      (exists n, last_lost w = Some n)
  end.

(** The paths announced on standard output when a session is opened. *)
Fixpoint opened (out : list message) : list string :=
  match out with
  | [] => []
  | MsgNewSession _ path :: out' => path :: opened out'
  | MsgNewDistance _ path :: out' => path :: opened out'
  | _ :: out' => opened out'
  end.

(** Every character of [s] satisfies [P]. *)
Fixpoint all_chars (P : ascii -> bool) (s : string) : bool :=
  match s with
  | EmptyString => true
  | String c s' => P c && all_chars P s'
  end.

(** Only whitespace. *)
Definition blank (s : string) : bool := all_chars isspace s.

(** A non-empty run of characters none of which is whitespace. *)
Definition token (s : string) : Prop :=
  s <> "" /\ all_chars (fun c => negb (isspace c)) s = true.

(** Empty, or ending in a whitespace character. *)
Definition boundary (s : string) : Prop :=
  s = "" \/ exists p c, s = p ++ String c "" /\ isspace c = true.

(** [tok] is the trailing whitespace-delimited token of [line]. *)
Definition trailing_token (line tok : string) : Prop :=
  exists pre post,
    line = pre ++ tok ++ post /\ boundary pre /\ token tok /\ blank post = true.

(** The part of the world later iterations depend on. *)
Definition store (w : world) :=
  (current_csv_log w, last_distance w, last_lost w, files w).

(** The reading of "the field parses to exactly 0": the text converts to a
    number, the way the logger converts its numeric fields, and the number
    is zero. *)
Definition parses_to_zero (text : string) : bool :=
  match float_of_str text with
  | Some x => feq x zero
  | None => false
  end.

(** The dictionary [process_lost_line] builds for a lost packet. *)
Definition lost_row (now : datetime) (lost_packet : string) : row :=
  {| Timestamp := strftime " " ":" now; Event := "LOST";
     MessageNumber := lost_packet;
     Distance := ""; Received := ""; Lost := ""; RSSI := ""; SNR := "";
     TotalPackets := ""; LossRate := "" |}.



(** Each distance is above its predecessor ([>] of floats). *)
Fixpoint increasing (ds : list float) : Prop :=
  match ds with
  | d1 :: (d2 :: _) as tl => fgt d2 d1 = true /\ increasing tl
  | _ => True
  end.

(** What the call of [log_data] in the pass of [r] leaves on the disk. *)
Definition written (r : reading) (data : row) (path : string)
    (fs : gmap string (list (list string))) : gmap string (list (list string)) :=
  if can_open (disk_ok r) path then write_row data path fs else fs.

(** The content of a file after the rows [rows] have been logged to it,
    [before] being its content (if it existed). *)
Definition grown (before : option (list (list string))) (rows : list row)
  : option (list (list string)) :=
  match before, rows with
  | None, [] => None
  | None, _ => Some (CSV_HEADERS :: map cells rows)
  | Some old, _ => Some (old ++ map cells rows)%list
  end.

(** The disk [after] is the disk [before] with the rows [rows] logged to
    the file at [path], every other file being as it was. *)
Definition appended (before after : gmap string (list (list string)))
    (path : string) (rows : list row) : Prop :=
  after !! path = grown (before !! path) rows /\
  forall other, other <> path -> after !! other = before !! other.


(** One of the characters [0] to [9]. *)
Definition is_digit (c : ascii) : bool :=
  match digit_val c with Some _ => true | None => false end.

(** The characters [format_2f] can produce. *)
Definition format_char (c : ascii) : bool :=
  is_digit c || Ascii.eqb c "-" || Ascii.eqb c "." || Ascii.eqb c "i"
  || Ascii.eqb c "n" || Ascii.eqb c "f" || Ascii.eqb c "a".

(** A reading observed together with its dictionary and its distance. *)
Definition observed : Type := reading * row * float.

Definition reading_of (o : observed) : reading := fst (fst o).
Definition distance_of (o : observed) : float := snd o.

(** The dictionary and the distance are those of the reading. *)
Definition well_formed (o : observed) : Prop :=
  data_reading (reading_of o) (snd (fst o)) (distance_of o).

(** The session file a reading would open. *)
Definition session_of (log_dir : string) (o : observed) : string :=
  session_file log_dir (distance_of o) (now_file (reading_of o)).

(** What the file name retains of a reading: the distance to two decimals
    and the clock to the second. *)
Definition session_key (o : observed) : string * string :=
  (format_2f (distance_of o), strftime "_" "-" (now_file (reading_of o))).

(** The number a text of decimal digits denotes. *)
Fixpoint dec_value_acc (acc : N) (s : string) : N :=
  match s with
  | EmptyString => acc
  | String c s' => dec_value_acc (10 * acc + (N_of_ascii c - 48)) s'
  end.

Definition dec_value (s : string) : N := dec_value_acc 0 s.

(** Lexicographic combination of two comparisons. *)
Definition lex (c1 c2 : comparison) : comparison :=
  match c1 with Eq => c2 | _ => c1 end.

(** Comparison of two clock readings, field by field from the year down. *)
Definition dt_compare (t1 t2 : datetime) : comparison :=
  lex (year t1 ?= year t2)%N
    (lex (month t1 ?= month t2)%N
       (lex (day t1 ?= day t2)%N
          (lex (hour t1 ?= hour t2)%N
             (lex (minute t1 ?= minute t2)%N (second t1 ?= second t2)%N)))).

(** [t1] is not later than [t2], to the second. *)
Definition dt_le (t1 t2 : datetime) : Prop := dt_compare t1 t2 <> Gt.

(** No clock reading is earlier than one before it. *)
Fixpoint steady (ts : list datetime) : Prop :=
  match ts with
  | [] => True
  | t :: ts' => Forall (dt_le t) ts' /\ steady ts'
  end.

(** The magnitude of a finite float in hundredths, as [format_2f] prints it. *)
Definition hundredths (u : N) : N :=
  Z.to_N (round_half_even (100 * Z.of_N u) (2 ^ unit_exp)).

(** The recorded distance is [d] and the open file is the one named after
    [d] at clock reading [t]. *)
Definition named (log_dir : string) (w : world) (d : float) (t : datetime) : Prop :=
  last_distance w = Some d /\ current_csv_log w = Some (session_file log_dir d t).

(** ** Concrete readings used in the examples *)

(** 17 May 2024, 10:30 and [s] seconds. *)
Definition clock (s : N) : datetime :=
  {| year := 2024; month := 5; day := 17; hour := 10; minute := 30; second := s |}.

(** The line [line] read while the clock shows [clock s], on a disk that
    lets the log file be opened. *)
Definition at_second (s : N) (line : string) : reading :=
  {| raw := line; now_row := clock s; now_file := clock s; disk_ok := true |}.

(** The default of [--log-dir] for the user [pi]. *)
Definition pi_logs : string := "/home/pi/lora_data_logs".

(** The float a text converts to (NaN when it does not convert). *)
Definition the_float (text : string) : float :=
  match float_of_str text with Some x => x | None => Fnan end.

(** The dictionary of a DATA line (an empty one when it is incomplete). *)
Definition the_row (r : reading) : row :=
  match process_data_line (now_row r) (strip (raw r)) with
  | (_, Some data) => data
  | _ => {| Timestamp := ""; Event := ""; MessageNumber := ""; Distance := "";
            Received := ""; Lost := ""; RSSI := ""; SNR := "";
            TotalPackets := ""; LossRate := "" |}
  end.

(** The distances 10.0 and 15.0 of the scenario. *)
Definition ten : float := the_float "10.0".
Definition fifteen : float := the_float "15.0".

(** A reading with the dictionary and the distance the logger derives. *)
Definition observe (r : reading) : observed :=
  (r, the_row r, the_float (Distance (the_row r))).

(** ** Port discovery *)

(** [a - b] on floats: the exact difference rounded to binary64; an exact
    zero is [-0.0] only for [-0.0 - 0.0]. *)
Definition fsub (a b : float) : float :=
  match a, b with
  | Fnan, _ | _, Fnan => Fnan
  | Finf s1, Finf s2 => if Bool.eqb s1 s2 then Fnan else Finf s1
  | Finf s1, Ffin _ _ => Finf s1
  | Ffin _ _, Finf s2 => Finf (negb s2)
  | Ffin s1 u1, Ffin s2 u2 =>
      let z := signed s1 u1 - signed s2 u2 in
      if z =? 0 then Ffin (s1 && negb s2 && (u1 =? 0)%N) 0
      else binary64_of_ratio (z <? 0) (Z.abs z) (2 ^ unit_exp)
  end.

(** [x < n] for a float [x] and an [int] [n]: Python compares the exact
    values. *)
Definition float_lt_int (x : float) (n : Z) : bool :=
  match x with
  | Fnan => false
  | Finf neg => neg
  | Ffin neg mag => signed neg mag <? n * 2 ^ unit_exp
  end.

(** [glob.glob("/dev/" + prefix + "*")], where [dev] is what [/dev] lists
    when the call is made, in the order the system lists it. *)
Definition glob_dev (prefix : string) (dev : list string) : list string :=
  map (fun name => "/dev/" ++ name) (List.filter (startswith prefix) dev).

(** The lines [find_serial_port] prints. *)
Inductive port_message : Type :=
| MsgFoundACM (ports : list string)     (* "Found ACM ports:" *)
| MsgFoundUSB (ports : list string)     (* "Found USB ports:" *)
| MsgNoPorts.                           (* "No serial ports found. Retrying..." *)

(** [find_serial_port()]; [dev_acm] and [dev_usb] are the listings of
    [/dev] that its two [glob] calls see. *)
Definition find_serial_port (dev_acm dev_usb : list string)
  : list port_message * option string :=
  let acm_ports := glob_dev "ttyACM" dev_acm in
  match acm_ports with
  | port :: _ => ([MsgFoundACM acm_ports], Some port)
  | [] =>
      let usb_ports := glob_dev "ttyUSB" dev_usb in
      match usb_ports with
      | port :: _ => ([MsgFoundUSB usb_ports], Some port)
      | [] => ([MsgNoPorts], None)
      end
  end.

(** What one pass of the loop of [continuously_check_for_port] observes:
    the reading of [time.time()] in the loop test, and the listings of
    [/dev] for [find_serial_port]. *)
Record poll : Type := {
  poll_time : float;
  poll_acm : list string;
  poll_usb : list string
}.

(** [continuously_check_for_port(timeout)] after [start_time = time.time()],
    over the passes of its loop.  The result is [Some (Some port)] for
    [return port], [Some None] for [return None], and [None] while the loop
    is still running when the observations end. *)
Fixpoint continuously_check_for_port (timeout : Z) (start_time : float)
    (polls : list poll) : list port_message * option (option string) :=
  match polls with
  | [] => ([], None)
  | p :: later =>
      if float_lt_int (fsub (poll_time p) start_time) timeout then
        let '(msgs, port) := find_serial_port (poll_acm p) (poll_usb p) in
        match truthy port with
        | Some found => (msgs, Some (Some found))
        | None =>
            let '(msgs', result) :=
              continuously_check_for_port timeout start_time later in
            ((msgs ++ msgs')%list, result)
        end
      else ([], Some None)
  end.

(** ** Notions used in the further properties *)

(** [name] is the first of the names [dev] that starts with [prefix]. *)
Definition first_match (prefix : string) (dev : list string) (name : string) : Prop :=
  exists before after,
    dev = (before ++ name :: after)%list /\
    startswith prefix name = true /\
    Forall (fun n => startswith prefix n = false) before.

(** None of the names starts with [prefix]. *)
Definition no_match (prefix : string) (dev : list string) : Prop :=
  Forall (fun n => startswith prefix n = false) dev.

(** A pass of the waiting loop that is within the timeout and finds no
    port. *)
Definition idle (timeout : Z) (start_time : float) (p : poll) : Prop :=
  float_lt_int (fsub (poll_time p) start_time) timeout = true /\
  truthy (snd (find_serial_port (poll_acm p) (poll_usb p))) = None.

(** [sep.join(fields)] for a one-character separator. *)
Fixpoint join (sep : ascii) (fields : list string) : string :=
  match fields with
  | [] => EmptyString
  | [f] => f
  | f :: rest => f ++ String sep (join sep rest)
  end.

(** A text without a comma. *)
Definition comma_free (s : string) : Prop :=
  all_chars (fun c => negb (Ascii.eqb c ",")) s = true.

(** The rows the logger writes are DATA rows and LOST rows. *)
Definition logger_row (d : row) : Prop := Event d = "DATA" \/ Event d = "LOST".

(** The distances announced on standard output when a session is opened. *)
Fixpoint announced (out : list message) : list float :=
  match out with
  | [] => []
  | MsgNewSession d _ :: out' => d :: announced out'
  | MsgNewDistance d _ :: out' => d :: announced out'
  | _ :: out' => announced out'
  end.

(** The reading is a well-formed DATA reading. *)
Definition is_data_reading (r : reading) : bool :=
  startswith "DATA," (strip (raw r)) &&
  match process_data_line (now_row r) (strip (raw r)) with
  | ([], Some data) =>
      match float_of_str (Distance data) with Some _ => true | None => false end
  | _ => false
  end.

(** A reading the loop acts upon: a well-formed DATA reading or a line
    that begins with [LOST:]. *)
Definition relevant (r : reading) : bool :=
  is_data_reading r || startswith "LOST:" (strip (raw r)).

(** What a pass receives from the serial port and from the clock. *)
Definition heard (r : reading) : string * datetime * datetime :=
  (raw r, now_row r, now_file r).

(** The lines echoed after [RAW:] on standard output. *)
Definition echoed (out : list message) : list string :=
  flat_map (fun m => match m with MsgRaw line => [line] | _ => [] end) out.

(** ** Text lemmas *)

Section Text.

Lemma append_cons (c : ascii) (a b : string) : String c a ++ b = String c (a ++ b).
Proof. reflexivity. Qed.

Lemma append_nil_l (b : string) : "" ++ b = b.
Proof. reflexivity. Qed.

Lemma append_assoc (a b c : string) : (a ++ b) ++ c = a ++ (b ++ c).
Proof.
  induction a as [|x a IH]; [reflexivity |].
  rewrite !append_cons, IH. reflexivity.
Qed.

Lemma append_inv_head (a b c : string) : a ++ b = a ++ c -> b = c.
Proof.
  induction a as [|x a IH]; [tauto |].
  rewrite !append_cons. intros H. injection H as H. auto.
Qed.

Lemma append_length (a b : string) :
  String.length (a ++ b) = (String.length a + String.length b)%nat.
Proof.
  induction a as [|x a IH]; [reflexivity |].
  rewrite append_cons. simpl. now rewrite IH.
Qed.

Lemma append_inv_tail (a b c : string) : a ++ c = b ++ c -> a = b.
Proof.
  revert b. induction a as [|x a IH]; intros [|y b] H.
  - reflexivity.
  - apply (f_equal String.length) in H.
    rewrite ?append_cons, ?append_nil_l in H. simpl in H.
    rewrite append_length in H. lia.
  - apply (f_equal String.length) in H.
    rewrite ?append_cons, ?append_nil_l in H. simpl in H.
    rewrite append_length in H. lia.
  - rewrite !append_cons in H. injection H as -> H. f_equal. auto.
Qed.

Lemma startswith_spec (p s : string) :
  startswith p s = true <-> exists rest, s = p ++ rest.
Proof.
  unfold startswith. revert s. induction p as [|c p IH]; intros s.
  - split; [intros _; exists s; reflexivity | intros _; destruct s; reflexivity].
  - destruct s as [|d s]; simpl.
    { split; [discriminate | intros [r Hr]; discriminate]. }
    destruct (Ascii.ascii_dec c d) as [->|Hne].
    + rewrite IH. split; intros [r Hr]; exists r.
      * rewrite append_cons. now rewrite Hr.
      * rewrite append_cons in Hr. now injection Hr.
    + split; [discriminate |].
      intros [r Hr]. rewrite append_cons in Hr. injection Hr as -> _. contradiction.
Qed.

(** Stripping on the right stops at a character that is not whitespace. *)
Lemma rstrip_keeps (a : string) (c : ascii) (b : string) :
  isspace c = false -> exists b', rstrip (a ++ String c b) = a ++ String c b'.
Proof.
  intros Hc. induction a as [|x a IH].
  - rewrite append_nil_l. simpl. rewrite Hc.
    destruct (rstrip b) as [|y r]; [exists "" | exists (String y r)]; reflexivity.
  - destruct IH as [b' IH]. exists b'. rewrite !append_cons.
    change (rstrip (String x (a ++ String c b)))
      with (match rstrip (a ++ String c b) with
            | EmptyString => if isspace x then EmptyString else String x EmptyString
            | r => String x r
            end).
    rewrite IH. destruct a; reflexivity.
Qed.

(** A line that begins with the gap message still does after [strip]. *)
Lemma gap_prefix_survives_strip (text : string) :
  startswith "Large gap detected" text = true ->
  startswith "Large gap detected" (strip text) = true.
Proof.
  intros [rest ->]%startswith_spec. apply startswith_spec. unfold strip.
  change (lstrip ("Large gap detected" ++ rest))
    with ("Large gap detecte" ++ String "d" rest).
  destruct (rstrip_keeps "Large gap detecte" "d" rest eq_refl) as [b' ->].
  exists b'. reflexivity.
Qed.

End Text.

(** ** Comparison of floats *)

Section Floats.

Lemma fgt_not_fle (a b : float) : fgt a b = true -> fle a b = false.
Proof. unfold fgt, fle. destruct (fcompare a b) as [[]|]; congruence. Qed.



Lemma feq_fin s1 u1 s2 u2 :
  feq (Ffin s1 u1) (Ffin s2 u2) = (signed s1 u1 =? signed s2 u2).
Proof.
  unfold feq. simpl. destruct (Z.compare_spec (signed s1 u1) (signed s2 u2));
    symmetry; [apply Z.eqb_eq | apply Z.eqb_neq | apply Z.eqb_neq]; lia.
Qed.

Lemma fle_fin s1 u1 s2 u2 :
  fle (Ffin s1 u1) (Ffin s2 u2) = (signed s1 u1 <=? signed s2 u2).
Proof.
  unfold fle. simpl. destruct (Z.compare_spec (signed s1 u1) (signed s2 u2));
    symmetry; [apply Z.leb_le | apply Z.leb_le | apply Z.leb_gt]; lia.
Qed.

Lemma fgt_fin s1 u1 s2 u2 :
  fgt (Ffin s1 u1) (Ffin s2 u2) = (signed s2 u2 <? signed s1 u1).
Proof.
  unfold fgt. simpl. destruct (Z.compare_spec (signed s1 u1) (signed s2 u2));
    symmetry; [apply Z.ltb_ge | apply Z.ltb_ge | apply Z.ltb_lt]; lia.
Qed.

(** Turns comparisons of finite floats into comparisons of integers. *)
Ltac float_cases :=
  unfold fne in *; rewrite ?feq_fin, ?fle_fin, ?fgt_fin in *;
  rewrite ?negb_true_iff, ?negb_false_iff in *;
  rewrite ?Z.eqb_eq, ?Z.eqb_neq, ?Z.leb_le, ?Z.leb_gt, ?Z.ltb_lt, ?Z.ltb_ge in *.

(** A zero reading against a positive last distance. *)
Lemma zero_below_positive (d last : float) :
  feq d zero = true -> fgt last zero = true ->
  fne last zero = true /\ fle d last = true /\ fne d last = true /\ fgt d last = false.
Proof.
  unfold zero.
  destruct d as [|[]|s1 u1], last as [|[]|s2 u2];
    try (intros H1 H2; (discriminate H1 || discriminate H2)).
  - intros _ _. repeat split; reflexivity.
  - intros H1 H2. float_cases. lia.
Qed.

End Floats.

(** ** The locals of [main] and the session invariant *)

(** The two outcomes of every [open] in the goal. *)
Ltac open_cases :=
  try unfold log_data;
  repeat match goal with
         | |- context [can_open ?ok ?p] => destruct (can_open ok p)
         end.

Ltac open_cases_eq :=
  try unfold log_data;
  repeat match goal with
         | |- context [can_open ?ok ?p] =>
             let E := fresh "Hopen" in destruct (can_open ok p) eqn:E
         end.

Section Loop.

Variable log_dir : string.

Lemma session_file_eq (d : float) (now : datetime) :
  session_file log_dir d now = dir_prefix log_dir ++ session_name d now.
Proof.
  unfold session_file, path_join, dir_prefix.
  change ("lora_data_" ++ format_2f d ++ "m_" ++ strftime "_" "-" now ++ ".csv")
    with (session_name d now).
  replace (startswith "/" (session_name d now)) with false by reflexivity.
  destruct (String.eqb log_dir "" || ends_with_slash log_dir); [reflexivity |].
  now rewrite append_assoc.
Qed.

Lemma session_file_nonempty (d : float) (now : datetime) :
  String.eqb (session_file log_dir d now) "" = false.
Proof.
  rewrite session_file_eq. destruct (dir_prefix log_dir); reflexivity.
Qed.

Lemma locals_print m w : locals (print m w) = locals w.
Proof. reflexivity. Qed.

Lemma locals_prints ms w : locals (prints ms w) = locals w.
Proof.
  unfold prints. revert w. induction ms as [|m ms IH]; intros w; [reflexivity |].
  simpl. now rewrite IH.
Qed.

Lemma files_prints ms w : files (prints ms w) = files w.
Proof.
  unfold prints. revert w. induction ms as [|m ms IH]; intros w; [reflexivity |].
  simpl. now rewrite IH.
Qed.

Lemma log_data_opens ok data p w :
  can_open ok p = true ->
  log_data ok data p w =
    {| current_csv_log := current_csv_log w; last_distance := last_distance w;
       last_lost := last_lost w; files := write_row data p (files w);
       stdout := (stdout w ++ [MsgLogged data])%list |}.
Proof. intros H. unfold log_data. now rewrite H. Qed.

Lemma log_data_fails ok data p w :
  can_open ok p = false -> log_data ok data p w = print MsgWriteError w.
Proof. intros H. unfold log_data. now rewrite H. Qed.

Lemma locals_log_data ok data p w : locals (log_data ok data p w) = locals w.
Proof. unfold log_data. destruct (can_open ok p); reflexivity. Qed.

Lemma current_log_data ok data p w :
  current_csv_log (log_data ok data p w) = current_csv_log w.
Proof. unfold log_data. destruct (can_open ok p); reflexivity. Qed.

Lemma distance_log_data ok data p w :
  last_distance (log_data ok data p w) = last_distance w.
Proof. unfold log_data. destruct (can_open ok p); reflexivity. Qed.

Lemma lost_log_data ok data p w :
  last_lost (log_data ok data p w) = last_lost w.
Proof. unfold log_data. destruct (can_open ok p); reflexivity. Qed.

Lemma files_log_data ok data p w :
  files (log_data ok data p w) =
    if can_open ok p then write_row data p (files w) else files w.
Proof. unfold log_data. destruct (can_open ok p); reflexivity. Qed.

Lemma stdout_log_data ok data p w :
  stdout (log_data ok data p w) =
    (stdout w ++ [if can_open ok p then MsgLogged data else MsgWriteError])%list.
Proof. unfold log_data. destruct (can_open ok p); reflexivity. Qed.

Lemma session_inv_locals w w' :
  locals w' = locals w -> session_inv log_dir w -> session_inv log_dir w'.
Proof.
  unfold locals, session_inv. intros H. injection H as -> -> ->. tauto.
Qed.

(** A line that starts with [DATA,] reaches the DATA branch. *)
Lemma loop_body_DATA w r :
  startswith "DATA," (strip (raw r)) = true ->
  loop_body log_dir w r =
    let line := strip (raw r) in
    let '(msgs, data) := process_data_line (now_row r) line in
    let w := prints msgs (print (MsgRaw line) w) in
    match data with
    | None => w
    | Some data =>
        match float_of_str (Distance data) with
        | None => print MsgDistanceError w
        | Some current_distance => on_distance log_dir r data current_distance w
        end
    end.
Proof.
  intros H. unfold loop_body. rewrite H.
  apply startswith_spec in H. destruct H as [rest ->]. reflexivity.
Qed.

Lemma loop_body_data w r data d :
  data_reading r data d ->
  loop_body log_dir w r =
    on_distance log_dir r data d (print (MsgRaw (strip (raw r))) w).
Proof.
  intros (H1 & H2 & H3). rewrite loop_body_DATA by exact H1.
  simpl. rewrite H2, H3. reflexivity.
Qed.

Lemma on_distance_inv r data d w :
  session_inv log_dir w -> session_inv log_dir (on_distance log_dir r data d w).
Proof.
  unfold session_inv, on_distance. intros H.
  destruct (last_distance w) as [last|] eqn:Hl.
  - destruct H as [[t Ht] [n Hn]].
    destruct (feq d zero && fne last zero); simpl; rewrite Hl;
      destruct (fle d last && fne d last); simpl;
      try destruct (fgt d last);
      repeat (progress (simpl; rewrite ?Hl, ?Hn, ?Ht, ?session_file_nonempty));
      open_cases;
      repeat (progress (simpl; rewrite ?Hl, ?Hn, ?Ht));
      eauto.
  - destruct H as [Hc Hn]. simpl. rewrite Hl. simpl.
    rewrite session_file_nonempty. open_cases; simpl; eauto.
Qed.

Lemma loop_body_inv w r :
  session_inv log_dir w -> session_inv log_dir (loop_body log_dir w r).
Proof.
  intros H. unfold loop_body.
  destruct (String.eqb (strip (raw r)) ""); [exact H |].
  destruct (startswith "Large gap detected" (strip (raw r))).
  { eapply session_inv_locals; [|exact H]. reflexivity. }
  destruct (startswith "LOST:" (strip (raw r))).
  { destruct (process_lost_line (now_row r) (strip (raw r))) as [msgs [d|]].
    - destruct (truthy _);
        (eapply session_inv_locals; [|exact H]);
        rewrite ?locals_log_data, ?locals_print, locals_prints; reflexivity.
    - eapply session_inv_locals; [|exact H].
      rewrite locals_print, locals_prints. reflexivity. }
  destruct (startswith "DATA," (strip (raw r))); [|exact H].
  destruct (process_data_line (now_row r) (strip (raw r))) as [msgs [data|]].
  - assert (Hw : session_inv log_dir (prints msgs (print (MsgRaw (strip (raw r))) w))).
    { eapply session_inv_locals; [|exact H]. now rewrite locals_prints. }
    destruct (float_of_str (Distance data)) as [d|].
    + now apply on_distance_inv.
    + eapply session_inv_locals; [|exact Hw]. reflexivity.
  - eapply session_inv_locals; [|exact H]. now rewrite locals_prints.
Qed.

Lemma main_loop_inv w rs :
  session_inv log_dir w -> session_inv log_dir (main_loop log_dir w rs).
Proof.
  unfold main_loop. revert w. induction rs as [|r rs IH]; intros w H; simpl.
  - exact H.
  - apply IH. now apply loop_body_inv.
Qed.

Lemma initial_inv fs : session_inv log_dir (initial fs).
Proof. split; reflexivity. Qed.

Lemma main_loop_cons w r rs :
  main_loop log_dir w (r :: rs) = main_loop log_dir (loop_body log_dir w r) rs.
Proof. reflexivity. Qed.

Lemma main_loop_nil w : main_loop log_dir w [] = w.
Proof. reflexivity. Qed.

Lemma main_loop_app w rs1 rs2 :
  main_loop log_dir w (rs1 ++ rs2)%list =
  main_loop log_dir (main_loop log_dir w rs1) rs2.
Proof. unfold main_loop. apply fold_left_app. Qed.

End Loop.

(** Reading a local of [main] through the prints and writes that do not
    touch it. *)
Ltac through_log :=
  repeat (rewrite ?distance_log_data, ?current_log_data, ?lost_log_data;
          cbn [last_distance current_csv_log last_lost files stdout
               set_last_lost print open_session]).

(** ** What a write leaves on the disk *)

Section Disk.

Lemma write_row_lookup data p fs path :
  write_row data p fs !! path =
    if decide (p = path) then grown (fs !! path) [data] else fs !! path.
Proof.
  unfold write_row. destruct (decide (p = path)) as [->|Hne].
  - rewrite lookup_insert_eq. destruct (fs !! path); reflexivity.
  - now rewrite lookup_insert_ne.
Qed.

Lemma grown_app before rows1 rows2 :
  grown (grown before rows1) rows2 = grown before (rows1 ++ rows2)%list.
Proof.
  destruct before as [old|]; simpl.
  - now rewrite map_app, app_assoc.
  - destruct rows1 as [|r1 rows1]; [reflexivity |].
    simpl. now rewrite map_app.
Qed.

Lemma grown_nil before : grown before [] = before.
Proof. destruct before; simpl; [now rewrite app_nil_r | reflexivity]. Qed.

Lemma appended_nil fs path : appended fs fs path [].
Proof. split; [now rewrite grown_nil | reflexivity]. Qed.

Lemma appended_write_row data path fs :
  appended fs (write_row data path fs) path [data].
Proof.
  split.
  - rewrite write_row_lookup. now destruct (decide (path = path)).
  - intros other Hne. rewrite write_row_lookup.
    now destruct (decide (path = other)) as [->|].
Qed.


Lemma appended_written r data path fs :
  appended fs (written r data path fs) path
    (if can_open (disk_ok r) path then [data] else []).
Proof.
  unfold written. destruct (can_open (disk_ok r) path).
  - apply appended_write_row.
  - apply appended_nil.
Qed.

Lemma written_opens r data path fs :
  can_open (disk_ok r) path = true -> written r data path fs = write_row data path fs.
Proof. intros H. unfold written. now rewrite H. Qed.

Lemma files_log_data_written r data p w :
  files (log_data (disk_ok r) data p w) = written r data p (files w).
Proof. unfold written. apply files_log_data. Qed.

End Disk.

Lemma opened_app (a b : list message) : opened (a ++ b)%list = (opened a ++ opened b)%list.
Proof.
  induction a as [|m a IH]; [reflexivity |].
  destruct m; simpl; rewrite IH; reflexivity.
Qed.

(** ** Single readings *)

Section Readings.

Variable log_dir : string.

(** What [on_distance] does when no distance has been recorded yet. *)
Lemma on_distance_first r data d w :
  last_distance w = None ->
  on_distance log_dir r data d w =
    let path := session_file log_dir d (now_file r) in
    log_data (disk_ok r) data path
      (print (MsgNewSession d path)
         (open_session d path (set_last_lost (lost_count (Lost data)) w))).
Proof.
  intros Hl. unfold on_distance. rewrite Hl. simpl. rewrite Hl. simpl.
  now rewrite session_file_nonempty.
Qed.

(** What [on_distance] does on a zero reading after a positive distance. *)
Lemma on_distance_transient r data d w last path :
  last_distance w = Some last -> current_csv_log w = Some path ->
  String.eqb path "" = false ->
  feq d zero = true -> fgt last zero = true ->
  on_distance log_dir r data d w =
    let n := match last_lost w with Some n => n | None => 0 end in
    log_data (disk_ok r) (set_Lost (str_of_int n) data) path
      (print (MsgLowerValue d last) (print (MsgTransientZero n) w)).
Proof.
  intros Hl Hp Hne Hd Hlast.
  destruct (zero_below_positive d last Hd Hlast) as (H1 & H2 & H3 & H4).
  unfold on_distance. rewrite Hl, Hd, H1. simpl. rewrite Hl, H2, H3. simpl.
  rewrite Hp. simpl. now rewrite Hne.
Qed.

(** What [on_distance] does on a reading above the recorded distance. *)
Lemma on_distance_higher r data d w last :
  last_distance w = Some last -> fgt d last = true ->
  exists v w0,
    on_distance log_dir r data d w =
      (let path := session_file log_dir d (now_file r) in
       log_data (disk_ok r) (set_Lost v data) path
         (print (MsgNewDistance d path) (open_session d path w0))) /\
    files w0 = files w /\ opened (stdout w0) = opened (stdout w).
Proof.
  intros Hl Hgt. unfold on_distance. rewrite Hl.
  assert (Hsame : set_Lost (Lost data) data = data) by (now destruct data).
  destruct (feq d zero && fne last zero); simpl; rewrite Hl;
    rewrite (fgt_not_fle _ _ Hgt), Hgt; simpl;
    rewrite session_file_nonempty.
  - eexists; eexists; split; [reflexivity |].
    simpl. rewrite opened_app, app_nil_r. auto.
  - exists (Lost data). rewrite Hsame. eexists; split; [reflexivity | auto].
Qed.

(** What [on_distance] does on a reading that is not above the recorded
    distance: the locals other than [last_lost] stay, and the row goes to
    the open file. *)
Lemma on_distance_not_higher r data d w last path :
  last_distance w = Some last -> current_csv_log w = Some path ->
  String.eqb path "" = false ->
  fgt d last = false ->
  exists v w0,
    on_distance log_dir r data d w = log_data (disk_ok r) (set_Lost v data) path w0 /\
    files w0 = files w /\ current_csv_log w0 = Some path /\
    last_distance w0 = Some last /\ opened (stdout w0) = opened (stdout w).
Proof.
  intros Hl Hp Hne Hgt. unfold on_distance. rewrite Hl.
  assert (Hsame : set_Lost (Lost data) data = data) by (now destruct data).
  destruct (feq d zero && fne last zero); simpl; rewrite Hl, Hgt.
  - destruct (fle d last && fne d last); simpl; rewrite Hp; simpl; rewrite Hne;
      eexists; eexists; (split; [reflexivity |]);
      simpl; rewrite ?opened_app, ?app_nil_r; auto.
  - destruct (fle d last && fne d last); simpl; rewrite Hp; simpl; rewrite Hne;
      exists (Lost data); rewrite Hsame;
      eexists; (split; [reflexivity |]);
      simpl; rewrite ?opened_app, ?app_nil_r; auto.
Qed.

End Readings.

(** ** Properties of a single reading *)

(** C8. A line that begins with "Large gap detected", as received or once
    stripped, writes no record and leaves [last_lost], [last_distance] and
    [current_csv_log] as they were: the iteration only prints. *)
Theorem gap_line_changes_nothing (log_dir : string) (w : world) (r : reading) :
  startswith "Large gap detected" (raw r) = true \/
  startswith "Large gap detected" (strip (raw r)) = true ->
  let w' := loop_body log_dir w r in
  w' = print MsgIgnoringGap (print (MsgRaw (strip (raw r))) w) /\
  files w' = files w /\
  last_lost w' = last_lost w /\
  last_distance w' = last_distance w /\
  current_csv_log w' = current_csv_log w.
Proof.
  intros H.
  assert (Hline : startswith "Large gap detected" (strip (raw r)) = true).
  { destruct H as [H | H]; [now apply gap_prefix_survives_strip | exact H]. }
  unfold loop_body. rewrite Hline.
  apply startswith_spec in Hline. destruct Hline as [rest ->].
  repeat split; reflexivity.
Qed.

Lemma gap_line_changes_nothing_witness :
  let w := main_loop pi_logs (initial ∅)
             [at_second 1 "DATA,512,1,10.00,1,2,-71,9.25,1,0.00"] in
  let r := at_second 2 "Large gap detected: 6 packets" in
  startswith "Large gap detected" (raw r) = true /\
  files (loop_body pi_logs w r) = files w /\
  last_lost (loop_body pi_logs w r) = Some 2 /\
  last_distance (loop_body pi_logs w r) = Some (the_float "10.00").
Proof.
  split; [reflexivity |].
  destruct (gap_line_changes_nothing pi_logs
              (main_loop pi_logs (initial ∅)
                 [at_second 1 "DATA,512,1,10.00,1,2,-71,9.25,1,0.00"])
              (at_second 2 "Large gap detected: 6 packets") (or_introl eq_refl))
    as (_ & Hf & Hl & Hd & _).
  split; [exact Hf |]. split.
  - rewrite Hl. vm_compute. reflexivity.
  - rewrite Hd. vm_compute. reflexivity.
Defined.

Lemma format_2f_zero (d : float) :
  feq d zero = true -> format_2f d = "0.00" \/ format_2f d = "-0.00".
Proof.
  unfold zero. destruct d as [|[]|s u]; try discriminate.
  rewrite feq_fin. intros H%Z.eqb_eq.
  assert (u = 0%N) as -> by (destruct s; simpl in H; lia).
  destruct s; [right | left]; vm_compute; reflexivity.
Qed.

(** C10. With no distance recorded yet, a well-formed DATA reading whose
    distance is 0.0 is a first reading, not a transient zero: it opens the
    session file named after 0.00, records 0.0 as last distance, takes the
    lost count from the reading and logs the row as read; when the file
    cannot be opened, the error is printed in place of the row and the
    disk stays as it was. *)
Theorem first_zero_reading_opens_session
    (log_dir : string) (w : world) (r : reading) (data : row) (d : float) :
  data_reading r data d ->
  last_distance w = None ->
  feq d zero = true ->
  let w' := loop_body log_dir w r in
  let path := session_file log_dir d (now_file r) in
  last_distance w' = Some d /\
  current_csv_log w' = Some path /\
  (format_2f d = "0.00" \/ format_2f d = "-0.00") /\
  last_lost w' = Some (lost_count (Lost data)) /\
  files w' = written r data path (files w) /\
  stdout w' = (stdout w ++ [MsgRaw (strip (raw r)); MsgNewSession d path;
                            if can_open (disk_ok r) path then MsgLogged data
                            else MsgWriteError])%list.
Proof.
  intros Hr Hl Hz. cbv zeta.
  rewrite (loop_body_data log_dir w r data d Hr).
  rewrite on_distance_first by exact Hl. cbv zeta.
  rewrite distance_log_data, current_log_data, lost_log_data,
    files_log_data_written, stdout_log_data.
  simpl. repeat split; try reflexivity.
  - now apply format_2f_zero.
  - now rewrite <- !app_assoc.
Qed.

Lemma first_zero_reading_opens_session_witness :
  let r := at_second 7 "DATA,88,1,0.00,1,0,-40,10.5,1,0.00" in
  let w' := loop_body pi_logs (initial ∅) r in
  let path := "/home/pi/lora_data_logs/lora_data_0.00m_2024-05-17_10-30-07.csv" in
  data_reading r (the_row r) zero /\
  last_distance (initial ∅) = None /\
  feq zero zero = true /\
  last_distance w' = Some zero /\
  current_csv_log w' = Some path /\
  files w' !! path =
    Some [CSV_HEADERS;
          ["2024-05-17 10:30:07"; "DATA"; "1"; "0.00"; "1"; "0"; "-40"; "10.5"; "1"; "0.00"]].
Proof.
  assert (Hr : data_reading (at_second 7 "DATA,88,1,0.00,1,0,-40,10.5,1,0.00")
                 (the_row (at_second 7 "DATA,88,1,0.00,1,0,-40,10.5,1,0.00")) zero).
  { repeat split; vm_compute; reflexivity. }
  split; [exact Hr |]. split; [reflexivity |]. split; [reflexivity |].
  destruct (first_zero_reading_opens_session pi_logs (initial ∅) _ _ _
              Hr eq_refl eq_refl) as (H1 & H2 & _ & _ & H5 & _).
  split; [exact H1 |]. cbv zeta.
  split; [rewrite H2 | rewrite H5]; vm_compute; reflexivity.
Defined.

(** Reachable worlds with a recorded distance have a non-empty open path. *)
Lemma recorded_distance_has_path log_dir w last :
  session_inv log_dir w -> last_distance w = Some last ->
  exists path n, current_csv_log w = Some path /\
    String.eqb path "" = false /\ last_lost w = Some n.
Proof.
  unfold session_inv. intros H Hl. rewrite Hl in H.
  destruct H as [[t Ht] [n Hn]].
  exists (session_file log_dir last t), n.
  split; [exact Ht |]. split; [apply session_file_nonempty | exact Hn].
Qed.

(** C3, as the code has it.  A well-formed DATA reading of distance 0.0
    that arrives while the recorded distance is positive keeps
    [last_distance], [last_lost] and the open file, and announces no
    session.  The row it hands to [log_data] carries the last recorded lost
    count in [Lost] and the distance text as read; that row is added to
    the open file when the file can be opened, and otherwise the error is
    printed and the disk stays as it was. *)
Theorem transient_zero_keeps_session
    (log_dir : string) (fs : gmap string (list (list string)))
    (rs : list reading) (r : reading) (data : row) (d last : float) :
  let w := main_loop log_dir (initial fs) rs in
  data_reading r data d ->
  last_distance w = Some last ->
  fgt last zero = true ->
  feq d zero = true ->
  exists path,
    current_csv_log w = Some path /\
    let w' := loop_body log_dir w r in
    let n := match last_lost w with Some n => n | None => 0 end in
    let logged := set_Lost (str_of_int n) data in
    last_distance w' = Some last /\
    current_csv_log w' = Some path /\
    last_lost w' = last_lost w /\
    opened (stdout w') = opened (stdout w) /\
    Lost logged = str_of_int n /\
    Distance logged = Distance data /\
    appended (files w) (files w') path
      (if can_open (disk_ok r) path then [logged] else []) /\
    stdout w' =
      (stdout w ++ [MsgRaw (strip (raw r)); MsgTransientZero n; MsgLowerValue d last;
                    if can_open (disk_ok r) path then MsgLogged logged
                    else MsgWriteError])%list.
Proof.
  intros w Hr Hl Hpos Hz.
  destruct (recorded_distance_has_path log_dir w last) as (path & n & Hp & Hne & Hn);
    [apply main_loop_inv, initial_inv | exact Hl |].
  exists path. split; [exact Hp |]. cbv zeta.
  rewrite (loop_body_data log_dir w r data d Hr).
  rewrite (on_distance_transient log_dir r data d _ last path); auto.
  cbv zeta.
  rewrite distance_log_data, current_log_data, lost_log_data,
    files_log_data_written, stdout_log_data.
  simpl. repeat split; auto.
  - rewrite !opened_app. destruct (can_open (disk_ok r) path); simpl;
      now rewrite !app_nil_r.
  - apply appended_written.
  - apply appended_written.
  - now rewrite <- !app_assoc.
Qed.

Lemma transient_zero_keeps_session_witness :
  let rs := [at_second 1 "DATA,512,1,10.00,1,2,-71,9.25,1,0.00"] in
  let r := at_second 2 "DATA,640,2,0.00,2,9,-70,9.00,2,0.00" in
  let w := main_loop pi_logs (initial ∅) rs in
  let path := "/home/pi/lora_data_logs/lora_data_10.00m_2024-05-17_10-30-01.csv" in
  data_reading r (the_row r) zero /\
  last_distance w = Some (the_float "10.00") /\
  fgt (the_float "10.00") zero = true /\
  feq zero zero = true /\
  last_distance (loop_body pi_logs w r) = Some (the_float "10.00") /\
  current_csv_log (loop_body pi_logs w r) = Some path /\
  files (loop_body pi_logs w r) !! path =
    Some [CSV_HEADERS;
          ["2024-05-17 10:30:01"; "DATA"; "1"; "10.00"; "1"; "2"; "-71"; "9.25"; "1"; "0.00"];
          ["2024-05-17 10:30:02"; "DATA"; "2"; "0.00"; "2"; "2"; "-70"; "9.00"; "2"; "0.00"]].
Proof.
  assert (Hr : data_reading (at_second 2 "DATA,640,2,0.00,2,9,-70,9.00,2,0.00")
                 (the_row (at_second 2 "DATA,640,2,0.00,2,9,-70,9.00,2,0.00")) zero).
  { repeat split; vm_compute; reflexivity. }
  assert (Hl : last_distance
                 (main_loop pi_logs (initial ∅)
                    [at_second 1 "DATA,512,1,10.00,1,2,-71,9.25,1,0.00"])
               = Some (the_float "10.00")).
  { vm_compute. reflexivity. }
  assert (Hpos : fgt (the_float "10.00") zero = true) by (vm_compute; reflexivity).
  split; [exact Hr |]. split; [exact Hl |]. split; [exact Hpos |].
  split; [reflexivity |].
  destruct (transient_zero_keeps_session pi_logs ∅ _ _ _ _ _ Hr Hl Hpos eq_refl)
    as (path & Hp & H1 & H2 & _ & _ & _ & _ & [H4 _] & _).
  split; [exact H1 |].
  assert (path = "/home/pi/lora_data_logs/lora_data_10.00m_2024-05-17_10-30-01.csv")
    as ->.
  { vm_compute in Hp. injection Hp as <-. reflexivity. }
  split; [exact H2 |]. rewrite H4. vm_compute. reflexivity.
Defined.

(** C3 as stated fails: a reading of 1e300 opens a session whose file has
    a name of 339 characters and cannot be opened, whatever the disk
    holds; the 0.0 reading that follows keeps that session, and its record
    is persisted nowhere. *)
Lemma transient_zero_not_persisted_counterexample :
  ~ (forall (log_dir : string) (fs : gmap string (list (list string)))
            (rs : list reading) (r : reading) (data : row) (d last : float),
       let w := main_loop log_dir (initial fs) rs in
       disk_ok r = true ->
       data_reading r data d ->
       last_distance w = Some last ->
       fgt last zero = true ->
       feq d zero = true ->
       exists path content line,
         current_csv_log (loop_body log_dir w r) = Some path /\
         files (loop_body log_dir w r) !! path = Some content /\
         List.last content [] = line /\
         line !! 3%nat = Some (Distance data)).
Proof.
  intros H.
  assert (Hr : data_reading (at_second 2 "DATA,640,2,0.00,2,9,-70,9.00,2,0.00")
                 (the_row (at_second 2 "DATA,640,2,0.00,2,9,-70,9.00,2,0.00")) zero)
    by (repeat split; vm_compute; reflexivity).
  destruct (H pi_logs ∅ [at_second 1 "DATA,512,1,1e300,1,2,-71,9.25,1,0.00"]
              (at_second 2 "DATA,640,2,0.00,2,9,-70,9.00,2,0.00") _ _
              (the_float "1e300") eq_refl Hr
              ltac:(vm_compute; reflexivity) ltac:(vm_compute; reflexivity) eq_refl)
    as (path & content & line & Hp & Hf & _).
  vm_compute in Hp. injection Hp as <-.
  vm_compute in Hf. discriminate Hf.
Qed.

(** ** The last token of a line *)

Section Tokens.

Lemma split_ws_blank (s : string) : blank s = true -> split_ws s = [].
Proof.
  unfold blank. induction s as [|c s IH]; simpl; [reflexivity |].
  intros [Hc Hs]%andb_true_iff. rewrite Hc. auto.
Qed.

Lemma split_ws_nonspace (c : ascii) (s : string) :
  isspace c = false -> exists w ws, split_ws (String c s) = w :: ws.
Proof.
  intros Hc. simpl. rewrite Hc. destruct s as [|c' s']; [eauto |].
  destruct (isspace c'); [eauto |]. destruct (split_ws (String c' s')); eauto.
Qed.

Lemma split_ws_token (tok post : string) :
  token tok -> blank post = true -> split_ws (tok ++ post) = [tok].
Proof.
  intros [Hne Htok] Hpost. induction tok as [|c t IH]; [contradiction |].
  simpl in Htok. apply andb_true_iff in Htok as [Hc Ht].
  apply negb_true_iff in Hc.
  destruct t as [|c2 t].
  - rewrite append_cons, append_nil_l. simpl. rewrite Hc.
    destruct post as [|p post]; [reflexivity |].
    pose proof Hpost as Hp. unfold blank in Hp. simpl in Hp.
    apply andb_true_iff in Hp as [Hp _]. rewrite Hp.
    now rewrite split_ws_blank.
  - pose proof Ht as Ht'. simpl in Ht'. apply andb_true_iff in Ht' as [Hc2 _].
    apply negb_true_iff in Hc2.
    rewrite append_cons.
    change (split_ws (String c (String c2 t ++ post)))
      with (if isspace c then split_ws (String c2 t ++ post)
            else match String c2 t ++ post with
                 | EmptyString => [String c EmptyString]
                 | String c' _ =>
                     if isspace c' then String c EmptyString :: split_ws (String c2 t ++ post)
                     else match split_ws (String c2 t ++ post) with
                          | w :: ws => String c w :: ws
                          | [] => [String c EmptyString]
                          end
                 end).
    rewrite Hc, IH by (auto; discriminate).
    rewrite append_cons, Hc2. reflexivity.
Qed.

Lemma split_ws_boundary (pre rest : string) :
  boundary pre -> split_ws (pre ++ rest) = (split_ws pre ++ split_ws rest)%list.
Proof.
  induction pre as [|c p IH]; intros Hb; [reflexivity |].
  assert (Hp : (p = "" /\ isspace c = true) \/ (p <> "" /\ boundary p)).
  { destruct Hb as [Hb | (q & x & Hq & Hx)]; [discriminate |].
    destruct q as [|y q].
    - rewrite append_nil_l in Hq. injection Hq as -> ->. left. auto.
    - rewrite append_cons in Hq. injection Hq as -> ->. right. split.
      + destruct q; discriminate.
      + right. eauto. }
  destruct Hp as [[-> Hc] | [Hne Hbp]].
  - rewrite append_cons, append_nil_l. simpl. now rewrite Hc.
  - specialize (IH Hbp). destruct p as [|c' p']; [contradiction |].
    rewrite append_cons.
    destruct (isspace c) eqn:Hc.
    + simpl split_ws at 2. rewrite Hc.
      change (split_ws (String c (String c' p' ++ rest)))
        with (if isspace c then split_ws (String c' p' ++ rest)
              else match String c' p' ++ rest with
                   | EmptyString => [String c EmptyString]
                   | String x _ =>
                       if isspace x then String c EmptyString :: split_ws (String c' p' ++ rest)
                       else match split_ws (String c' p' ++ rest) with
                            | w :: ws => String c w :: ws
                            | [] => [String c EmptyString]
                            end
                   end).
      rewrite Hc. exact IH.
    + change (split_ws (String c (String c' p' ++ rest)))
        with (if isspace c then split_ws (String c' p' ++ rest)
              else match String c' p' ++ rest with
                   | EmptyString => [String c EmptyString]
                   | String x _ =>
                       if isspace x then String c EmptyString :: split_ws (String c' p' ++ rest)
                       else match split_ws (String c' p' ++ rest) with
                            | w :: ws => String c w :: ws
                            | [] => [String c EmptyString]
                            end
                   end).
      change (split_ws (String c (String c' p')))
        with (if isspace c then split_ws (String c' p')
              else if isspace c' then String c EmptyString :: split_ws (String c' p')
                   else match split_ws (String c' p') with
                        | w :: ws => String c w :: ws
                        | [] => [String c EmptyString]
                        end).
      rewrite Hc, IH. rewrite append_cons.
      destruct (isspace c') eqn:Hc'; [reflexivity |].
      destruct (split_ws_nonspace c' p' Hc') as (w & ws & ->). reflexivity.
Qed.

Lemma last_item_app {A} (l : list A) (x : A) : last_item (l ++ [x])%list = Some x.
Proof.
  unfold last_item. rewrite map_app. simpl. apply last_last.
Qed.

(** A line with a trailing token: [parts[-1]] is that token. *)
Lemma trailing_token_last (line tok : string) :
  trailing_token line tok -> last_item (split_ws line) = Some tok.
Proof.
  intros (pre & post & -> & Hb & Ht & Hp).
  rewrite split_ws_boundary by exact Hb.
  rewrite split_ws_token by assumption.
  apply last_item_app.
Qed.

(** Every line is blank or has a trailing token. *)
Lemma blank_or_trailing_token (line : string) :
  blank line = true \/ exists tok, trailing_token line tok.
Proof.
  induction line as [|c s IH]; [left; reflexivity |].
  destruct (isspace c) eqn:Hc.
  - destruct IH as [Hs | (tok & pre & post & -> & Hb & Ht & Hp)].
    + left. unfold blank. simpl. now rewrite Hc.
    + right. exists tok, (String c pre), post. rewrite append_cons.
      split; [reflexivity |]. split; [|auto].
      right. destruct Hb as [-> | (q & x & -> & Hx)].
      * exists "", c. auto.
      * exists (String c q), x. rewrite append_cons. auto.
  - right. destruct IH as [Hs | (tok & pre & post & -> & Hb & Ht & Hp)].
    + exists (String c ""), "", s. rewrite append_nil_l, append_cons, append_nil_l.
      split; [reflexivity |]. split; [left; reflexivity |].
      split; [|exact Hs]. split; [discriminate |]. simpl. now rewrite Hc.
    + destruct Hb as [-> | (q & x & -> & Hx)].
      * exists (String c tok), "", post.
        rewrite !append_nil_l, append_cons.
        split; [reflexivity |]. split; [left; reflexivity |].
        split; [|exact Hp]. destruct Ht as [_ Ht].
        split; [discriminate |]. simpl. now rewrite Hc, Ht.
      * exists tok, (String c (q ++ String x "")), post. rewrite append_cons.
        split; [reflexivity |]. split; [|auto].
        right. exists (String c q), x. rewrite append_cons. auto.
Qed.

Lemma trailing_token_unique (line tok1 tok2 : string) :
  trailing_token line tok1 -> trailing_token line tok2 -> tok1 = tok2.
Proof.
  intros H1%trailing_token_last H2%trailing_token_last. congruence.
Qed.

Lemma blank_no_token (line : string) :
  blank line = true -> last_item (split_ws line) = None.
Proof. intros H. now rewrite split_ws_blank. Qed.

End Tokens.

(** ** What the loop remembers *)

Section Store.

Variable log_dir : string.

Lemma store_print m w : store (print m w) = store w.
Proof. reflexivity. Qed.

Lemma store_prints ms w : store (prints ms w) = store w.
Proof.
  unfold prints. revert w. induction ms as [|m ms IH]; intros w; [reflexivity |].
  simpl. now rewrite IH.
Qed.

Lemma store_log_data ok data p w1 w2 :
  store w1 = store w2 ->
  store (log_data ok data p w1) = store (log_data ok data p w2).
Proof. unfold store, log_data. destruct (can_open ok p); simpl; congruence. Qed.

Lemma on_distance_store r data d w1 w2 :
  store w1 = store w2 ->
  store (on_distance log_dir r data d w1) = store (on_distance log_dir r data d w2).
Proof.
  destruct w1 as [c1 d1 l1 f1 o1], w2 as [c2 d2 l2 f2 o2].
  unfold store. simpl. intros H. injection H as -> -> -> ->.
  unfold on_distance. simpl.
  destruct d2 as [last|]; simpl.
  - destruct (feq d zero && fne last zero); simpl;
      destruct (fle d last && fne d last); simpl;
      try destruct (fgt d last); simpl;
      rewrite ?session_file_nonempty;
      try destruct (truthy c2); open_cases; reflexivity.
  - rewrite session_file_nonempty. open_cases; reflexivity.
Qed.

Lemma loop_body_store w1 w2 r :
  store w1 = store w2 ->
  store (loop_body log_dir w1 r) = store (loop_body log_dir w2 r).
Proof.
  intros H. unfold loop_body.
  destruct (String.eqb (strip (raw r)) ""); [exact H |].
  destruct (startswith "Large gap detected" (strip (raw r))).
  { now rewrite !store_print. }
  destruct (startswith "LOST:" (strip (raw r))).
  { destruct (process_lost_line (now_row r) (strip (raw r))) as [msgs [d|]].
    - assert (Hc : current_csv_log (prints msgs (print (MsgRaw (strip (raw r))) w1))
                   = current_csv_log (prints msgs (print (MsgRaw (strip (raw r))) w2))).
      { pose proof (store_prints msgs (print (MsgRaw (strip (raw r))) w1)) as E1.
        pose proof (store_prints msgs (print (MsgRaw (strip (raw r))) w2)) as E2.
        rewrite store_print in E1, E2. unfold store in *. congruence. }
      rewrite Hc. destruct (truthy _).
      + apply store_log_data. now rewrite !store_prints, !store_print.
      + now rewrite !store_print, !store_prints, !store_print.
    - now rewrite !store_print, !store_prints, !store_print. }
  destruct (startswith "DATA," (strip (raw r))); [|exact H].
  destruct (process_data_line (now_row r) (strip (raw r))) as [msgs [data|]].
  - destruct (float_of_str (Distance data)) as [d|].
    + apply on_distance_store. now rewrite !store_prints, !store_print.
    + now rewrite !store_print, !store_prints, !store_print.
  - now rewrite !store_prints, !store_print.
Qed.

Lemma main_loop_store w1 w2 rs :
  store w1 = store w2 ->
  store (main_loop log_dir w1 rs) = store (main_loop log_dir w2 rs).
Proof.
  unfold main_loop. revert w1 w2.
  induction rs as [|r rs IH]; intros w1 w2 H; simpl; [exact H |].
  apply IH. now apply loop_body_store.
Qed.

End Store.

(** C5, as the code has it.  A line that begins with "LOST:" and arrives
    while no log file has been opened is dropped: the iteration prints "No
    CSV log file created yet; LOST event not logged to CSV.", writes
    nothing and remembers nothing, so that every later run is the one the
    loop would have had without that line.  When a log file is open, the
    LOST row is added to that file if the file can be opened; otherwise the
    error is printed and the disk stays as it was. *)
Theorem lost_line_needs_open_session
    (log_dir : string) (fs : gmap string (list (list string)))
    (rs : list reading) (r : reading) :
  let w := main_loop log_dir (initial fs) rs in
  let line := strip (raw r) in
  startswith "LOST:" line = true ->
  let w' := loop_body log_dir w r in
  match current_csv_log w with
  | None =>
      stdout w' = (stdout w ++ [MsgRaw line; MsgNoCsvYet])%list /\
      store w' = store w /\
      forall later,
        store (main_loop log_dir w (r :: later)) = store (main_loop log_dir w later)
  | Some path =>
      exists lost_data,
        process_lost_line (now_row r) line = ([], Some lost_data) /\
        Event lost_data = "LOST" /\
        last_item (split_ws line) = Some (MessageNumber lost_data) /\
        locals w' = locals w /\
        appended (files w) (files w') path
          (if can_open (disk_ok r) path then [lost_data] else []) /\
        stdout w' =
          (stdout w ++ [MsgRaw line;
                        if can_open (disk_ok r) path then MsgLogged lost_data
                        else MsgWriteError])%list
  end.
Proof.
  intros w line H.
  assert (Hbody : loop_body log_dir w r =
            let '(msgs, lost_data) := process_lost_line (now_row r) line in
            let w1 := prints msgs (print (MsgRaw line) w) in
            match lost_data, truthy (current_csv_log w1) with
            | Some d, Some path => log_data (disk_ok r) d path w1
            | _, _ => print MsgNoCsvYet w1
            end).
  { unfold loop_body. fold line. rewrite H.
    apply startswith_spec in H. destruct H as [rest ->]. reflexivity. }
  assert (Htok : exists tok, last_item (split_ws line) = Some tok).
  { apply startswith_spec in H. destruct H as [rest ->].
    destruct (split_ws_nonspace "L" ("OST:" ++ rest) eq_refl) as (x & l & E).
    change (String "L" ("OST:" ++ rest)) with ("LOST:" ++ rest) in E.
    rewrite E. destruct (exists_last (l := x :: l) ltac:(discriminate))
      as (l' & tok & ->).
    exists tok. apply last_item_app. }
  destruct Htok as [tok Htok].
  unfold process_lost_line in *. rewrite Htok in *. cbv zeta.
  destruct (current_csv_log w) as [path|] eqn:Hp.
  - destruct (last_distance w) as [last|] eqn:Hl.
    + destruct (recorded_distance_has_path log_dir w last) as (p & n & Hp' & Hne & _);
        [apply main_loop_inv, initial_inv | exact Hl |].
      rewrite Hp in Hp'. injection Hp' as <-.
      eexists. split; [reflexivity |]. simpl.
      split; [reflexivity |]. split; [reflexivity |].
      rewrite Hbody. simpl. rewrite Hp. simpl. rewrite Hne.
      rewrite locals_log_data, files_log_data_written, stdout_log_data. simpl.
      split; [reflexivity |]. split; [apply appended_written |].
      now rewrite <- app_assoc.
    + pose proof (main_loop_inv log_dir (initial fs) rs (initial_inv log_dir fs)) as Hi.
      fold w in Hi. unfold session_inv in Hi. rewrite Hl in Hi.
      destruct Hi as [Hi _]. congruence.
  - assert (Hdrop : loop_body log_dir w r = print MsgNoCsvYet (print (MsgRaw line) w)).
    { rewrite Hbody. simpl. rewrite Hp. reflexivity. }
    split; [rewrite Hdrop; simpl; now rewrite <- app_assoc |].
    split; [rewrite Hdrop; reflexivity |].
    intros later. rewrite main_loop_cons.
    apply main_loop_store. rewrite Hdrop. reflexivity.
Qed.

Lemma lost_line_needs_open_session_witness :
  let r := at_second 3 "LOST: Packet 9" in
  let rs := [at_second 1 "DATA,512,1,10.00,1,2,-71,9.25,1,0.00"] in
  let path := "/home/pi/lora_data_logs/lora_data_10.00m_2024-05-17_10-30-01.csv" in
  startswith "LOST:" (strip (raw r)) = true /\
  stdout (loop_body pi_logs (initial ∅) r) = [MsgRaw "LOST: Packet 9"; MsgNoCsvYet] /\
  files (loop_body pi_logs (initial ∅) r) = ∅ /\
  files (loop_body pi_logs (main_loop pi_logs (initial ∅) rs) r) !! path =
    Some [CSV_HEADERS;
          ["2024-05-17 10:30:01"; "DATA"; "1"; "10.00"; "1"; "2"; "-71"; "9.25"; "1"; "0.00"];
          ["2024-05-17 10:30:03"; "LOST"; "9"; ""; ""; ""; ""; ""; ""; ""]].
Proof.
  split; [reflexivity |].
  pose proof (lost_line_needs_open_session pi_logs ∅ []
                (at_second 3 "LOST: Packet 9") eq_refl) as H0.
  cbv zeta in H0.
  change (current_csv_log (main_loop pi_logs (initial ∅) [])) with (@None string) in H0.
  destruct H0 as (Hout & Hstore & _).
  split; [exact Hout |]. split.
  - apply (f_equal snd) in Hstore. exact Hstore.
  - pose proof (lost_line_needs_open_session pi_logs ∅
                  [at_second 1 "DATA,512,1,10.00,1,2,-71,9.25,1,0.00"]
                  (at_second 3 "LOST: Packet 9") eq_refl) as H.
    cbv zeta in H.
    destruct (current_csv_log _) as [path|] eqn:Hp in H; [|vm_compute in Hp; discriminate].
    destruct H as (lost_data & Hl & _ & _ & _ & [Hf _] & _).
    cbv zeta.
    vm_compute in Hp. injection Hp as <-.
    vm_compute in Hl. injection Hl as <-.
    rewrite Hf. vm_compute. reflexivity.
Defined.

(** C5 as stated fails: after a reading of 1e300, whose session file has a
    name of 339 characters, a session is open but its file cannot be
    opened, whatever the disk holds; the LOST line that follows is
    recorded nowhere. *)
Lemma lost_line_not_recorded_counterexample :
  ~ (forall (log_dir : string) (fs : gmap string (list (list string)))
            (rs : list reading) (r : reading) (path : string),
       let w := main_loop log_dir (initial fs) rs in
       disk_ok r = true ->
       startswith "LOST:" (strip (raw r)) = true ->
       current_csv_log w = Some path ->
       exists content line,
         files (loop_body log_dir w r) !! path = Some content /\
         last content = Some line /\ line !! 1%nat = Some "LOST").
Proof.
  intros H.
  destruct (H pi_logs ∅ [at_second 1 "DATA,512,1,1e300,1,2,-71,9.25,1,0.00"]
              (at_second 3 "LOST: Packet 9")
              (session_file pi_logs (the_float "1e300") (clock 1))
              eq_refl eq_refl ltac:(vm_compute; reflexivity))
    as (content & line & Hf & _).
  vm_compute in Hf. discriminate Hf.
Qed.

(** Every DATA reading that reaches [on_distance] in a reachable world is
    handed to [log_data], with at most its [Lost] field replaced. *)
Lemma on_distance_logs log_dir r data d w :
  session_inv log_dir w ->
  exists v path w0,
    on_distance log_dir r data d w =
      log_data (disk_ok r) (set_Lost v data) path w0 /\
    files w0 = files w /\ current_csv_log w0 = Some path.
Proof.
  intros Hi. destruct (last_distance w) as [last|] eqn:Hl.
  - destruct (fgt d last) eqn:Hgt.
    + destruct (on_distance_higher log_dir r data d w last Hl Hgt) as (v & w0 & E & F & _).
      exists v, (session_file log_dir d (now_file r)). eexists.
      split; [exact E |]. split; [exact F | reflexivity].
    + destruct (recorded_distance_has_path log_dir w last Hi Hl) as (p & n & Hp & Hne & _).
      destruct (on_distance_not_higher log_dir r data d w last p Hl Hp Hne Hgt)
        as (v & w0 & E & F & C & _).
      exists v, p, w0. split; [exact E |]. split; [exact F | exact C].
  - exists (Lost data), (session_file log_dir d (now_file r)). eexists.
    rewrite on_distance_first by exact Hl.
    replace (set_Lost (Lost data) data) with data by (now destruct data).
    split; [reflexivity |]. split; reflexivity.
Qed.

(** ** The normaliser *)

Section Normaliser.

Lemma rstrip_empty_head (c : ascii) (t : string) :
  rstrip (String c t) = "" -> isspace c = true.
Proof.
  simpl. destruct (rstrip t); [|discriminate].
  destruct (isspace c); [reflexivity | discriminate].
Qed.

Lemma float_rstrip_head (c : ascii) (t : string) :
  float_rstrip (String c t) = "" \/
  exists t', float_rstrip (String c t) = String c t'.
Proof.
  simpl. destruct (float_rstrip t); [destruct (float_space c) |]; eauto.
Qed.

Lemma float_rstrip_keeps_head (c : ascii) (t : string) :
  float_space c = false -> exists t', float_rstrip (String c t) = String c t'.
Proof.
  intros H. simpl. rewrite H. destruct (float_rstrip t); eauto.
Qed.

(** [float] rejects a text that, once its own whitespace is skipped, still
    begins with a character [str.strip] removes. *)
Lemma float_of_str_space_head (text : string) (c : ascii) (t : string) :
  float_rstrip (float_lstrip text) = String c t ->
  isspace c = true -> float_of_str text = None.
Proof.
  intros E Hc. unfold float_of_str. rewrite E.
  destruct c as [[] [] [] [] [] [] [] []];
    try (vm_compute in Hc; discriminate Hc); reflexivity.
Qed.

(** ... and a text in which such a character follows the digit 0. *)
Lemma float_of_str_zero_space (text : string) (c : ascii) (t : string) :
  float_rstrip (float_lstrip text) = String "0" (String c t) ->
  isspace c = true -> float_of_str text = None.
Proof.
  intros E Hc. unfold float_of_str. rewrite E.
  destruct c as [[] [] [] [] [] [] [] []];
    try (vm_compute in Hc; discriminate Hc); reflexivity.
Qed.

Lemma float_strip_zero (t : string) :
  float_rstrip (float_lstrip (String "0" t)) =
    match float_rstrip t with
    | EmptyString => "0"
    | String a r => String "0" (String a r)
    end.
Proof. reflexivity. Qed.

(** A text that [str.strip] reduces to "0" converts to 0.0 or not at all. *)
Lemma stripped_zero_float (text : string) :
  strip text = "0" -> float_of_str text = None \/ float_of_str text = Some zero.
Proof.
  unfold strip. induction text as [|c t IH]; [discriminate |].
  cbn [lstrip]. destruct (isspace c) eqn:Hs.
  - intros H. destruct (float_space c) eqn:Hf.
    + replace (float_of_str (String c t)) with (float_of_str t).
      * exact (IH H).
      * unfold float_of_str. cbn [float_lstrip]. now rewrite Hf.
    + left. destruct (float_rstrip_keeps_head c t Hf) as [t' E].
      apply (float_of_str_space_head _ c t'); [|exact Hs].
      cbn [float_lstrip]. rewrite Hf. exact E.
  - cbn [rstrip]. intros H.
    assert (Hc : c = "0"%char /\ rstrip t = "").
    { destruct (rstrip t); [|discriminate H].
      rewrite Hs in H. injection H as ->. auto. }
    destruct Hc as [-> Ht]. clear H Hs IH.
    destruct t as [|c' t'']; [right; reflexivity |].
    pose proof (rstrip_empty_head c' t'' Ht) as Hc'.
    destruct (float_rstrip_head c' t'') as [E | [t' E]].
    + right. unfold float_of_str. rewrite float_strip_zero, E. reflexivity.
    + left. apply (float_of_str_zero_space _ c' t'); [|exact Hc'].
      rewrite float_strip_zero, E. reflexivity.
Qed.

End Normaliser.

(** C6, as the code has it.  [process_data_line] replaces [TotalPackets]
    by [Received] exactly when the field, stripped of surrounding
    whitespace, is the text "0"; every other text passes through unchanged,
    in particular every text that converts to a number other than 0.  The
    row the loop then hands to [log_data] carries that [TotalPackets] and
    [Received], and is added to the open file when the file can be
    opened. *)
Theorem total_packets_zero_text_replaced
    (log_dir : string) (fs : gmap string (list (list string)))
    (rs : list reading) (r : reading) (data : row) (d : float) :
  let w := main_loop log_dir (initial fs) rs in
  let parts := split "," (strip (raw r)) in
  data_reading r data d ->
  Received data = nth 4 parts "" /\
  TotalPackets data =
    (if String.eqb (strip (nth 8 parts "")) "0" then nth 4 parts "" else nth 8 parts "") /\
  (forall x, float_of_str (nth 8 parts "") = Some x -> feq x zero = false ->
             TotalPackets data = nth 8 parts "") /\
  exists path logged,
    TotalPackets logged = TotalPackets data /\
    Received logged = Received data /\
    current_csv_log (loop_body log_dir w r) = Some path /\
    appended (files w) (files (loop_body log_dir w r)) path
      (if can_open (disk_ok r) path then [logged] else []).
Proof.
  intros w parts Hr.
  assert (Hfields : Received data = nth 4 parts "" /\
            TotalPackets data =
              (if String.eqb (strip (nth 8 parts "")) "0"
               then nth 4 parts "" else nth 8 parts "")).
  { destruct Hr as (_ & Hp & _). unfold process_data_line in Hp. fold parts in Hp.
    destruct (length parts <? 10)%nat; [discriminate |].
    simpl in Hp.
    destruct (String.eqb (strip (nth 8 parts "")) "0");
      injection Hp as <-; split; reflexivity. }
  destruct Hfields as [HR HT].
  split; [exact HR |]. split; [exact HT |]. split.
  - intros x Hx Hnz. rewrite HT.
    destruct (String.eqb (strip (nth 8 parts "")) "0") eqn:E; [|reflexivity].
    apply String.eqb_eq in E.
    destruct (stripped_zero_float _ E) as [Hn | Hz]; rewrite Hx in *.
    + discriminate Hn.
    + injection Hz as ->. discriminate Hnz.
  - assert (Hi : session_inv log_dir (print (MsgRaw (strip (raw r))) w)).
    { eapply session_inv_locals; [|apply main_loop_inv, initial_inv]. reflexivity. }
    rewrite (loop_body_data log_dir w r data d Hr).
    destruct (on_distance_logs log_dir r data d (print (MsgRaw (strip (raw r))) w) Hi)
      as (v & path & w0 & E & F & C).
    rewrite E. exists path, (set_Lost v data).
    split; [reflexivity |]. split; [reflexivity |].
    rewrite files_log_data_written, F, current_log_data. simpl.
    split; [exact C | apply appended_written].
Qed.

Lemma total_packets_zero_text_replaced_witness :
  let r := at_second 5 "DATA,900,4,10.00,4,1,-71,9.25, 0 ,0.00" in
  data_reading r (the_row r) (the_float "10.00") /\
  Received (the_row r) = "4" /\
  TotalPackets (the_row r) = "4" /\
  files (loop_body pi_logs (initial ∅) r) !!
    "/home/pi/lora_data_logs/lora_data_10.00m_2024-05-17_10-30-05.csv" =
    Some [CSV_HEADERS;
          ["2024-05-17 10:30:05"; "DATA"; "4"; "10.00"; "4"; "1"; "-71"; "9.25"; "4"; "0.00"]].
Proof.
  assert (Hr : data_reading (at_second 5 "DATA,900,4,10.00,4,1,-71,9.25, 0 ,0.00")
                 (the_row (at_second 5 "DATA,900,4,10.00,4,1,-71,9.25, 0 ,0.00"))
                 (the_float "10.00")).
  { repeat split; vm_compute; reflexivity. }
  split; [exact Hr |].
  destruct (total_packets_zero_text_replaced pi_logs ∅ [] _ _ _ Hr)
    as (H1 & H2 & _ & path & logged & _ & _ & Hp & _).
  split; [rewrite H1; vm_compute; reflexivity |].
  split; [rewrite H2; vm_compute; reflexivity |].
  vm_compute. reflexivity.
Defined.

(** C6 as stated fails: the field "00" parses to exactly 0, yet the row
    keeps "00" in [TotalPackets] while [Received] is "4". *)
Lemma total_packets_parsing_to_zero_counterexample :
  ~ (forall (now : datetime) (line : string) (data : row),
       process_data_line now line = ([], Some data) ->
       parses_to_zero (nth 8 (split "," line) "") = true ->
       TotalPackets data = Received data).
Proof.
  intros H.
  specialize (H (clock 5) "DATA,900,4,10.00,4,1,-71,9.25,00,0.00"
                (the_row (at_second 5 "DATA,900,4,10.00,4,1,-71,9.25,00,0.00"))
                eq_refl eq_refl).
  vm_compute in H. discriminate H.
Qed.

(** C9. A line that begins with "LOST:" has a trailing whitespace-delimited
    token, and [process_lost_line] returns the LOST row that carries it as
    [MessageNumber]; that token is the only trailing token of the line.  On
    a text without any token the function prints its error and returns
    [None]. *)
Theorem lost_line_carries_last_token (now : datetime) (line : string) :
  startswith "LOST:" line = true ->
  (exists tok,
     trailing_token line tok /\
     process_lost_line now line = ([], Some (lost_row now tok)) /\
     forall tok', trailing_token line tok' -> tok' = tok) /\
  (forall text,
     blank text = true -> process_lost_line now text = ([MsgLostError], None)).
Proof.
  intros H. split.
  - destruct (blank_or_trailing_token line) as [Hb | [tok Ht]].
    + apply startswith_spec in H. destruct H as [rest ->]. discriminate Hb.
    + exists tok. split; [exact Ht |]. split.
      * unfold process_lost_line. now rewrite (trailing_token_last line tok Ht).
      * intros tok' Ht'. exact (trailing_token_unique line tok' tok Ht' Ht).
  - intros text Hb. unfold process_lost_line. now rewrite blank_no_token.
Qed.

Lemma lost_line_carries_last_token_witness :
  startswith "LOST:" "LOST: Packet 9" = true /\
  process_lost_line (clock 3) "LOST: Packet 9" = ([], Some (lost_row (clock 3) "9")) /\
  process_lost_line (clock 3) "   " = ([MsgLostError], None).
Proof.
  split; [reflexivity |].
  destruct (lost_line_carries_last_token (clock 3) "LOST: Packet 9" eq_refl)
    as [(tok & Ht & Hp & _) Hblank].
  split.
  - rewrite Hp. apply trailing_token_last in Ht. vm_compute in Ht.
    injection Ht as <-. reflexivity.
  - apply Hblank. reflexivity.
Defined.

(** ** The scenario 10.0, 10.0, 0.0, 15.0 *)

Section Scenario.

Variable log_dir : string.

Lemma on_distance_same r data d w path :
  last_distance w = Some d -> current_csv_log w = Some path ->
  String.eqb path "" = false ->
  feq d zero = false -> feq d d = true ->
  on_distance log_dir r data d w =
    log_data (disk_ok r) data path (set_last_lost (lost_count (Lost data)) w).
Proof.
  intros Hl Hp Hne Hz Hd. unfold on_distance. rewrite Hl, Hz.
  simpl. rewrite Hl. unfold fne, fgt, fle, feq in *.
  destruct (fcompare d d) as [[]|]; try discriminate Hd.
  simpl. rewrite Hp. simpl. now rewrite Hne.
Qed.

Lemma on_distance_above r data d w last :
  last_distance w = Some last ->
  feq d zero = false -> fgt d last = true ->
  on_distance log_dir r data d w =
    let path := session_file log_dir d (now_file r) in
    log_data (disk_ok r) data path
      (print (MsgNewDistance d path)
         (open_session d path (set_last_lost (lost_count (Lost data)) w))).
Proof.
  intros Hl Hz Hgt. unfold on_distance. rewrite Hl, Hz.
  simpl. rewrite Hl, (fgt_not_fle _ _ Hgt), Hgt.
  simpl. now rewrite session_file_nonempty.
Qed.

Lemma ten_fifteen_files_differ (t1 t4 : datetime) :
  session_file log_dir ten t1 <> session_file log_dir fifteen t4.
Proof.
  rewrite !session_file_eq. intros H%append_inv_head.
  unfold session_name in H.
  replace (format_2f ten) with "10.00" in H by (vm_compute; reflexivity).
  replace (format_2f fifteen) with "15.00" in H by (vm_compute; reflexivity).
  rewrite !append_cons in H. discriminate H.
Qed.

End Scenario.

(** C4. The readings 10.0, 10.0, 0.0, 15.0 from the initial state open
    exactly two session files, one named after 10.00 and one after 15.00;
    the first three rows go to the first file, the row of the 0.0 reading
    with the lost count of the second 10.0 reading in [Lost], and the last
    row goes to the second file.  [written] is [write_row] when the file
    can be opened in the pass of the reading, and leaves the disk as it is
    otherwise; when the disk lets the two files be opened, the four rows
    are written (last conjunct). *)
Theorem scenario_two_sessions
    (log_dir : string) (fs : gmap string (list (list string)))
    (r1 r2 r3 r4 : reading) (data1 data2 data3 data4 : row) :
  data_reading r1 data1 ten ->
  data_reading r2 data2 ten ->
  data_reading r3 data3 zero ->
  data_reading r4 data4 fifteen ->
  let w := main_loop log_dir (initial fs) [r1; r2; r3; r4] in
  let p10 := session_file log_dir ten (now_file r1) in
  let p15 := session_file log_dir fifteen (now_file r4) in
  let row3 := set_Lost (str_of_int (lost_count (Lost data2))) data3 in
  opened (stdout w) = [p10; p15] /\
  p10 <> p15 /\
  format_2f ten = "10.00" /\ format_2f fifteen = "15.00" /\
  files w =
    written r4 data4 p15
      (written r3 row3 p10 (written r2 data2 p10 (written r1 data1 p10 fs))) /\
  Distance row3 = Distance data3 /\
  current_csv_log w = Some p15 /\
  (can_open (disk_ok r1) p10 = true ->
   can_open (disk_ok r2) p10 = true ->
   can_open (disk_ok r3) p10 = true ->
   can_open (disk_ok r4) p15 = true ->
   files w =
     write_row data4 p15
       (write_row row3 p10 (write_row data2 p10 (write_row data1 p10 fs)))).
Proof.
  intros H1 H2 H3 H4. cbv zeta.
  unfold main_loop. simpl fold_left.
  rewrite (loop_body_data log_dir _ r1 data1 ten H1).
  rewrite on_distance_first by reflexivity. cbv zeta.
  rewrite (loop_body_data log_dir _ r2 data2 ten H2).
  rewrite (on_distance_same log_dir r2 data2 ten _
             (session_file log_dir ten (now_file r1)));
    [ | through_log; reflexivity | through_log; reflexivity
      | apply session_file_nonempty | vm_compute; reflexivity | vm_compute; reflexivity ].
  rewrite (loop_body_data log_dir _ r3 data3 zero H3).
  rewrite (on_distance_transient log_dir r3 data3 zero _ ten
             (session_file log_dir ten (now_file r1)));
    [ | through_log; reflexivity | through_log; reflexivity
      | apply session_file_nonempty | vm_compute; reflexivity | vm_compute; reflexivity ].
  cbv zeta.
  rewrite (loop_body_data log_dir _ r4 data4 fifteen H4).
  rewrite (on_distance_above log_dir r4 data4 fifteen _ ten);
    [ | through_log; reflexivity | vm_compute; reflexivity | vm_compute; reflexivity ].
  cbv zeta.
  repeat (through_log; rewrite ?files_log_data_written, ?stdout_log_data).
  split.
  { rewrite !opened_app.
    repeat match goal with
           | |- context [can_open ?ok ?p] => destruct (can_open ok p)
           end; reflexivity. }
  split; [apply ten_fifteen_files_differ |].
  split; [vm_compute; reflexivity |].
  split; [vm_compute; reflexivity |].
  split; [reflexivity |]. split; [reflexivity |]. split; [reflexivity |].
  intros O1 O2 O3 O4. unfold written. now rewrite O1, O2, O3, O4.
Qed.

Lemma scenario_two_sessions_witness :
  let r1 := at_second 1 "DATA,512,1,10.0,1,0,-71,9.25,1,0.00" in
  let r2 := at_second 2 "DATA,640,2,10.0,2,3,-72,9.00,5,60.00" in
  let r3 := at_second 3 "DATA,768,3,0.0,3,8,-70,8.75,6,50.00" in
  let r4 := at_second 4 "DATA,896,4,15.0,4,3,-80,7.50,7,42.86" in
  let w := main_loop pi_logs (initial ∅) [r1; r2; r3; r4] in
  let p10 := "/home/pi/lora_data_logs/lora_data_10.00m_2024-05-17_10-30-01.csv" in
  let p15 := "/home/pi/lora_data_logs/lora_data_15.00m_2024-05-17_10-30-04.csv" in
  data_reading r1 (the_row r1) ten /\
  data_reading r2 (the_row r2) ten /\
  data_reading r3 (the_row r3) zero /\
  data_reading r4 (the_row r4) fifteen /\
  opened (stdout w) = [p10; p15] /\
  files w !! p10 =
    Some [CSV_HEADERS;
          ["2024-05-17 10:30:01"; "DATA"; "1"; "10.0"; "1"; "0"; "-71"; "9.25"; "1"; "0.00"];
          ["2024-05-17 10:30:02"; "DATA"; "2"; "10.0"; "2"; "3"; "-72"; "9.00"; "5"; "60.00"];
          ["2024-05-17 10:30:03"; "DATA"; "3"; "0.0"; "3"; "3"; "-70"; "8.75"; "6"; "50.00"]] /\
  files w !! p15 =
    Some [CSV_HEADERS;
          ["2024-05-17 10:30:04"; "DATA"; "4"; "15.0"; "4"; "3"; "-80"; "7.50"; "7"; "42.86"]].
Proof.
  assert (H1 : data_reading (at_second 1 "DATA,512,1,10.0,1,0,-71,9.25,1,0.00")
                 (the_row (at_second 1 "DATA,512,1,10.0,1,0,-71,9.25,1,0.00")) ten)
    by (repeat split; vm_compute; reflexivity).
  assert (H2 : data_reading (at_second 2 "DATA,640,2,10.0,2,3,-72,9.00,5,60.00")
                 (the_row (at_second 2 "DATA,640,2,10.0,2,3,-72,9.00,5,60.00")) ten)
    by (repeat split; vm_compute; reflexivity).
  assert (H3 : data_reading (at_second 3 "DATA,768,3,0.0,3,8,-70,8.75,6,50.00")
                 (the_row (at_second 3 "DATA,768,3,0.0,3,8,-70,8.75,6,50.00")) zero)
    by (repeat split; vm_compute; reflexivity).
  assert (H4 : data_reading (at_second 4 "DATA,896,4,15.0,4,3,-80,7.50,7,42.86")
                 (the_row (at_second 4 "DATA,896,4,15.0,4,3,-80,7.50,7,42.86")) fifteen)
    by (repeat split; vm_compute; reflexivity).
  split; [exact H1 |]. split; [exact H2 |]. split; [exact H3 |]. split; [exact H4 |].
  destruct (scenario_two_sessions pi_logs ∅ _ _ _ _ _ _ _ _ H1 H2 H3 H4)
    as (Ho & _ & _ & _ & _ & _ & _ & Hf).
  split; [rewrite Ho; vm_compute; reflexivity |].
  split; rewrite Hf by (vm_compute; reflexivity); vm_compute; reflexivity.
Defined.

(** ** Sequences of readings *)

Section Sequences.

Variable log_dir : string.



End Sequences.




(** ** Names of session files *)

Section Names.

Lemma all_chars_app (P : ascii -> bool) (a b : string) :
  all_chars P (a ++ b) = all_chars P a && all_chars P b.
Proof.
  induction a as [|c a IH]; [reflexivity |].
  rewrite append_cons. simpl. rewrite IH. apply andb_assoc.
Qed.

Lemma all_chars_impl (P Q : ascii -> bool) (s : string) :
  (forall c, P c = true -> Q c = true) ->
  all_chars P s = true -> all_chars Q s = true.
Proof.
  intros HPQ. induction s as [|c s IH]; [reflexivity |]. simpl.
  intros [Hc Hs]%andb_true_iff. rewrite (HPQ c Hc). auto.
Qed.

Lemma uint_digits (u : Decimal.uint) :
  all_chars is_digit (NilEmpty.string_of_uint u) = true.
Proof. induction u; simpl; auto. Qed.

Lemma str_of_nat_digits (n : N) : all_chars is_digit (str_of_nat n) = true.
Proof.
  unfold str_of_nat, NilZero.string_of_uint.
  destruct (N.to_uint n) eqn:E; try (rewrite <- E; apply uint_digits).
  reflexivity.
Qed.

Lemma digit_char_digit (d : N) : (d < 10)%N -> is_digit (digit_char d) = true.
Proof.
  intros H.
  assert (Hd : (d = 0 \/ d = 1 \/ d = 2 \/ d = 3 \/ d = 4 \/ d = 5 \/ d = 6 \/
                d = 7 \/ d = 8 \/ d = 9)%N) by lia.
  repeat (destruct Hd as [-> | Hd]; [reflexivity |]). subst. reflexivity.
Qed.

Lemma format_2f_chars (d : float) : all_chars format_char (format_2f d) = true.
Proof.
  destruct d as [|[]|s u]; try reflexivity.
  unfold format_2f.
  set (h := Z.to_N (round_half_even (100 * Z.of_N u) (2 ^ unit_exp))).
  rewrite !all_chars_app.
  assert (Hd : forall c, is_digit c = true -> format_char c = true).
  { intros c Hc. unfold format_char. now rewrite Hc. }
  rewrite (all_chars_impl _ _ _ Hd (str_of_nat_digits _)).
  simpl.
  rewrite (Hd _ (digit_char_digit (h mod 100 / 10) ltac:(
              apply N.Div0.div_lt_upper_bound;
              pose proof (N.mod_upper_bound h 100); lia))).
  rewrite (Hd _ (digit_char_digit (h mod 10) ltac:(
              pose proof (N.mod_upper_bound h 10); lia))).
  destruct s; reflexivity.
Qed.

Lemma format_2f_no_m (d : float) :
  all_chars (fun c => negb (Ascii.eqb c "m")) (format_2f d) = true.
Proof.
  apply (all_chars_impl format_char); [|apply format_2f_chars].
  intros c Hc. destruct (Ascii.eqb_spec c "m") as [->|]; [discriminate Hc | reflexivity].
Qed.

(** Two texts cut at the first occurrence of a character. *)
Lemma cut_at_first (c : ascii) (a a' b b' : string) :
  all_chars (fun x => negb (Ascii.eqb x c)) a = true ->
  all_chars (fun x => negb (Ascii.eqb x c)) a' = true ->
  a ++ String c b = a' ++ String c b' -> a = a' /\ b = b'.
Proof.
  revert a'. induction a as [|x a IH]; intros [|y a'] Ha Ha' H.
  - rewrite !append_nil_l in H. injection H as ->. auto.
  - rewrite append_nil_l, append_cons in H. injection H as <- _.
    simpl in Ha'. rewrite Ascii.eqb_refl in Ha'. discriminate.
  - rewrite append_nil_l, append_cons in H. injection H as -> _.
    simpl in Ha. rewrite Ascii.eqb_refl in Ha. discriminate.
  - rewrite !append_cons in H. injection H as -> H.
    simpl in Ha, Ha'. apply andb_true_iff in Ha as [_ Ha].
    apply andb_true_iff in Ha' as [_ Ha'].
    destruct (IH a' Ha Ha' H) as [-> ->]. auto.
Qed.

(** The file name determines the two-decimal text of the distance and the
    text of the time stamp. *)
Lemma session_file_inj (log_dir : string) (d1 d2 : float) (t1 t2 : datetime) :
  session_file log_dir d1 t1 = session_file log_dir d2 t2 ->
  format_2f d1 = format_2f d2 /\ strftime "_" "-" t1 = strftime "_" "-" t2.
Proof.
  rewrite !session_file_eq. intros H%append_inv_head.
  unfold session_name in H. apply append_inv_head in H.
  change ("m_" ++ strftime "_" "-" t1 ++ ".csv")
    with (String "m" ("_" ++ strftime "_" "-" t1 ++ ".csv")) in H.
  change ("m_" ++ strftime "_" "-" t2 ++ ".csv")
    with (String "m" ("_" ++ strftime "_" "-" t2 ++ ".csv")) in H.
  apply cut_at_first in H; try apply format_2f_no_m.
  destruct H as [Hf Ht]. split; [exact Hf |].
  apply append_inv_head in Ht. now apply append_inv_tail in Ht.
Qed.

End Names.

(** ** Strictly increasing distances *)

Section Increasing.

Variable log_dir : string.

Lemma session_of_inj (o1 o2 : observed) :
  session_of log_dir o1 = session_of log_dir o2 -> session_key o1 = session_key o2.
Proof.
  unfold session_of, session_key. intros [H1 H2]%session_file_inj. congruence.
Qed.

Lemma last_map {A B} (f : A -> B) (l : list A) :
  last (map f l) = option_map f (last l).
Proof.
  induction l as [|x l IH]; [reflexivity |].
  destruct l as [|y l]; [reflexivity | exact IH].
Qed.

Lemma increasing_snoc (ds : list float) (d : float) :
  increasing (ds ++ [d])%list ->
  increasing ds /\
  match last ds with Some d' => fgt d d' = true | None => True end.
Proof.
  induction ds as [|d1 ds IH]; [simpl; auto |].
  destruct ds as [|d2 ds].
  - simpl. tauto.
  - intros [H12 H]. specialize (IH H). destruct IH as [IH1 IH2].
    split; [split; assumption | exact IH2].
Qed.

(** After a run of well-formed readings with increasing distances, every
    reading has opened its own session, and the last one is the open one. *)
Lemma run_increasing fs (os : list observed) :
  Forall well_formed os ->
  increasing (map distance_of os) ->
  let w := main_loop log_dir (initial fs) (map reading_of os) in
  opened (stdout w) = map (session_of log_dir) os /\
  match last os with
  | Some o =>
      last_distance w = Some (distance_of o) /\
      current_csv_log w = Some (session_of log_dir o)
  | None => last_distance w = None
  end.
Proof.
  induction os as [|o os IH] using rev_ind; intros Hwf Hinc; [split; reflexivity |].
  apply Forall_app in Hwf as [Hwf Ho]. inversion Ho as [|? ? Ho' _]; subst.
  rewrite map_app in Hinc. simpl in Hinc.
  apply increasing_snoc in Hinc as [Hinc Hlast].
  specialize (IH Hwf Hinc). cbv zeta in IH. destruct IH as [IHo IHl].
  cbv zeta. rewrite map_app, main_loop_app. simpl map.
  set (w0 := main_loop log_dir (initial fs) (map reading_of os)) in *.
  rewrite main_loop_cons, main_loop_nil.
  rewrite last_snoc.
  rewrite (loop_body_data log_dir w0 _ _ _ Ho').
  destruct (last os) as [o'|] eqn:El.
  - destruct IHl as [IHd IHc].
    assert (Hgt : fgt (distance_of o) (distance_of o') = true).
    { rewrite last_map, El in Hlast. exact Hlast. }
    destruct (on_distance_higher log_dir (reading_of o) (snd (fst o)) (distance_of o)
                (print (MsgRaw (strip (raw (reading_of o)))) w0)
                (distance_of o') IHd Hgt) as (v & w1 & E & _ & Ho1).
    rewrite E. cbv zeta. through_log. rewrite stdout_log_data. simpl stdout.
    split; [|split; reflexivity].
    rewrite !opened_app, Ho1. simpl stdout. rewrite opened_app, IHo, map_app.
    destruct (can_open _ _); simpl; now rewrite !app_nil_r.
  - rewrite on_distance_first by exact IHl. cbv zeta.
    through_log. rewrite stdout_log_data. simpl stdout.
    split; [|split; reflexivity].
    rewrite !opened_app, IHo, map_app.
    destruct (can_open _ _); simpl; now rewrite !app_nil_r.
Qed.

End Increasing.

(** C1, as the code has it.  In a run of well-formed DATA readings with
    strictly increasing distances, every reading opens the session file
    named after its distance (to two decimals) and the clock (to the
    second) and becomes the recorded distance, whatever the other readings
    are.  When no two readings of the run agree in both the two-decimal
    distance and the second, the file it opens is none of the files opened
    before. *)
Theorem increasing_readings_open_sessions
    (log_dir : string) (fs : gmap string (list (list string)))
    (pre : list observed) (o : observed) :
  Forall well_formed (pre ++ [o])%list ->
  increasing (map distance_of (pre ++ [o])%list) ->
  let w0 := main_loop log_dir (initial fs) (map reading_of pre) in
  let w := loop_body log_dir w0 (reading_of o) in
  opened (stdout w0) = map (session_of log_dir) pre /\
  opened (stdout w) = (opened (stdout w0) ++ [session_of log_dir o])%list /\
  current_csv_log w = Some (session_of log_dir o) /\
  last_distance w = Some (distance_of o) /\
  (NoDup (map session_key (pre ++ [o])%list) ->
   session_of log_dir o ∉ opened (stdout w0)).
Proof.
  intros Hwf Hinc. cbv zeta.
  pose proof (run_increasing log_dir fs (pre ++ [o])%list Hwf Hinc) as H.
  cbv zeta in H. rewrite map_app, main_loop_app, last_snoc in H. simpl map in H.
  rewrite main_loop_cons, main_loop_nil in H.
  destruct H as (Ho & Hd & Hc).
  assert (Hpre : opened (stdout (main_loop log_dir (initial fs) (map reading_of pre)))
                 = map (session_of log_dir) pre).
  { apply run_increasing.
    - now apply Forall_app in Hwf as [Hwf _].
    - rewrite map_app in Hinc. now apply increasing_snoc in Hinc as [Hinc _]. }
  split; [exact Hpre |]. split; [now rewrite Ho, Hpre, map_app |].
  split; [exact Hc |]. split; [exact Hd |].
  rewrite Hpre. intros Hkeys Hin.
  apply list_elem_of_fmap in Hin as (o' & Heq & Hin).
  rewrite map_app in Hkeys. apply NoDup_app in Hkeys as (_ & Hkeys & _).
  apply (Hkeys (session_key o')).
  - apply list_elem_of_fmap. eauto.
  - rewrite <- (session_of_inj log_dir o o' Heq). simpl. left.
Qed.

Lemma increasing_readings_open_sessions_witness :
  let o1 := observe (at_second 1 "DATA,512,1,10.0,1,0,-71,9.25,1,0.00") in
  let o2 := observe (at_second 2 "DATA,640,2,12.5,2,0,-75,8.50,2,0.00") in
  let o3 := observe (at_second 3 "DATA,768,3,15.0,3,1,-80,7.50,4,25.00") in
  let w0 := main_loop pi_logs (initial ∅) (map reading_of [o1; o2]) in
  let w := loop_body pi_logs w0 (reading_of o3) in
  Forall well_formed [o1; o2; o3] /\
  increasing (map distance_of [o1; o2; o3]) /\
  NoDup (map session_key [o1; o2; o3]) /\
  opened (stdout w) =
    ["/home/pi/lora_data_logs/lora_data_10.00m_2024-05-17_10-30-01.csv";
     "/home/pi/lora_data_logs/lora_data_12.50m_2024-05-17_10-30-02.csv";
     "/home/pi/lora_data_logs/lora_data_15.00m_2024-05-17_10-30-03.csv"] /\
  last_distance w = Some (the_float "15.0") /\
  session_of pi_logs o3 ∉ opened (stdout w0).
Proof.
  set (o1 := observe (at_second 1 "DATA,512,1,10.0,1,0,-71,9.25,1,0.00")).
  set (o2 := observe (at_second 2 "DATA,640,2,12.5,2,0,-75,8.50,2,0.00")).
  set (o3 := observe (at_second 3 "DATA,768,3,15.0,3,1,-80,7.50,4,25.00")).
  assert (Hwf : Forall well_formed ([o1; o2] ++ [o3])%list).
  { repeat constructor; vm_compute; reflexivity. }
  assert (Hinc : increasing (map distance_of ([o1; o2] ++ [o3])%list)).
  { simpl. repeat split; vm_compute; reflexivity. }
  assert (Hkeys : NoDup (map session_key ([o1; o2] ++ [o3])%list)).
  { apply (bool_decide_unpack _). vm_compute. exact I. }
  split; [exact Hwf |]. split; [exact Hinc |]. split; [exact Hkeys |].
  destruct (increasing_readings_open_sessions pi_logs ∅ [o1; o2] o3 Hwf Hinc)
    as (H1 & H2 & _ & H4 & H5).
  cbv zeta. split; [|split].
  - rewrite H2, H1. vm_compute. reflexivity.
  - rewrite H4. vm_compute. reflexivity.
  - exact (H5 Hkeys).
Defined.

(** C1 as stated fails: the readings 10.001 and 10.002, taken within the
    same second, have increasing distances, yet the second one "opens" the
    file the first one opened, [lora_data_10.00m_2024-05-17_10-30-01.csv]. *)
Lemma increasing_readings_same_file_counterexample :
  ~ (forall (log_dir : string) (fs : gmap string (list (list string)))
            (pre : list observed) (o : observed),
       Forall well_formed (pre ++ [o])%list ->
       increasing (map distance_of (pre ++ [o])%list) ->
       session_of log_dir o ∉
         opened (stdout (main_loop log_dir (initial fs) (map reading_of pre)))).
Proof.
  intros H.
  apply (H pi_logs ∅
           [observe (at_second 1 "DATA,512,1,10.001,1,0,-71,9.25,1,0.00")]
           (observe (at_second 1 "DATA,513,2,10.002,2,0,-71,9.25,2,0.00"))).
  - repeat constructor; vm_compute; reflexivity.
  - simpl. repeat split; vm_compute; reflexivity.
  - vm_compute. left.
Qed.

(** ** Decimal texts and time stamps *)

Section Decimal.

Lemma dec_value_uint_acc (u : Decimal.uint) (acc : positive) :
  dec_value_acc (N.pos acc) (NilEmpty.string_of_uint u) = N.pos (Pos.of_uint_acc u acc).
Proof.
  revert acc. induction u; intros acc; simpl; [reflexivity | ..];
    rewrite <- IHu; f_equal; lia.
Qed.

Lemma dec_value_uint (u : Decimal.uint) :
  dec_value_acc 0 (NilEmpty.string_of_uint u) = Pos.of_uint u.
Proof.
  induction u; simpl; try reflexivity; try exact IHu;
    apply dec_value_uint_acc.
Qed.

Lemma dec_value_str_of_nat (n : N) : dec_value (str_of_nat n) = n.
Proof.
  unfold dec_value, str_of_nat, NilZero.string_of_uint.
  destruct n as [|p]; [reflexivity |]. simpl N.to_uint.
  pose proof (DecimalPos.Unsigned.to_uint_nonnil p) as Hnil.
  pose proof (DecimalPos.Unsigned.of_to p) as Hp.
  destruct (Pos.to_uint p) eqn:E; [contradiction | ..];
    rewrite dec_value_uint; exact Hp.
Qed.

Lemma str_of_nat_inj (n1 n2 : N) : str_of_nat n1 = str_of_nat n2 -> n1 = n2.
Proof.
  intros H. rewrite <- (dec_value_str_of_nat n1), <- (dec_value_str_of_nat n2).
  now rewrite H.
Qed.

Lemma dec_value_zeros (k : nat) (s : string) :
  dec_value (zeros k ++ s) = dec_value s.
Proof.
  unfold dec_value. induction k as [|k IH]; [reflexivity |].
  simpl zeros. rewrite append_cons. simpl. exact IH.
Qed.

Lemma zero_pad_inj (w : nat) (n1 n2 : N) : zero_pad w n1 = zero_pad w n2 -> n1 = n2.
Proof.
  unfold zero_pad. intros H.
  rewrite <- (dec_value_str_of_nat n1), <- (dec_value_str_of_nat n2).
  rewrite <- (dec_value_zeros (w - String.length (str_of_nat n1)) (str_of_nat n1)).
  rewrite <- (dec_value_zeros (w - String.length (str_of_nat n2)) (str_of_nat n2)).
  now rewrite H.
Qed.

Lemma zeros_digits (k : nat) : all_chars is_digit (zeros k) = true.
Proof. induction k; simpl; auto. Qed.

Lemma zero_pad_digits (w : nat) (n : N) : all_chars is_digit (zero_pad w n) = true.
Proof.
  unfold zero_pad. now rewrite all_chars_app, zeros_digits, str_of_nat_digits.
Qed.

Lemma zero_pad_without (c : ascii) (w : nat) (n : N) :
  is_digit c = false ->
  all_chars (fun x => negb (Ascii.eqb x c)) (zero_pad w n) = true.
Proof.
  intros Hc. apply (all_chars_impl is_digit); [|apply zero_pad_digits].
  intros x Hx. destruct (Ascii.eqb_spec x c) as [->|]; [congruence | reflexivity].
Qed.

Lemma single_append (c : ascii) (s : string) : String c "" ++ s = String c s.
Proof. reflexivity. Qed.

(** The file-name time stamp determines the six fields it prints. *)
Lemma strftime_inj (t1 t2 : datetime) :
  strftime "_" "-" t1 = strftime "_" "-" t2 -> t1 = t2.
Proof.
  destruct t1 as [y1 m1 d1 H1 M1 S1], t2 as [y2 m2 d2 H2 M2 S2].
  unfold strftime. simpl. rewrite !single_append. intros H.
  apply cut_at_first in H; try (apply zero_pad_without; reflexivity).
  destruct H as [Hy H]. apply zero_pad_inj in Hy.
  apply cut_at_first in H; try (apply zero_pad_without; reflexivity).
  destruct H as [Hm H]. apply zero_pad_inj in Hm.
  apply cut_at_first in H; try (apply zero_pad_without; reflexivity).
  destruct H as [Hd H]. apply zero_pad_inj in Hd.
  apply cut_at_first in H; try (apply zero_pad_without; reflexivity).
  destruct H as [HH H]. apply zero_pad_inj in HH.
  apply cut_at_first in H; try (apply zero_pad_without; reflexivity).
  destruct H as [HM H]. apply zero_pad_inj in HM.
  apply zero_pad_inj in H. congruence.
Qed.

End Decimal.

(** ** The order of clock readings *)

Section Clock.

Lemma dt_le_antisym (t1 t2 : datetime) : dt_le t1 t2 -> dt_le t2 t1 -> t1 = t2.
Proof.
  destruct t1 as [y1 m1 d1 H1 M1 S1], t2 as [y2 m2 d2 H2 M2 S2].
  unfold dt_le, dt_compare. simpl.
  rewrite (N.compare_antisym y1 y2), (N.compare_antisym m1 m2),
    (N.compare_antisym d1 d2), (N.compare_antisym H1 H2),
    (N.compare_antisym M1 M2), (N.compare_antisym S1 S2).
  destruct (N.compare_spec y1 y2); simpl; try congruence.
  destruct (N.compare_spec m1 m2); simpl; try congruence.
  destruct (N.compare_spec d1 d2); simpl; try congruence.
  destruct (N.compare_spec H1 H2); simpl; try congruence.
  destruct (N.compare_spec M1 M2); simpl; try congruence.
  destruct (N.compare_spec S1 S2); simpl; try congruence.
Qed.

Lemma dt_le_refl (t : datetime) : dt_le t t.
Proof.
  unfold dt_le, dt_compare. rewrite !N.compare_refl. simpl. discriminate.
Qed.

Lemma steady_app (a b : list datetime) :
  steady (a ++ b)%list ->
  steady a /\ steady b /\ Forall (fun x => Forall (dt_le x) b) a.
Proof.
  induction a as [|x a IH]; simpl; [auto |].
  intros [Hx Hs]. apply Forall_app in Hx as [Hxa Hxb].
  destruct (IH Hs) as (Ha & Hb & Hab). auto.
Qed.

End Clock.

(** ** The two-decimal text of a distance grows with the distance *)

Section TwoDecimals.

Lemma round_half_even_mono (den n1 n2 : Z) :
  0 < den -> 0 <= n1 <= n2 ->
  round_half_even n1 den <= round_half_even n2 den.
Proof.
  intros Hden Hn. unfold round_half_even.
  pose proof (Z.div_mod n1 den ltac:(lia)) as E1.
  pose proof (Z.div_mod n2 den ltac:(lia)) as E2.
  pose proof (Z.mod_pos_bound n1 den Hden) as B1.
  pose proof (Z.mod_pos_bound n2 den Hden) as B2.
  assert (Hq : n1 / den <= n2 / den) by (apply Z.div_le_mono; lia).
  destruct (Z.eq_dec (n1 / den) (n2 / den)) as [Heq | Hne].
  - rewrite <- Heq in *.
    assert (Hr : n1 mod den <= n2 mod den) by nia.
    destruct (2 * (n1 mod den) <? den) eqn:A1;
      destruct (2 * (n2 mod den) <? den) eqn:A2;
      destruct (den <? 2 * (n1 mod den)) eqn:C1;
      destruct (den <? 2 * (n2 mod den)) eqn:C2;
      destruct (Z.even (n1 / den)); lia.
  - destruct (2 * (n1 mod den) <? den); destruct (2 * (n2 mod den) <? den);
      destruct (den <? 2 * (n1 mod den)); destruct (den <? 2 * (n2 mod den));
      destruct (Z.even (n1 / den)); destruct (Z.even (n2 / den)); lia.
Qed.

Lemma round_half_even_nonneg (den n : Z) :
  0 < den -> 0 <= n -> 0 <= round_half_even n den.
Proof.
  intros Hden Hn. unfold round_half_even.
  assert (0 <= n / den) by (apply Z.div_pos; lia).
  destruct (2 * (n mod den) <? den); destruct (den <? 2 * (n mod den));
    destruct (Z.even (n / den)); lia.
Qed.

Lemma hundredths_mono (u1 u2 : N) : (u1 <= u2)%N -> (hundredths u1 <= hundredths u2)%N.
Proof.
  intros H. unfold hundredths.
  assert (Hden : 0 < 2 ^ unit_exp) by (apply Z.pow_pos_nonneg; unfold unit_exp; lia).
  pose proof (round_half_even_mono (2 ^ unit_exp) (100 * Z.of_N u1) (100 * Z.of_N u2)
                Hden ltac:(lia)).
  pose proof (round_half_even_nonneg (2 ^ unit_exp) (100 * Z.of_N u1) Hden ltac:(lia)).
  lia.
Qed.

Lemma format_2f_fin (s : bool) (u : N) :
  format_2f (Ffin s u) =
    (if s then "-" else "")
      ++ str_of_nat (hundredths u / 100)
      ++ String "." (String (digit_char (hundredths u mod 100 / 10))
                       (String (digit_char (hundredths u mod 10)) "")).
Proof. reflexivity. Qed.

Lemma str_of_nat_head (n : N) :
  exists c rest, str_of_nat n = String c rest /\ is_digit c = true.
Proof.
  pose proof (str_of_nat_digits n) as Hd.
  destruct (str_of_nat n) as [|c rest] eqn:E.
  - exfalso. pose proof E as E'. apply (f_equal dec_value) in E'.
    rewrite dec_value_str_of_nat in E'. change (dec_value "") with 0%N in E'.
    subst n. discriminate E.
  - simpl in Hd. apply andb_true_iff in Hd as [Hc _]. eauto.
Qed.

Lemma digit_char_inj (a b : N) :
  (a < 10)%N -> (b < 10)%N -> digit_char a = digit_char b -> a = b.
Proof.
  unfold digit_char. intros Ha Hb H.
  apply (f_equal N_of_ascii) in H.
  rewrite !N_ascii_embedding in H by lia. lia.
Qed.

Lemma two_digits (h : N) :
  (h = 100 * (h / 100) + 10 * (h mod 100 / 10) + h mod 10 /\
   h mod 100 / 10 < 10 /\ h mod 10 < 10)%N.
Proof. zify. Z.to_euclidean_division_equations. lia. Qed.

Lemma unsigned_text_inj (h1 h2 : N) :
  str_of_nat (h1 / 100)
    ++ String "." (String (digit_char (h1 mod 100 / 10))
                     (String (digit_char (h1 mod 10)) "")) =
  str_of_nat (h2 / 100)
    ++ String "." (String (digit_char (h2 mod 100 / 10))
                     (String (digit_char (h2 mod 10)) "")) ->
  h1 = h2.
Proof.
  intros H.
  assert (Hdot : forall n, all_chars (fun x => negb (Ascii.eqb x ".")) (str_of_nat n) = true).
  { intros n. apply (all_chars_impl is_digit); [|apply str_of_nat_digits].
    intros x Hx. destruct (Ascii.eqb_spec x ".") as [->|]; [discriminate | reflexivity]. }
  apply cut_at_first in H; try apply Hdot.
  destruct H as [Hq Ht]. apply str_of_nat_inj in Hq.
  injection Ht as Ha Hb.
  destruct (two_digits h1) as (E1 & A1 & B1), (two_digits h2) as (E2 & A2 & B2).
  apply digit_char_inj in Ha; [| assumption | assumption].
  apply digit_char_inj in Hb; [| assumption | assumption].
  lia.
Qed.

(** The text of a finite float determines its sign and its hundredths. *)
Lemma format_2f_fin_inj (s1 s2 : bool) (u1 u2 : N) :
  format_2f (Ffin s1 u1) = format_2f (Ffin s2 u2) ->
  s1 = s2 /\ hundredths u1 = hundredths u2.
Proof.
  rewrite !format_2f_fin.
  destruct (str_of_nat_head (hundredths u1 / 100)) as (c1 & rest1 & E1 & D1).
  destruct (str_of_nat_head (hundredths u2 / 100)) as (c2 & rest2 & E2 & D2).
  destruct s1, s2; rewrite ?single_append, ?append_nil_l; intros H.
  - injection H as H. apply unsigned_text_inj in H. auto.
  - rewrite E2, append_cons in H. injection H as <- _. discriminate D2.
  - rewrite E1, append_cons in H. injection H as -> _. discriminate D1.
  - apply unsigned_text_inj in H. auto.
Qed.

Lemma format_2f_fin_dot (s : bool) (u : N) :
  all_chars (fun x => negb (Ascii.eqb x ".")) (format_2f (Ffin s u)) = false.
Proof.
  rewrite format_2f_fin, !all_chars_app. simpl.
  now rewrite !andb_false_r.
Qed.

(** A distance between two distances of the same two-decimal text has
    that text as well. *)
Lemma format_2f_between (d1 d2 d3 : float) :
  fgt d2 d1 = true ->
  d3 = d2 \/ fgt d3 d2 = true ->
  format_2f d1 = format_2f d3 ->
  format_2f d2 = format_2f d1.
Proof.
  intros H12 [-> | H23] Heq; [now rewrite Heq |].
  destruct d1 as [|[]|s1 u1], d2 as [|[]|s2 u2], d3 as [|[]|s3 u3];
    try discriminate H12; try discriminate H23; try discriminate Heq.
  { exfalso. pose proof (format_2f_fin_dot s3 u3) as Hdot.
    rewrite <- Heq in Hdot. discriminate Hdot. }
  { exfalso. pose proof (format_2f_fin_dot s1 u1) as Hdot.
    rewrite Heq in Hdot. discriminate Hdot. }
  apply format_2f_fin_inj in Heq as [<- Hh].
  rewrite fgt_fin in H12, H23. apply Z.ltb_lt in H12, H23.
  assert (Hs : s2 = s1 /\ hundredths u2 = hundredths u1).
  { destruct s1, s2; simpl in H12, H23.
    - split; [reflexivity |].
      pose proof (hundredths_mono u3 u2 ltac:(lia)).
      pose proof (hundredths_mono u2 u1 ltac:(lia)). lia.
    - lia.
    - lia.
    - split; [reflexivity |].
      pose proof (hundredths_mono u1 u2 ltac:(lia)).
      pose proof (hundredths_mono u2 u3 ltac:(lia)). lia. }
  destruct Hs as [-> Hs]. now rewrite !format_2f_fin, Hs.
Qed.

End TwoDecimals.

(** ** A closed session is not written again *)

Section Monotone.

Variable log_dir : string.

Lemma fgt_trans (a b c : float) : fgt c b = true -> fgt b a = true -> fgt c a = true.
Proof.
  destruct a as [|[]|s1 u1], b as [|[]|s2 u2], c as [|[]|s3 u3];
    try discriminate; try reflexivity.
  rewrite !fgt_fin, !Z.ltb_lt. lia.
Qed.

Lemma truthy_Some (c : option string) (p : string) : truthy c = Some p -> c = Some p.
Proof.
  destruct c as [s|]; [|discriminate]. simpl.
  destruct (String.eqb s ""); [discriminate | congruence].
Qed.

Lemma write_row_other data p a fs : p <> a -> write_row data p fs !! a = fs !! a.
Proof. intros H. unfold write_row. now rewrite lookup_insert_ne. Qed.

(** [log_data] on the open file leaves every other file alone. *)
Lemma log_data_frame ok data p w a :
  current_csv_log w = Some p ->
  current_csv_log (log_data ok data p w) <> Some a ->
  files (log_data ok data p w) !! a = files w !! a.
Proof.
  intros Hp Hne. rewrite current_log_data in Hne. rewrite files_log_data.
  destruct (can_open ok p); [|reflexivity].
  apply write_row_other. congruence.
Qed.

Lemma on_distance_frame r data d w a :
  current_csv_log (on_distance log_dir r data d w) <> Some a ->
  files (on_distance log_dir r data d w) !! a = files w !! a.
Proof.
  unfold on_distance.
  destruct (last_distance w) as [last|] eqn:Hl.
  - destruct (feq d zero && fne last zero); simpl; rewrite Hl;
      destruct (fle d last && fne d last); simpl;
      try destruct (fgt d last); simpl;
      rewrite ?session_file_nonempty;
      try (destruct (truthy (current_csv_log w)) as [p|] eqn:Ht;
           [apply truthy_Some in Ht |]);
      open_cases; simpl; intros Hne; try reflexivity;
      apply write_row_other; congruence.
  - simpl. rewrite Hl. simpl. rewrite session_file_nonempty.
    open_cases; simpl; intros Hne; try reflexivity.
    apply write_row_other. congruence.
Qed.

(** An iteration writes to no file but the one that is open after it. *)
Lemma loop_body_frame w r a :
  current_csv_log (loop_body log_dir w r) <> Some a ->
  files (loop_body log_dir w r) !! a = files w !! a.
Proof.
  unfold loop_body.
  destruct (String.eqb (strip (raw r)) ""); [reflexivity |].
  destruct (startswith "Large gap detected" (strip (raw r))); [reflexivity |].
  destruct (startswith "LOST:" (strip (raw r))).
  { destruct (process_lost_line (now_row r) (strip (raw r))) as [msgs [d|]].
    - pose proof (locals_prints msgs (print (MsgRaw (strip (raw r))) w)) as Hloc.
      destruct (truthy _) as [p|] eqn:Ht.
      + apply truthy_Some in Ht. intros Hne.
        rewrite log_data_frame by assumption.
        now rewrite files_prints.
      + intros _. simpl. now rewrite files_prints.
    - intros _. simpl. now rewrite files_prints. }
  destruct (startswith "DATA," (strip (raw r))); [|reflexivity].
  destruct (process_data_line (now_row r) (strip (raw r))) as [msgs [data|]].
  - destruct (float_of_str (Distance data)) as [d|].
    + intros Hne. rewrite on_distance_frame by assumption.
      now rewrite files_prints.
    + intros _. simpl. now rewrite files_prints.
  - intros _. now rewrite files_prints.
Qed.

Lemma named_locals w w' d t :
  locals w' = locals w -> named log_dir w d t -> named log_dir w' d t.
Proof. unfold locals, named. intros H. injection H as -> -> _. tauto. Qed.

(** An iteration keeps the session, or opens the one of a higher distance
    at its own clock reading. *)
Lemma loop_body_named w r d t :
  named log_dir w d t ->
  named log_dir (loop_body log_dir w r) d t \/
  exists d', fgt d' d = true /\
    named log_dir (loop_body log_dir w r) d' (now_file r).
Proof.
  intros Hn. unfold loop_body.
  destruct (String.eqb (strip (raw r)) ""); [left; exact Hn |].
  destruct (startswith "Large gap detected" (strip (raw r))).
  { left. eapply named_locals; [|exact Hn]. reflexivity. }
  destruct (startswith "LOST:" (strip (raw r))).
  { left. destruct (process_lost_line (now_row r) (strip (raw r))) as [msgs [x|]].
    - destruct (truthy _);
        (eapply named_locals; [|exact Hn]);
        rewrite ?locals_log_data, ?locals_print, locals_prints; reflexivity.
    - eapply named_locals; [|exact Hn].
      rewrite locals_print, locals_prints. reflexivity. }
  destruct (startswith "DATA," (strip (raw r))); [|left; exact Hn].
  destruct (process_data_line (now_row r) (strip (raw r))) as [msgs [data|]].
  - assert (Hw : named log_dir (prints msgs (print (MsgRaw (strip (raw r))) w)) d t).
    { eapply named_locals; [|exact Hn]. now rewrite locals_prints. }
    destruct (float_of_str (Distance data)) as [cur|].
    + destruct Hw as [Hl Hp]. destruct (fgt cur d) eqn:Hgt.
      * right. exists cur. split; [exact Hgt |].
        destruct (on_distance_higher log_dir r data cur _ d Hl Hgt)
          as (v & w0 & -> & _). split; through_log; reflexivity.
      * left.
        destruct (on_distance_not_higher log_dir r data cur _ d _ Hl Hp
                    (session_file_nonempty log_dir d t) Hgt)
          as (v & w0 & -> & _ & Hc & Hd & _).
        split; through_log; assumption.
    + left. eapply named_locals; [|exact Hw]. reflexivity.
  - left. eapply named_locals; [|exact Hn]. now rewrite locals_prints.
Qed.

(** From a world without a session, an iteration stays without one or
    opens a session at its own clock reading. *)
Lemma loop_body_unnamed w r :
  last_distance w = None -> current_csv_log w = None ->
  (last_distance (loop_body log_dir w r) = None /\
   current_csv_log (loop_body log_dir w r) = None) \/
  exists d, named log_dir (loop_body log_dir w r) d (now_file r).
Proof.
  intros Hl Hc.
  assert (Hsame : forall w', locals w' = locals w ->
            last_distance w' = None /\ current_csv_log w' = None).
  { unfold locals. intros w' H. injection H as -> -> _. auto. }
  unfold loop_body.
  destruct (String.eqb (strip (raw r)) ""); [left; auto |].
  destruct (startswith "Large gap detected" (strip (raw r))).
  { left. apply Hsame. reflexivity. }
  destruct (startswith "LOST:" (strip (raw r))).
  { left. destruct (process_lost_line (now_row r) (strip (raw r))) as [msgs [x|]].
    - destruct (truthy _); apply Hsame;
        rewrite ?locals_log_data, ?locals_print, locals_prints; reflexivity.
    - apply Hsame. rewrite locals_print, locals_prints. reflexivity. }
  destruct (startswith "DATA," (strip (raw r))); [|left; auto].
  destruct (process_data_line (now_row r) (strip (raw r))) as [msgs [data|]].
  - destruct (float_of_str (Distance data)) as [cur|].
    + right. exists cur. rewrite on_distance_first.
      * split; through_log; reflexivity.
      * apply (Hsame (prints msgs (print (MsgRaw (strip (raw r))) w))).
        now rewrite locals_prints.
    + left. apply Hsame. rewrite locals_print, locals_prints. reflexivity.
  - left. apply Hsame. now rewrite locals_prints.
Qed.

(** The open file of a run is named after the recorded distance and the
    clock reading of one of the readings of the run. *)
Lemma run_named fs (pre : list reading) :
  let w := main_loop log_dir (initial fs) pre in
  (last_distance w = None /\ current_csv_log w = None) \/
  exists d t, named log_dir w d t /\ In t (map now_file pre).
Proof.
  induction pre as [|r pre IH] using rev_ind; [left; split; reflexivity |].
  cbv zeta in *. rewrite main_loop_app, main_loop_cons, main_loop_nil.
  rewrite map_app. simpl map.
  destruct IH as [[Hl Hc] | (d & t & Hn & Hin)].
  - destruct (loop_body_unnamed _ r Hl Hc) as [H | [d H]]; [left; exact H |].
    right. exists d, (now_file r). split; [exact H |].
    apply in_or_app. right. left. reflexivity.
  - right. destruct (loop_body_named _ r d t Hn) as [H | (d' & _ & H)].
    + exists d, t. split; [exact H |]. apply in_or_app. left. exact Hin.
    + exists d', (now_file r). split; [exact H |].
      apply in_or_app. right. left. reflexivity.
Qed.

(** The name of a session left behind is not the name of a later one,
    as long as the clock has not run backwards. *)
Lemma no_return (d0 d1 d2 : float) (t0 t1 t2 : datetime) :
  fgt d1 d0 = true -> dt_le t0 t1 ->
  session_file log_dir d1 t1 <> session_file log_dir d0 t0 ->
  d2 = d1 \/ fgt d2 d1 = true -> dt_le t1 t2 ->
  session_file log_dir d2 t2 <> session_file log_dir d0 t0.
Proof.
  intros H10 Ht01 Hne H21 Ht12 Heq. apply Hne.
  apply session_file_inj in Heq as [Hf Ht].
  apply strftime_inj in Ht. subst t2.
  assert (t1 = t0) as -> by (apply dt_le_antisym; assumption).
  rewrite !session_file_eq. unfold session_name.
  now rewrite (format_2f_between d0 d1 d2 H10 H21 (eq_sym Hf)).
Qed.

(** After the switch away from the file [a], no later iteration opens or
    writes [a]. *)
Lemma after_switch (d0 d1 : float) (t0 t1 : datetime) (post : list reading) w1 :
  fgt d1 d0 = true -> dt_le t0 t1 ->
  session_file log_dir d1 t1 <> session_file log_dir d0 t0 ->
  named log_dir w1 d1 t1 ->
  Forall (dt_le t1) (map now_file post) ->
  let w2 := main_loop log_dir w1 post in
  (exists d2 t2, named log_dir w2 d2 t2 /\
     (d2 = d1 \/ fgt d2 d1 = true) /\ dt_le t1 t2) /\
  files w2 !! session_file log_dir d0 t0 = files w1 !! session_file log_dir d0 t0.
Proof.
  intros H10 Ht01 Hne Hn1.
  induction post as [|r post IH] using rev_ind; intros Hpost.
  - simpl. split; [|reflexivity].
    exists d1, t1. split; [exact Hn1 |]. split; [left; reflexivity | apply dt_le_refl].
  - rewrite map_app in Hpost. apply Forall_app in Hpost as [Hpost Hr].
    inversion Hr as [|? ? Hr' _]; subst.
    cbv zeta in *. rewrite main_loop_app, main_loop_cons, main_loop_nil.
    destruct (IH Hpost) as [(d2 & t2 & Hn2 & Hd2 & Ht2) Hfiles].
    assert (Hnext : exists d3 t3,
              named log_dir (loop_body log_dir (main_loop log_dir w1 post) r) d3 t3 /\
              (d3 = d1 \/ fgt d3 d1 = true) /\ dt_le t1 t3).
    { destruct (loop_body_named _ r d2 t2 Hn2) as [H | (d3 & H32 & H)].
      - exists d2, t2. auto.
      - exists d3, (now_file r). split; [exact H |]. split; [|exact Hr'].
        right. destruct Hd2 as [-> | Hd2]; [exact H32 |].
        exact (fgt_trans d1 d2 d3 H32 Hd2). }
    split; [exact Hnext |].
    destruct Hnext as (d3 & t3 & [_ Hp3] & Hd3 & Ht3).
    rewrite loop_body_frame; [exact Hfiles |].
    rewrite Hp3. intros Heq. injection Heq as Heq.
    exact (no_return d0 d1 d3 t0 t1 t3 H10 Ht01 Hne Hd3 Ht3 Heq).
Qed.

End Monotone.

(** C7, as the code has it.  Along a run in which the clock readings that
    name the files never decrease, once an iteration has replaced the open
    file [a] by another one, [a] is never the open file again and no record
    is appended to it, whatever lines follow. *)
Theorem closed_session_never_reopened
    (log_dir : string) (fs : gmap string (list (list string)))
    (pre : list reading) (r : reading) (post : list reading) (a : string) :
  steady (map now_file (pre ++ r :: post)%list) ->
  let w0 := main_loop log_dir (initial fs) pre in
  let w1 := loop_body log_dir w0 r in
  current_csv_log w0 = Some a ->
  current_csv_log w1 <> Some a ->
  forall k,
    let w2 := main_loop log_dir w1 (take k post) in
    current_csv_log w2 <> Some a /\ files w2 !! a = files w0 !! a.
Proof.
  intros Hsteady w0 w1 Ha Hswitch k w2.
  destruct (run_named log_dir fs pre) as [[_ Hc] | (d0 & t0 & Hn0 & Hin)];
    [fold w0 in Hc; congruence |].
  fold w0 in Hn0. pose proof Hn0 as [_ Hp0]. rewrite Ha in Hp0.
  injection Hp0 as ->.
  rewrite map_app in Hsteady. apply steady_app in Hsteady as (_ & Hs & Hpre).
  simpl in Hs. destruct Hs as [Hpost _].
  rewrite Forall_forall in Hpre.
  specialize (Hpre t0 (proj2 (list_elem_of_In _ _) Hin)).
  inversion Hpre as [|? ? Ht01 _]; subst.
  destruct (loop_body_named log_dir w0 r d0 t0 Hn0) as [[_ H] | (d1 & H10 & Hn1)];
    [contradiction |].
  fold w1 in Hn1. pose proof Hn1 as [_ Hp1].
  assert (Hne : session_file log_dir d1 (now_file r) <> session_file log_dir d0 t0)
    by congruence.
  assert (Hk : Forall (dt_le (now_file r)) (map now_file (take k post))).
  { rewrite Forall_forall in Hpost. apply Forall_forall. intros t Ht.
    apply list_elem_of_fmap in Ht as (x & -> & Hx).
    apply Hpost. apply list_elem_of_fmap. exists x. split; [reflexivity |].
    exact (subseteq_take k post x Hx). }
  destruct (after_switch log_dir d0 d1 t0 (now_file r) (take k post) w1
              H10 Ht01 Hne Hn1 Hk) as [(d2 & t2 & [_ Hp2] & Hd2 & Ht2) Hfiles].
  fold w2 in Hp2, Hfiles. split.
  - rewrite Hp2. intros Heq. injection Heq as Heq.
    exact (no_return log_dir d0 d1 d2 t0 (now_file r) t2 H10 Ht01 Hne Hd2 Ht2 Heq).
  - rewrite Hfiles. apply loop_body_frame. exact Hswitch.
Qed.

Lemma closed_session_never_reopened_witness :
  let pre := [at_second 1 "DATA,512,1,10.0,1,0,-71,9.25,1,0.00"] in
  let r := at_second 2 "DATA,640,2,15.0,2,0,-80,7.50,2,0.00" in
  let post := [at_second 3 "LOST: Packet 3";
               at_second 4 "DATA,896,4,10.0,3,1,-71,9.25,4,25.00"] in
  let a := "/home/pi/lora_data_logs/lora_data_10.00m_2024-05-17_10-30-01.csv" in
  let w0 := main_loop pi_logs (initial ∅) pre in
  let w1 := loop_body pi_logs w0 r in
  let w2 := main_loop pi_logs w1 post in
  steady (map now_file (pre ++ r :: post)%list) /\
  current_csv_log w0 = Some a /\
  current_csv_log w1 <> Some a /\
  current_csv_log w2 <> Some a /\
  files w2 !! a =
    Some [CSV_HEADERS;
          ["2024-05-17 10:30:01"; "DATA"; "1"; "10.0"; "1"; "0"; "-71"; "9.25"; "1"; "0.00"]].
Proof.
  set (pre := [at_second 1 "DATA,512,1,10.0,1,0,-71,9.25,1,0.00"]).
  set (r := at_second 2 "DATA,640,2,15.0,2,0,-80,7.50,2,0.00").
  set (post := [at_second 3 "LOST: Packet 3";
                at_second 4 "DATA,896,4,10.0,3,1,-71,9.25,4,25.00"]).
  set (a := "/home/pi/lora_data_logs/lora_data_10.00m_2024-05-17_10-30-01.csv").
  assert (Hs : steady (map now_file (pre ++ r :: post)%list)).
  { simpl. repeat constructor; vm_compute; discriminate. }
  assert (Ha : current_csv_log (main_loop pi_logs (initial ∅) pre) = Some a)
    by (vm_compute; reflexivity).
  assert (Hsw : current_csv_log
                  (loop_body pi_logs (main_loop pi_logs (initial ∅) pre) r) <> Some a)
    by (vm_compute; discriminate).
  cbv zeta.
  split; [exact Hs |]. split; [exact Ha |]. split; [exact Hsw |].
  destruct (closed_session_never_reopened pi_logs ∅ pre r post a Hs Ha Hsw 2)
    as [Hc Hf].
  split; [exact Hc |].
  change (take 2 post) with post in Hf. rewrite Hf. vm_compute. reflexivity.
Defined.

(** C7 as stated fails when the clock steps back.  The readings 10.001,
    10.002 and 10.003 arrive at 10:30:05, 10:30:06 and, after the clock has
    been set back, 10:30:05 again: the second one replaces the file
    [lora_data_10.00m_2024-05-17_10-30-05.csv] by the one of 10:30:06, and
    the third one opens, and writes to, the first file again. *)
Lemma closed_session_reopened_counterexample :
  ~ (forall (log_dir : string) (fs : gmap string (list (list string)))
            (pre : list reading) (r : reading) (post : list reading) (a : string),
       let w0 := main_loop log_dir (initial fs) pre in
       let w1 := loop_body log_dir w0 r in
       current_csv_log w0 = Some a ->
       current_csv_log w1 <> Some a ->
       forall k,
         let w2 := main_loop log_dir w1 (take k post) in
         current_csv_log w2 <> Some a /\ files w2 !! a = files w0 !! a).
Proof.
  intros H.
  destruct (H pi_logs ∅
              [at_second 5 "DATA,512,1,10.001,1,0,-71,9.25,1,0.00"]
              (at_second 6 "DATA,640,2,10.002,2,0,-71,9.25,2,0.00")
              [at_second 5 "DATA,768,3,10.003,3,0,-71,9.25,3,0.00"]
              "/home/pi/lora_data_logs/lora_data_10.00m_2024-05-17_10-30-05.csv"
              ltac:(vm_compute; reflexivity) ltac:(vm_compute; discriminate) 1%nat)
    as [Hc _].
  apply Hc. vm_compute. reflexivity.
Qed.

(** ** Port discovery *)

Section Ports.

Lemma filter_first_match (prefix : string) (dev : list string) :
  match List.filter (startswith prefix) dev with
  | name :: _ => first_match prefix dev name
  | [] => no_match prefix dev
  end.
Proof.
  induction dev as [|n dev IH]; simpl; [constructor |].
  destruct (startswith prefix n) eqn:Hn.
  - exists [], dev. repeat split; [exact Hn | constructor].
  - destruct (List.filter (startswith prefix) dev) as [|name l].
    + constructor; assumption.
    + destruct IH as (before & after & -> & Hname & Hbefore).
      exists (n :: before), after. repeat split; [exact Hname |].
      constructor; assumption.
Qed.

Lemma glob_dev_head (prefix : string) (dev : list string) :
  match glob_dev prefix dev with
  | port :: _ => exists name, port = "/dev/" ++ name /\ first_match prefix dev name
  | [] => no_match prefix dev
  end.
Proof.
  unfold glob_dev. pose proof (filter_first_match prefix dev) as H.
  destruct (List.filter (startswith prefix) dev) as [|name l]; simpl; eauto.
Qed.

Lemma float_lt_int_nonneg (x : float) (n : Z) :
  n <= 0 ->
  match x with Fnan => True | Finf neg => neg = false | Ffin neg mag => neg = false \/ mag = 0%N end ->
  float_lt_int x n = false.
Proof.
  intros Hn. assert (Hp : 0 < 2 ^ unit_exp) by (apply Z.pow_pos_nonneg; unfold unit_exp; lia).
  destruct x as [|neg|neg mag]; simpl; [reflexivity | tauto |].
  intros H. apply Z.ltb_ge.
  assert (0 <= signed neg mag)
    by (destruct H as [-> | ->]; [simpl; lia | destruct neg; simpl; lia]).
  nia.
Qed.

Lemma binary64_of_ratio_sign (neg : bool) (p q : Z) :
  match binary64_of_ratio neg p q with
  | Fnan => False
  | Finf s => s = neg
  | Ffin s _ => s = neg
  end.
Proof.
  unfold binary64_of_ratio.
  repeat match goal with
         | |- context [let '(_, _) := ?x in _] => destruct x
         | |- context [if ?c then _ else _] => destruct c
         end; reflexivity.
Qed.

(** A clock reading that is not before the start gives a difference that
    is below no non-positive number. *)
Lemma elapsed_not_negative (start t : float) (n : Z) :
  n <= 0 -> fle start t = true -> float_lt_int (fsub t start) n = false.
Proof.
  intros Hn Hle. apply float_lt_int_nonneg; [exact Hn |].
  destruct start as [|[]|s1 u1], t as [|[]|s2 u2]; try discriminate Hle;
    simpl; auto.
  rewrite fle_fin in Hle. apply Z.leb_le in Hle.
  destruct (signed s2 u2 - signed s1 u1 =? 0) eqn:Hz; [right; reflexivity |].
  apply Z.eqb_neq in Hz.
  replace (signed s2 u2 - signed s1 u1 <? 0) with false
    by (symmetry; apply Z.ltb_ge; lia).
  pose proof (binary64_of_ratio_sign false (Z.abs (signed s2 u2 - signed s1 u1))
                (2 ^ unit_exp)) as Hs.
  destruct (binary64_of_ratio _ _ _); [contradiction | exact Hs | left; exact Hs].
Qed.

Lemma find_serial_port_tty (dev_acm dev_usb : list string) (port : string) :
  snd (find_serial_port dev_acm dev_usb) = Some port ->
  exists name,
    port = "/dev/" ++ name /\
    (startswith "ttyACM" name = true \/ startswith "ttyUSB" name = true).
Proof.
  unfold find_serial_port.
  pose proof (glob_dev_head "ttyACM" dev_acm) as Ha.
  pose proof (glob_dev_head "ttyUSB" dev_usb) as Hu.
  destruct (glob_dev "ttyACM" dev_acm) as [|pa la]; simpl.
  - destruct (glob_dev "ttyUSB" dev_usb) as [|pu lu]; simpl; [discriminate |].
    intros H. injection H as <-.
    destruct Hu as (name & -> & b & a & _ & Hname & _). eauto.
  - intros H. injection H as <-.
    destruct Ha as (name & -> & b & a & _ & Hname & _). eauto.
Qed.

End Ports.

(** X1. [find_serial_port] returns the path in [/dev] of the first listed
    name that starts with [ttyACM]; when there is none, of the first
    listed name that starts with [ttyUSB]; and [None] exactly when no name
    starts with either. *)
Theorem find_serial_port_prefers_acm (dev_acm dev_usb : list string) :
  match snd (find_serial_port dev_acm dev_usb) with
  | Some port =>
      exists name,
        port = "/dev/" ++ name /\
        (first_match "ttyACM" dev_acm name \/
         (no_match "ttyACM" dev_acm /\ first_match "ttyUSB" dev_usb name))
  | None => no_match "ttyACM" dev_acm /\ no_match "ttyUSB" dev_usb
  end.
Proof.
  unfold find_serial_port.
  pose proof (glob_dev_head "ttyACM" dev_acm) as Ha.
  pose proof (glob_dev_head "ttyUSB" dev_usb) as Hu.
  destruct (glob_dev "ttyACM" dev_acm) as [|pa la]; simpl.
  - destruct (glob_dev "ttyUSB" dev_usb) as [|pu lu]; simpl; [auto |].
    destruct Hu as (name & -> & Hname). eauto.
  - destruct Ha as (name & -> & Hname). eauto.
Qed.

(** X2. While every pass of the waiting loop is within the timeout and
    finds no port, [continuously_check_for_port] keeps running; it returns
    the port of the first pass that finds one, and [None] at the first
    pass whose clock reading has reached the timeout, whatever [/dev]
    lists then. *)
Theorem port_wait_outcome
    (timeout : Z) (start_time : float) (before : list poll) :
  Forall (idle timeout start_time) before ->
  snd (continuously_check_for_port timeout start_time before) = None /\
  (forall p later port,
     float_lt_int (fsub (poll_time p) start_time) timeout = true ->
     truthy (snd (find_serial_port (poll_acm p) (poll_usb p))) = Some port ->
     snd (continuously_check_for_port timeout start_time (before ++ p :: later)%list)
       = Some (Some port)) /\
  (forall p later,
     float_lt_int (fsub (poll_time p) start_time) timeout = false ->
     snd (continuously_check_for_port timeout start_time (before ++ p :: later)%list)
       = Some None).
Proof.
  induction 1 as [|q before [Hq1 Hq2] Hbefore IH].
  - split; [reflexivity |]. split.
    + intros p later port Hin Hport. simpl. rewrite Hin.
      destruct (find_serial_port (poll_acm p) (poll_usb p)) as [msgs found].
      simpl in Hport. now rewrite Hport.
    + intros p later Hout. simpl. now rewrite Hout.
  - destruct IH as (IH1 & IH2 & IH3).
    assert (Hstep : forall polls,
              snd (continuously_check_for_port timeout start_time (q :: polls))
              = snd (continuously_check_for_port timeout start_time polls)).
    { intros polls. simpl. rewrite Hq1.
      destruct (find_serial_port (poll_acm q) (poll_usb q)) as [msgs found].
      simpl in Hq2. rewrite Hq2.
      now destruct (continuously_check_for_port timeout start_time polls). }
    split; [now rewrite Hstep |]. split.
    + intros p later port Hin Hport.
      change ((q :: before) ++ p :: later)%list with (q :: (before ++ p :: later))%list.
      rewrite Hstep. now apply IH2.
    + intros p later Hout.
      change ((q :: before) ++ p :: later)%list with (q :: (before ++ p :: later))%list.
      rewrite Hstep. now apply IH3.
Qed.

Lemma port_wait_outcome_witness :
  let start := the_float "1715941800.25" in
  let empty := {| poll_time := the_float "1715941800.5";
                  poll_acm := ["tty0"; "null"]; poll_usb := ["tty0"; "null"] |} in
  let plugged := {| poll_time := the_float "1715941805.75";
                    poll_acm := ["tty0"; "ttyUSB0"]; poll_usb := ["tty0"; "ttyUSB0"] |} in
  let late := {| poll_time := the_float "1715941860.5";
                 poll_acm := ["ttyACM0"]; poll_usb := [] |} in
  Forall (idle 60 start) [empty] /\
  snd (continuously_check_for_port 60 start [empty; plugged]) = Some (Some "/dev/ttyUSB0") /\
  snd (continuously_check_for_port 60 start [empty; late]) = Some None.
Proof.
  set (start := the_float "1715941800.25").
  set (empty := {| poll_time := the_float "1715941800.5";
                   poll_acm := ["tty0"; "null"]; poll_usb := ["tty0"; "null"] |}).
  assert (Hidle : Forall (idle 60 start) [empty]).
  { repeat constructor; vm_compute; reflexivity. }
  split; [exact Hidle |].
  destruct (port_wait_outcome 60 start [empty] Hidle) as (_ & Hfound & Hlate).
  split.
  - apply (Hfound _ [] "/dev/ttyUSB0"); vm_compute; reflexivity.
  - apply (Hlate _ []). vm_compute. reflexivity.
Defined.

(** X3. With a timeout of zero seconds or less, and a clock that has not
    gone back since the start, [continuously_check_for_port] returns
    [None] without looking at [/dev] at all. *)
Theorem port_wait_zero_timeout
    (timeout : Z) (start_time : float) (p : poll) (later : list poll) :
  timeout <= 0 ->
  fle start_time (poll_time p) = true ->
  continuously_check_for_port timeout start_time (p :: later) = ([], Some None).
Proof.
  intros Hn Hle. simpl.
  now rewrite (elapsed_not_negative start_time (poll_time p) timeout Hn Hle).
Qed.

Lemma port_wait_zero_timeout_witness :
  let start := the_float "1715941800.25" in
  let p := {| poll_time := the_float "1715941800.25";
              poll_acm := ["ttyACM0"]; poll_usb := ["ttyUSB0"] |} in
  0 <= 0 /\
  fle start (poll_time p) = true /\
  continuously_check_for_port 0 start [p] = ([], Some None).
Proof.
  split; [lia |].
  assert (Hle : fle (the_float "1715941800.25") (the_float "1715941800.25") = true)
    by (vm_compute; reflexivity).
  split; [exact Hle |].
  exact (port_wait_zero_timeout 0 (the_float "1715941800.25")
           {| poll_time := the_float "1715941800.25";
              poll_acm := ["ttyACM0"]; poll_usb := ["ttyUSB0"] |} []
           ltac:(lia) Hle).
Defined.

(** X4. A port that [continuously_check_for_port] returns is a path
    [/dev/ttyACM...] or [/dev/ttyUSB...]; it never returns anything else. *)
Theorem port_wait_returns_tty
    (timeout : Z) (start_time : float) (polls : list poll) (port : string) :
  snd (continuously_check_for_port timeout start_time polls) = Some (Some port) ->
  exists name,
    port = "/dev/" ++ name /\
    (startswith "ttyACM" name = true \/ startswith "ttyUSB" name = true).
Proof.
  induction polls as [|p polls IH]; simpl; [discriminate |].
  destruct (float_lt_int (fsub (poll_time p) start_time) timeout); [|discriminate].
  pose proof (find_serial_port_tty (poll_acm p) (poll_usb p)) as Hfind.
  destruct (find_serial_port (poll_acm p) (poll_usb p)) as [msgs found].
  simpl in Hfind.
  destruct (truthy found) as [s|] eqn:Ht.
  - simpl. intros H. injection H as <-. apply truthy_Some in Ht. subst found.
    now apply Hfind.
  - destruct (continuously_check_for_port timeout start_time polls) as [msgs' result].
    simpl in *. exact IH.
Qed.

Lemma port_wait_returns_tty_witness :
  let start := the_float "1715941800.25" in
  let polls := [{| poll_time := the_float "1715941800.5";
                   poll_acm := ["tty0"]; poll_usb := ["tty0"] |};
                {| poll_time := the_float "1715941805.75";
                   poll_acm := ["tty0"; "ttyUSB0"]; poll_usb := ["tty0"; "ttyUSB0"] |}] in
  snd (continuously_check_for_port 60 start polls) = Some (Some "/dev/ttyUSB0") /\
  exists name,
    "/dev/ttyUSB0" = "/dev/" ++ name /\
    (startswith "ttyACM" name = true \/ startswith "ttyUSB" name = true).
Proof.
  split; [vm_compute; reflexivity |].
  apply (port_wait_returns_tty 60 (the_float "1715941800.25")
           [{| poll_time := the_float "1715941800.5";
               poll_acm := ["tty0"]; poll_usb := ["tty0"] |};
            {| poll_time := the_float "1715941805.75";
               poll_acm := ["tty0"; "ttyUSB0"]; poll_usb := ["tty0"; "ttyUSB0"] |}]).
  vm_compute. reflexivity.
Defined.

(** ** The fields of a DATA line *)

Section Fields.

Lemma split_comma_free (f : string) : comma_free f -> split "," f = [f].
Proof.
  unfold comma_free. induction f as [|c f IH]; [reflexivity |].
  simpl. intros [Hc Hf]%andb_true_iff. apply negb_true_iff in Hc.
  rewrite Hc, (IH Hf). reflexivity.
Qed.

Lemma split_field_then (f rest : string) :
  comma_free f -> split "," (f ++ String "," rest) = f :: split "," rest.
Proof.
  unfold comma_free. induction f as [|c f IH].
  - intros _. rewrite append_nil_l. reflexivity.
  - intros H. simpl in H. apply andb_true_iff in H as [Hc Hf].
    apply negb_true_iff in Hc.
    rewrite append_cons. simpl. rewrite Hc, (IH Hf). reflexivity.
Qed.

(** Splitting the joined fields gives the fields back. *)
Lemma split_join (fields : list string) :
  fields <> [] -> Forall comma_free fields -> split "," (join "," fields) = fields.
Proof.
  induction fields as [|f rest IH]; [contradiction |].
  intros _ Hall. inversion Hall as [|? ? Hf Hrest]; subst.
  destruct rest as [|g rest].
  - simpl. now apply split_comma_free.
  - change (join "," (f :: g :: rest)) with (f ++ String "," (join "," (g :: rest))).
    rewrite split_field_then by exact Hf.
    rewrite IH; [reflexivity | discriminate | exact Hrest].
Qed.

End Fields.

(** X5. For a line made of at least ten comma-free fields joined by
    commas, [process_data_line] prints nothing and returns the dictionary
    that takes MessageNumber, Distance(m), Received, Lost, RSSI and SNR
    from the third to the eighth field, TotalPackets from the ninth (or
    from Received when the ninth is "0"), and LossRate from the tenth,
    stripped; the first two fields and those after the tenth are ignored. *)
Theorem process_data_line_fields
    (now : datetime) (f0 f1 f2 f3 f4 f5 f6 f7 f8 f9 : string) (more : list string) :
  Forall comma_free (f0 :: f1 :: f2 :: f3 :: f4 :: f5 :: f6 :: f7 :: f8 :: f9 :: more) ->
  process_data_line now
    (join "," (f0 :: f1 :: f2 :: f3 :: f4 :: f5 :: f6 :: f7 :: f8 :: f9 :: more)) =
  ([], Some {| Timestamp := strftime " " ":" now;
               Event := "DATA";
               MessageNumber := f2;
               Distance := f3;
               Received := f4;
               Lost := f5;
               RSSI := f6;
               SNR := f7;
               TotalPackets := if String.eqb (strip f8) "0" then f4 else f8;
               LossRate := strip f9 |}).
Proof.
  intros Hall. unfold process_data_line.
  rewrite split_join by (discriminate || exact Hall).
  simpl. destruct (String.eqb (strip f8) "0"); reflexivity.
Qed.

Lemma process_data_line_fields_witness :
  Forall comma_free
    ["DATA"; "512"; "7"; "12.50"; "6"; "1"; "-74"; "9.25"; "0"; " 14.29 "; "extra"] /\
  process_data_line (clock 9) "DATA,512,7,12.50,6,1,-74,9.25,0, 14.29 ,extra" =
  ([], Some {| Timestamp := "2024-05-17 10:30:09"; Event := "DATA";
               MessageNumber := "7"; Distance := "12.50"; Received := "6";
               Lost := "1"; RSSI := "-74"; SNR := "9.25";
               TotalPackets := "6"; LossRate := "14.29" |}).
Proof.
  assert (H : Forall comma_free
                ["DATA"; "512"; "7"; "12.50"; "6"; "1"; "-74"; "9.25"; "0";
                 " 14.29 "; "extra"]).
  { repeat constructor. }
  split; [exact H |].
  exact (process_data_line_fields (clock 9) "DATA" "512" "7" "12.50" "6" "1" "-74"
           "9.25" "0" " 14.29 " ["extra"] H).
Defined.

(** ** What an iteration can do to the store *)

Section Effects.

Variable log_dir : string.

Lemma process_data_line_some now line msgs data :
  process_data_line now line = (msgs, Some data) -> msgs = [] /\ Event data = "DATA".
Proof.
  unfold process_data_line.
  destruct (length (split "," line) <? 10)%nat; [discriminate |].
  simpl. destruct (String.eqb _ "0"); intros H; injection H as <- <-; auto.
Qed.

Lemma process_lost_line_some now line msgs data :
  process_lost_line now line = (msgs, Some data) -> Event data = "LOST".
Proof.
  unfold process_lost_line. destruct (last_item (split_ws line)); [|discriminate].
  intros H. injection H as _ <-. reflexivity.
Qed.

(** [on_distance] leaves the files alone or appends one row, the
    dictionary with at most [Lost] replaced, to the file that is open
    afterwards and could be opened. *)
Lemma on_distance_writes r data d w :
  files (on_distance log_dir r data d w) = files w \/
  exists v path,
    can_open (disk_ok r) path = true /\
    files (on_distance log_dir r data d w) = write_row (set_Lost v data) path (files w) /\
    current_csv_log (on_distance log_dir r data d w) = Some path.
Proof.
  assert (Hsame : set_Lost (Lost data) data = data) by (now destruct data).
  unfold on_distance.
  destruct (last_distance w) as [last|] eqn:Hl.
  - destruct (feq d zero && fne last zero); simpl; rewrite Hl;
      destruct (fle d last && fne d last); simpl;
      try destruct (fgt d last); simpl;
      rewrite ?session_file_nonempty;
      try (destruct (truthy (current_csv_log w)) as [p|] eqn:Ht;
           [apply truthy_Some in Ht |]);
      open_cases_eq; simpl; auto; right;
      solve [ eexists; eexists; split; [eassumption | split; reflexivity]
            | eexists; eexists; split; [eassumption | split; [reflexivity | exact Ht]]
            | exists (Lost data); rewrite Hsame; eexists;
              split; [eassumption | split; reflexivity]
            | exists (Lost data); rewrite Hsame; eexists;
              split; [eassumption | split; [reflexivity | exact Ht]] ].
  - simpl. rewrite Hl. simpl. rewrite session_file_nonempty.
    open_cases_eq; simpl; auto.
    right. exists (Lost data). rewrite Hsame. eexists.
    split; [eassumption | split; reflexivity].
Qed.

(** An iteration leaves the files alone or appends one DATA or LOST row
    to the file that is open after it and could be opened. *)
Lemma loop_body_writes w r :
  files (loop_body log_dir w r) = files w \/
  exists data path,
    logger_row data /\
    can_open (disk_ok r) path = true /\
    files (loop_body log_dir w r) = write_row data path (files w) /\
    current_csv_log (loop_body log_dir w r) = Some path.
Proof.
  unfold loop_body.
  destruct (String.eqb (strip (raw r)) ""); [left; reflexivity |].
  destruct (startswith "Large gap detected" (strip (raw r))); [left; reflexivity |].
  destruct (startswith "LOST:" (strip (raw r))).
  { destruct (process_lost_line (now_row r) (strip (raw r))) as [msgs [d|]] eqn:Hp.
    - apply process_lost_line_some in Hp.
      destruct (truthy _) as [p|] eqn:Ht.
      + apply truthy_Some in Ht.
        rewrite files_log_data, current_log_data, files_prints.
        destruct (can_open (disk_ok r) p) eqn:Hopen; [|left; reflexivity].
        right. exists d, p. split; [right; exact Hp |]. auto.
      + left. simpl. now rewrite files_prints.
    - left. simpl. now rewrite files_prints. }
  destruct (startswith "DATA," (strip (raw r))); [|left; reflexivity].
  destruct (process_data_line (now_row r) (strip (raw r))) as [msgs [data|]] eqn:Hp.
  - apply process_data_line_some in Hp as [_ He].
    destruct (float_of_str (Distance data)) as [d|].
    + destruct (on_distance_writes r data d
                  (prints msgs (print (MsgRaw (strip (raw r))) w)))
        as [H | (v & path & Hopen & Hf & Hc)].
      * left. rewrite H. now rewrite files_prints.
      * right. exists (set_Lost v data), path. split; [left; exact He |].
        rewrite Hf, files_prints. auto.
    + left. simpl. now rewrite files_prints.
  - left. now rewrite files_prints.
Qed.

(** A reading that is neither a well-formed DATA reading nor a LOST line
    leaves the store as it is. *)
Lemma loop_body_irrelevant w r :
  relevant r = false -> store (loop_body log_dir w r) = store w.
Proof.
  unfold relevant, is_data_reading.
  intros [Hdata Hlost]%orb_false_iff. unfold loop_body. rewrite Hlost.
  destruct (String.eqb (strip (raw r)) ""); [reflexivity |].
  destruct (startswith "Large gap detected" (strip (raw r))); [reflexivity |].
  destruct (startswith "DATA," (strip (raw r))); [|reflexivity].
  simpl in Hdata.
  destruct (process_data_line (now_row r) (strip (raw r))) as [msgs [data|]] eqn:Hp.
  - apply process_data_line_some in Hp as [-> _].
    destruct (float_of_str (Distance data)); [discriminate | reflexivity].
  - now rewrite store_prints.
Qed.

(** Along a run, every file grows by DATA and LOST rows only. *)
Lemma run_grows rs w path :
  exists rows,
    Forall logger_row rows /\
    files (main_loop log_dir w rs) !! path = grown (files w !! path) rows.
Proof.
  revert w. induction rs as [|r rs IH]; intros w.
  - exists []. split; [constructor | now rewrite grown_nil].
  - rewrite main_loop_cons.
    destruct (IH (loop_body log_dir w r)) as (rows & Hrows & Hfiles).
    destruct (loop_body_writes w r) as [Hsame | (data & p & Hd & _ & Hf & _)].
    + exists rows. split; [exact Hrows |]. now rewrite Hfiles, Hsame.
    + rewrite Hfiles, Hf, write_row_lookup.
      destruct (decide (p = path)) as [->|Hne].
      * exists (data :: rows). split; [constructor; assumption |].
        now rewrite grown_app.
      * exists rows. split; [exact Hrows | reflexivity].
Qed.

Lemma logger_row_line (data : row) :
  logger_row data -> length (cells data) = 10%nat /\ cells data <> CSV_HEADERS.
Proof.
  intros Hd. split; [reflexivity |]. intros H.
  unfold cells, CSV_HEADERS in H. injection H as _ He _.
  destruct Hd as [Hd | Hd]; rewrite Hd in He; discriminate He.
Qed.

End Effects.

(** X6. Lines that are neither well-formed DATA readings nor LOST lines
    (blank lines, gap messages, DATA lines with fewer than ten fields or
    with a distance that is not a number, anything else) can be removed
    from the input without changing the files, the open session, the
    recorded distance or the recorded lost count the run ends with. *)
Theorem irrelevant_lines_do_not_matter
    (log_dir : string) (w : world) (rs : list reading) :
  store (main_loop log_dir w rs) =
  store (main_loop log_dir w (List.filter relevant rs)).
Proof.
  revert w. induction rs as [|r rs IH]; intros w; [reflexivity |].
  simpl List.filter. destruct (relevant r) eqn:Hr.
  - rewrite !main_loop_cons. apply IH.
  - rewrite main_loop_cons, <- IH.
    apply main_loop_store. now apply loop_body_irrelevant.
Qed.

(** X7. A file that did not exist when the run started and exists after
    it holds the header row once, at the top, followed by at least one
    row; every row written is a DATA or LOST row of ten cells. *)
Theorem new_log_file_has_header_once
    (log_dir : string) (w : world) (rs : list reading)
    (path : string) (content : list (list string)) :
  files w !! path = None ->
  files (main_loop log_dir w rs) !! path = Some content ->
  exists rows,
    rows <> [] /\
    content = CSV_HEADERS :: map cells rows /\
    Forall logger_row rows /\
    Forall (fun line => length line = 10%nat /\ line <> CSV_HEADERS) (map cells rows).
Proof.
  intros Hnone Hsome.
  destruct (run_grows log_dir rs w path) as (rows & Hrows & Hfiles).
  rewrite Hnone, Hsome in Hfiles. exists rows.
  destruct rows as [|r rows]; [discriminate Hfiles |].
  simpl in Hfiles. injection Hfiles as ->.
  split; [discriminate |]. split; [reflexivity |]. split; [exact Hrows |].
  apply Forall_map. eapply Forall_impl; [exact Hrows |].
  intros x Hx. now apply logger_row_line.
Qed.

(** X8. A file that existed when the run started is only ever appended
    to: after the run it holds what it held, followed by DATA and LOST
    rows, without a header row in between. *)
Theorem existing_log_file_is_appended
    (log_dir : string) (w : world) (rs : list reading)
    (path : string) (old : list (list string)) :
  files w !! path = Some old ->
  exists rows,
    files (main_loop log_dir w rs) !! path = Some (old ++ map cells rows)%list /\
    Forall logger_row rows /\
    Forall (fun line => length line = 10%nat /\ line <> CSV_HEADERS) (map cells rows).
Proof.
  intros Hold.
  destruct (run_grows log_dir rs w path) as (rows & Hrows & Hfiles).
  rewrite Hold in Hfiles. exists rows.
  split; [exact Hfiles |]. split; [exact Hrows |].
  apply Forall_map. eapply Forall_impl; [exact Hrows |].
  intros x Hx. now apply logger_row_line.
Qed.

Lemma new_log_file_has_header_once_witness :
  let rs := [at_second 1 "DATA,512,1,10.0,1,0,-71,9.25,1,0.00";
             at_second 2 "LOST: Packet 2"] in
  let path := "/home/pi/lora_data_logs/lora_data_10.00m_2024-05-17_10-30-01.csv" in
  let content :=
    [CSV_HEADERS;
     ["2024-05-17 10:30:01"; "DATA"; "1"; "10.0"; "1"; "0"; "-71"; "9.25"; "1"; "0.00"];
     ["2024-05-17 10:30:02"; "LOST"; "2"; ""; ""; ""; ""; ""; ""; ""]] in
  files (initial ∅) !! path = None /\
  files (main_loop pi_logs (initial ∅) rs) !! path = Some content /\
  exists rows, rows <> [] /\ content = CSV_HEADERS :: map cells rows.
Proof.
  cbv zeta.
  assert (Hnone : files (initial ∅) !!
            "/home/pi/lora_data_logs/lora_data_10.00m_2024-05-17_10-30-01.csv" = None)
    by reflexivity.
  assert (Hsome : files (main_loop pi_logs (initial ∅)
                    [at_second 1 "DATA,512,1,10.0,1,0,-71,9.25,1,0.00";
                     at_second 2 "LOST: Packet 2"]) !!
            "/home/pi/lora_data_logs/lora_data_10.00m_2024-05-17_10-30-01.csv" =
          Some [CSV_HEADERS;
                ["2024-05-17 10:30:01"; "DATA"; "1"; "10.0"; "1"; "0"; "-71"; "9.25";
                 "1"; "0.00"];
                ["2024-05-17 10:30:02"; "LOST"; "2"; ""; ""; ""; ""; ""; ""; ""]])
    by (vm_compute; reflexivity).
  split; [exact Hnone |]. split; [exact Hsome |].
  destruct (new_log_file_has_header_once pi_logs (initial ∅) _ _ _ Hnone Hsome)
    as (rows & Hne & Hc & _).
  exists rows. split; assumption.
Defined.

Lemma existing_log_file_is_appended_witness :
  let path := "/home/pi/lora_data_logs/lora_data_10.00m_2024-05-17_10-30-01.csv" in
  let old := [["kept"; "as"; "it"; "was"]] in
  let w := initial (<[path := old]> ∅) in
  let rs := [at_second 1 "DATA,512,1,10.0,1,0,-71,9.25,1,0.00"] in
  files w !! path = Some old /\
  files (main_loop pi_logs w rs) !! path =
    Some [["kept"; "as"; "it"; "was"];
          ["2024-05-17 10:30:01"; "DATA"; "1"; "10.0"; "1"; "0"; "-71"; "9.25"; "1"; "0.00"]] /\
  exists rows,
    files (main_loop pi_logs w rs) !! path = Some (old ++ map cells rows)%list.
Proof.
  cbv zeta.
  assert (Hold : files (initial
                   (<["/home/pi/lora_data_logs/lora_data_10.00m_2024-05-17_10-30-01.csv"
                      := [["kept"; "as"; "it"; "was"]]]> ∅)) !!
            "/home/pi/lora_data_logs/lora_data_10.00m_2024-05-17_10-30-01.csv"
          = Some [["kept"; "as"; "it"; "was"]])
    by (vm_compute; reflexivity).
  split; [exact Hold |]. split; [vm_compute; reflexivity |].
  destruct (existing_log_file_is_appended pi_logs _
              [at_second 1 "DATA,512,1,10.0,1,0,-71,9.25,1,0.00"] _ _ Hold)
    as (rows & Hf & _).
  exists rows. exact Hf.
Defined.

(** ** Where the rows go and in which order sessions open *)

Section Sessions.

Variable log_dir : string.

Lemma strftime_name_chars (t : datetime) :
  all_chars (fun c => negb (Ascii.eqb c "/")) (strftime "_" "-" t) = true.
Proof.
  unfold strftime. rewrite !all_chars_app.
  rewrite !(zero_pad_without "/") by reflexivity. reflexivity.
Qed.

Lemma session_name_no_slash (d : float) (t : datetime) :
  all_chars (fun c => negb (Ascii.eqb c "/")) (session_name d t) = true.
Proof.
  unfold session_name. rewrite !all_chars_app, strftime_name_chars.
  assert (Hf : all_chars (fun c => negb (Ascii.eqb c "/")) (format_2f d) = true).
  { apply (all_chars_impl format_char); [|apply format_2f_chars].
    intros c Hc. destruct (Ascii.eqb_spec c "/") as [->|]; [discriminate Hc | reflexivity]. }
  rewrite Hf. reflexivity.
Qed.

Lemma announced_app (a b : list message) :
  announced (a ++ b)%list = (announced a ++ announced b)%list.
Proof.
  induction a as [|m a IH]; [reflexivity |].
  destruct m; simpl; rewrite IH; reflexivity.
Qed.

Lemma stdout_prints ms w : stdout (prints ms w) = (stdout w ++ ms)%list.
Proof.
  unfold prints. revert w. induction ms as [|m ms IH]; intros w; simpl.
  - now rewrite app_nil_r.
  - rewrite IH. simpl. now rewrite <- app_assoc.
Qed.

Lemma process_data_line_quiet now line :
  announced (fst (process_data_line now line)) = [].
Proof.
  unfold process_data_line.
  destruct (length (split "," line) <? 10)%nat; [reflexivity |].
  simpl. destruct (String.eqb _ "0"); reflexivity.
Qed.

Lemma process_lost_line_quiet now line :
  announced (fst (process_lost_line now line)) = [].
Proof.
  unfold process_lost_line. destruct (last_item (split_ws line)); reflexivity.
Qed.

(** [on_distance] opens no session and keeps the recorded distance, or
    opens the session of a distance above the recorded one. *)
Lemma on_distance_sessions r data d w :
  (announced (stdout (on_distance log_dir r data d w)) = announced (stdout w) /\
   last_distance (on_distance log_dir r data d w) = last_distance w) \/
  (announced (stdout (on_distance log_dir r data d w)) = (announced (stdout w) ++ [d])%list /\
   last_distance (on_distance log_dir r data d w) = Some d /\
   match last_distance w with Some last => fgt d last = true | None => True end).
Proof.
  unfold on_distance.
  destruct (last_distance w) as [last|] eqn:Hl.
  - destruct (feq d zero && fne last zero); simpl; rewrite Hl;
      destruct (fle d last && fne d last); simpl;
      try destruct (fgt d last) eqn:Hgt; simpl;
      rewrite ?session_file_nonempty;
      try destruct (truthy (current_csv_log w));
      open_cases;
      simpl; rewrite ?announced_app; simpl; rewrite ?app_nil_r, ?Hl;
      first [ left; split; reflexivity
            | right; split; [reflexivity | split; reflexivity] ].
  - simpl. rewrite Hl. simpl. rewrite session_file_nonempty.
    open_cases; simpl; rewrite !announced_app; simpl; rewrite ?app_nil_r;
      right; (split; [reflexivity | split; [reflexivity | exact I]]).
Qed.

Lemma loop_body_sessions w r :
  (announced (stdout (loop_body log_dir w r)) = announced (stdout w) /\
   last_distance (loop_body log_dir w r) = last_distance w) \/
  (exists d,
     announced (stdout (loop_body log_dir w r)) = (announced (stdout w) ++ [d])%list /\
     last_distance (loop_body log_dir w r) = Some d /\
     match last_distance w with Some last => fgt d last = true | None => True end).
Proof.
  assert (Hquiet : forall ms,
            announced ms = [] ->
            announced (stdout (prints ms (print (MsgRaw (strip (raw r))) w)))
              = announced (stdout w) /\
            last_distance (prints ms (print (MsgRaw (strip (raw r))) w))
              = last_distance w).
  { intros ms Hms. split.
    - rewrite stdout_prints. simpl. rewrite !announced_app, Hms. simpl.
      now rewrite !app_nil_r.
    - pose proof (locals_prints ms (print (MsgRaw (strip (raw r))) w)) as H.
      unfold locals in H. simpl in H. congruence. }
  unfold loop_body.
  destruct (String.eqb (strip (raw r)) ""); [left; auto |].
  destruct (startswith "Large gap detected" (strip (raw r))).
  { left. simpl. rewrite !announced_app. simpl. now rewrite !app_nil_r. }
  destruct (startswith "LOST:" (strip (raw r))).
  { left. pose proof (process_lost_line_quiet (now_row r) (strip (raw r))) as Hq.
    destruct (process_lost_line (now_row r) (strip (raw r))) as [msgs [x|]];
      simpl in Hq; destruct (Hquiet msgs Hq) as [H1 H2].
    - destruct (truthy _); open_cases; simpl; rewrite announced_app, H1; simpl;
        rewrite app_nil_r; auto.
    - simpl. rewrite announced_app, H1. simpl. rewrite app_nil_r. auto. }
  destruct (startswith "DATA," (strip (raw r))); [|left].
  2:{ simpl. rewrite announced_app. simpl. now rewrite app_nil_r. }
  pose proof (process_data_line_quiet (now_row r) (strip (raw r))) as Hq.
  destruct (process_data_line (now_row r) (strip (raw r))) as [msgs [data|]];
    simpl in Hq; destruct (Hquiet msgs Hq) as [H1 H2].
  - destruct (float_of_str (Distance data)) as [d|].
    + destruct (on_distance_sessions r data d
                  (prints msgs (print (MsgRaw (strip (raw r))) w)))
        as [[Ha Hd] | (Ha & Hd & Hgt)].
      * left. rewrite Ha, Hd. auto.
      * right. exists d. rewrite Ha, Hd, H1. rewrite H2 in Hgt. auto.
    + left. simpl. rewrite announced_app, H1. simpl. rewrite app_nil_r. auto.
  - left. auto.
Qed.

Lemma increasing_app_one (ds : list float) (d : float) :
  increasing ds ->
  match last ds with Some d' => fgt d d' = true | None => True end ->
  increasing (ds ++ [d])%list.
Proof.
  induction ds as [|d1 ds IH]; [simpl; auto |].
  destruct ds as [|d2 ds].
  - simpl. auto.
  - intros [H12 H] Hlast. split; [exact H12 |]. apply IH; assumption.
Qed.


End Sessions.

(** X9. Every file a run creates or extends is a session file in the log
    directory: its path is the directory prefix followed by a name
    [lora_data_<distance>m_<time>.csv] that contains no [/], the time
    being the clock reading of one of the readings. *)
Theorem written_files_are_session_files
    (log_dir : string) (fs : gmap string (list (list string)))
    (rs : list reading) (path : string) :
  files (main_loop log_dir (initial fs) rs) !! path <> fs !! path ->
  exists d t,
    In t (map now_file rs) /\
    path = dir_prefix log_dir ++ session_name d t /\
    all_chars (fun c => negb (Ascii.eqb c "/")) (session_name d t) = true.
Proof.
  induction rs as [|r rs IH] using rev_ind; [intros H; now contradiction H |].
  rewrite main_loop_app, main_loop_cons, main_loop_nil. intros Hdiff.
  destruct (decide (files (main_loop log_dir (initial fs) rs) !! path = fs !! path))
    as [Hsame | Hearlier].
  - destruct (decide (current_csv_log
                        (loop_body log_dir (main_loop log_dir (initial fs) rs) r)
                      = Some path)) as [Hcur | Hcur].
    + destruct (run_named log_dir fs (rs ++ [r])%list) as [[_ Hn] | (d & t & [_ Hn] & Hin)];
        rewrite main_loop_app, main_loop_cons, main_loop_nil in Hn;
        rewrite Hcur in Hn; [discriminate |].
      injection Hn as ->. exists d, t. split; [exact Hin |].
      split; [apply session_file_eq | apply session_name_no_slash].
    + apply loop_body_frame in Hcur. congruence.
  - destruct (IH Hearlier) as (d & t & Hin & Hp & Hs).
    exists d, t. split; [|auto]. rewrite map_app. apply in_or_app. now left.
Qed.

Lemma written_files_are_session_files_witness :
  let rs := [at_second 1 "DATA,512,1,10.0,1,0,-71,9.25,1,0.00"] in
  let path := "/home/pi/lora_data_logs/lora_data_10.00m_2024-05-17_10-30-01.csv" in
  files (main_loop pi_logs (initial ∅) rs) !! path <> (∅ : gmap string (list (list string))) !! path /\
  exists d t, In t (map now_file rs) /\ path = dir_prefix pi_logs ++ session_name d t.
Proof.
  cbv zeta.
  assert (H : files (main_loop pi_logs (initial ∅)
                [at_second 1 "DATA,512,1,10.0,1,0,-71,9.25,1,0.00"]) !!
              "/home/pi/lora_data_logs/lora_data_10.00m_2024-05-17_10-30-01.csv"
            <> (∅ : gmap string (list (list string))) !!
              "/home/pi/lora_data_logs/lora_data_10.00m_2024-05-17_10-30-01.csv")
    by (vm_compute; discriminate).
  split; [exact H |].
  destruct (written_files_are_session_files pi_logs ∅ _ _ H) as (d & t & Hin & Hp & _).
  exists d, t. split; assumption.
Defined.

(** X10. Whatever lines arrive, the distances for which sessions are
    opened form a strictly increasing sequence, and the recorded distance
    is the last of them. *)
Theorem sessions_open_in_increasing_order
    (log_dir : string) (fs : gmap string (list (list string))) (rs : list reading) :
  let w := main_loop log_dir (initial fs) rs in
  increasing (announced (stdout w)) /\
  last (announced (stdout w)) = last_distance w.
Proof.
  induction rs as [|r rs IH] using rev_ind; [split; reflexivity |].
  cbv zeta in *. rewrite main_loop_app, main_loop_cons, main_loop_nil.
  destruct IH as [IHi IHl].
  destruct (loop_body_sessions log_dir (main_loop log_dir (initial fs) rs) r)
    as [[Ha Hd] | (d & Ha & Hd & Hgt)].
  - rewrite Ha, Hd. auto.
  - rewrite Ha, Hd, last_snoc. split; [|reflexivity].
    apply increasing_app_one; [exact IHi |]. now rewrite IHl.
Qed.

(** ** Edge cases of the session rules *)

Section Edges.

Variable log_dir : string.


Lemma below_zero_not_zero (d last : float) :
  feq d zero = true -> fgt d last = true -> fne last zero = true.
Proof.
  unfold zero, fne.
  destruct d as [|[]|s1 u1], last as [|[]|s2 u2];
    try discriminate; try reflexivity.
  rewrite !feq_fin, fgt_fin. intros H1%Z.eqb_eq H2%Z.ltb_lt.
  apply negb_true_iff, Z.eqb_neq. lia.
Qed.

(** The locals after the DATA branch depend on the locals before it, on
    the dictionary and the distance, and on the clock. *)
Lemma on_distance_locals r1 r2 data d w1 w2 :
  locals w1 = locals w2 -> now_file r1 = now_file r2 ->
  locals (on_distance log_dir r1 data d w1) = locals (on_distance log_dir r2 data d w2).
Proof.
  destruct w1 as [c1 d1 l1 f1 o1], w2 as [c2 d2 l2 f2 o2].
  unfold locals. simpl. intros H Hnow. injection H as -> -> ->.
  unfold on_distance. rewrite Hnow. simpl.
  destruct d2 as [last|]; simpl.
  - destruct (feq d zero && fne last zero); simpl;
      destruct (fle d last && fne d last); simpl;
      try destruct (fgt d last); simpl;
      rewrite ?session_file_nonempty;
      try destruct (truthy c2); open_cases; reflexivity.
  - rewrite session_file_nonempty. open_cases; reflexivity.
Qed.

Lemma loop_body_locals w1 w2 r1 r2 :
  locals w1 = locals w2 -> heard r1 = heard r2 ->
  locals (loop_body log_dir w1 r1) = locals (loop_body log_dir w2 r2).
Proof.
  intros H Hr. unfold heard in Hr. injection Hr as Hraw Hrow Hfile.
  unfold loop_body. rewrite Hraw, Hrow.
  destruct (String.eqb (strip (raw r2)) ""); [exact H |].
  destruct (startswith "Large gap detected" (strip (raw r2))); [exact H |].
  destruct (startswith "LOST:" (strip (raw r2))).
  { destruct (process_lost_line (now_row r2) (strip (raw r2))) as [msgs [x|]].
    - do 2 destruct (truthy _);
        rewrite ?locals_log_data, ?locals_print, !locals_prints; exact H.
    - rewrite !locals_print, !locals_prints. exact H. }
  destruct (startswith "DATA," (strip (raw r2))); [|exact H].
  destruct (process_data_line (now_row r2) (strip (raw r2))) as [msgs [data|]].
  - destruct (float_of_str (Distance data)) as [d|].
    + apply on_distance_locals; [|exact Hfile].
      rewrite !locals_prints. exact H.
    + rewrite !locals_print, !locals_prints. exact H.
  - rewrite !locals_prints. exact H.
Qed.

End Edges.



(** X12. A well-formed DATA reading of distance 0.0 that arrives while
    the recorded distance is negative is both treated as a transient zero
    and taken for a new distance: its row gets the last recorded lost
    count in [Lost], the recorded lost count stays, and a new session file
    named after the zero distance is opened and receives the row (if it
    can be opened). *)
Theorem zero_above_negative_opens_session
    (log_dir : string) (w : world) (r : reading) (data : row) (d last : float) :
  data_reading r data d ->
  last_distance w = Some last ->
  feq d zero = true ->
  fgt d last = true ->
  let w' := loop_body log_dir w r in
  let path := session_file log_dir d (now_file r) in
  let n := match last_lost w with Some n => n | None => 0 end in
  current_csv_log w' = Some path /\
  last_distance w' = Some d /\
  last_lost w' = last_lost w /\
  files w' = written r (set_Lost (str_of_int n) data) path (files w).
Proof.
  intros Hr Hl Hz Hgt. cbv zeta.
  rewrite (loop_body_data log_dir w r data d Hr).
  unfold on_distance. simpl. rewrite Hl, Hz, (below_zero_not_zero d last Hz Hgt).
  simpl. rewrite Hl, (fgt_not_fle _ _ Hgt), Hgt. simpl.
  rewrite session_file_nonempty. through_log.
  rewrite files_log_data_written. repeat split; reflexivity.
Qed.

Lemma zero_above_negative_opens_session_witness :
  let w := main_loop pi_logs (initial ∅)
             [at_second 1 "DATA,512,1,-5.0,1,4,-71,9.25,1,0.00"] in
  let r := at_second 2 "DATA,640,2,0.0,2,9,-70,9.00,2,0.00" in
  let path := "/home/pi/lora_data_logs/lora_data_0.00m_2024-05-17_10-30-02.csv" in
  data_reading r (the_row r) zero /\
  last_distance w = Some (the_float "-5.0") /\
  feq zero zero = true /\
  fgt zero (the_float "-5.0") = true /\
  current_csv_log (loop_body pi_logs w r) = Some path /\
  files (loop_body pi_logs w r) !! path =
    Some [CSV_HEADERS;
          ["2024-05-17 10:30:02"; "DATA"; "2"; "0.0"; "2"; "4"; "-70"; "9.00"; "2"; "0.00"]].
Proof.
  cbv zeta.
  assert (Hr : data_reading (at_second 2 "DATA,640,2,0.0,2,9,-70,9.00,2,0.00")
                 (the_row (at_second 2 "DATA,640,2,0.0,2,9,-70,9.00,2,0.00")) zero)
    by (repeat split; vm_compute; reflexivity).
  assert (Hl : last_distance
                 (main_loop pi_logs (initial ∅)
                    [at_second 1 "DATA,512,1,-5.0,1,4,-71,9.25,1,0.00"])
               = Some (the_float "-5.0")) by (vm_compute; reflexivity).
  assert (Hgt : fgt zero (the_float "-5.0") = true) by (vm_compute; reflexivity).
  split; [exact Hr |]. split; [exact Hl |]. split; [reflexivity |]. split; [exact Hgt |].
  destruct (zero_above_negative_opens_session pi_logs _ _ _ _ _ Hr Hl eq_refl Hgt)
    as (H1 & _ & _ & H4).
  split; [rewrite H1 | rewrite H4]; vm_compute; reflexivity.
Defined.

(** X13. In every world the loop can reach, a well-formed DATA reading
    always reaches [log_data] with the file that is open after the
    iteration: its row is added to that file and printed, or, when the
    file cannot be opened, the error is printed and the disk stays as it
    was.  Either the row is the dictionary as read and the recorded lost
    count is taken from it, or (the distance being 0.0) [Lost] carries the
    recorded lost count, which stays. *)
Theorem data_reading_is_logged_or_reported
    (log_dir : string) (fs : gmap string (list (list string)))
    (rs : list reading) (r : reading) (data : row) (d : float) :
  let w := main_loop log_dir (initial fs) rs in
  data_reading r data d ->
  let w' := loop_body log_dir w r in
  exists v path,
    current_csv_log w' = Some path /\
    appended (files w) (files w') path
      (if can_open (disk_ok r) path then [set_Lost v data] else []) /\
    last (stdout w') =
      Some (if can_open (disk_ok r) path then MsgLogged (set_Lost v data)
            else MsgWriteError) /\
    ((v = Lost data /\ last_lost w' = Some (lost_count (Lost data))) \/
     (v = str_of_int (match last_lost w with Some n => n | None => 0 end) /\
      last_lost w' = last_lost w /\ feq d zero = true)).
Proof.
  intros w Hr. cbv zeta.
  rewrite (loop_body_data log_dir w r data d Hr).
  pose proof (main_loop_inv log_dir (initial fs) rs (initial_inv log_dir fs)) as Hi.
  fold w in Hi. unfold session_inv in Hi.
  assert (Hsame : set_Lost (Lost data) data = data) by (now destruct data).
  unfold on_distance. simpl.
  destruct (last_distance w) as [last|] eqn:Hl.
  - destruct Hi as [[t Ht] [n Hn]].
    destruct (feq d zero && fne last zero) eqn:Hc.
    + apply andb_true_iff in Hc as [Hz _].
      simpl; rewrite Hl; destruct (fle d last && fne d last); simpl;
        try destruct (fgt d last); simpl;
        rewrite ?Ht; simpl; rewrite ?session_file_nonempty;
        rewrite current_log_data, lost_log_data, files_log_data_written,
          stdout_log_data; simpl; rewrite ?Ht;
        eexists; eexists; (split; [reflexivity |]);
        (split; [apply appended_written |]);
        (split; [apply last_snoc |]); right; auto.
    + simpl; rewrite Hl; destruct (fle d last && fne d last); simpl;
        try destruct (fgt d last); simpl;
        rewrite ?Ht; simpl; rewrite ?session_file_nonempty;
        rewrite current_log_data, lost_log_data, files_log_data_written,
          stdout_log_data; simpl; rewrite ?Ht;
        exists (Lost data); rewrite Hsame;
        eexists; (split; [reflexivity |]);
        (split; [apply appended_written |]);
        (split; [apply last_snoc |]); left; auto.
  - simpl. rewrite Hl. simpl. rewrite session_file_nonempty.
    rewrite current_log_data, lost_log_data, files_log_data_written,
      stdout_log_data. simpl.
    exists (Lost data). rewrite Hsame.
    eexists. split; [reflexivity |]. split; [apply appended_written |].
    split; [apply last_snoc |]. left. auto.
Qed.

Lemma data_reading_is_logged_or_reported_witness :
  let rs := [at_second 1 "DATA,512,1,10.0,1,3,-71,9.25,1,0.00"] in
  let r := at_second 2 "DATA,640,2,9.5,2,4,-70,9.00,2,0.00" in
  let full := {| raw := raw r; now_row := now_row r; now_file := now_file r;
                 disk_ok := false |} in
  let w := main_loop pi_logs (initial ∅) rs in
  let path := "/home/pi/lora_data_logs/lora_data_10.00m_2024-05-17_10-30-01.csv" in
  data_reading r (the_row r) (the_float "9.5") /\
  data_reading full (the_row r) (the_float "9.5") /\
  files (loop_body pi_logs w r) !! path =
    Some [CSV_HEADERS;
          ["2024-05-17 10:30:01"; "DATA"; "1"; "10.0"; "1"; "3"; "-71"; "9.25"; "1"; "0.00"];
          ["2024-05-17 10:30:02"; "DATA"; "2"; "9.5"; "2"; "4"; "-70"; "9.00"; "2"; "0.00"]] /\
  files (loop_body pi_logs w full) !! path =
    Some [CSV_HEADERS;
          ["2024-05-17 10:30:01"; "DATA"; "1"; "10.0"; "1"; "3"; "-71"; "9.25"; "1"; "0.00"]] /\
  last (stdout (loop_body pi_logs w full)) = Some MsgWriteError.
Proof.
  cbv zeta.
  assert (Hr : data_reading (at_second 2 "DATA,640,2,9.5,2,4,-70,9.00,2,0.00")
                 (the_row (at_second 2 "DATA,640,2,9.5,2,4,-70,9.00,2,0.00"))
                 (the_float "9.5"))
    by (repeat split; vm_compute; reflexivity).
  split; [exact Hr |]. split; [exact Hr |].
  destruct (data_reading_is_logged_or_reported pi_logs ∅
              [at_second 1 "DATA,512,1,10.0,1,3,-71,9.25,1,0.00"] _ _ _ Hr)
    as (v & path & H1 & [H2 _] & _ & Hv).
  vm_compute in H1. injection H1 as <-.
  assert (v = "4") as ->.
  { destruct Hv as [[-> _] | (_ & _ & Hz)]; [reflexivity | discriminate Hz]. }
  split; [rewrite H2; vm_compute; reflexivity |].
  split; vm_compute; reflexivity.
Defined.

(** X14. What the loop remembers after a run (which file is open, the
    recorded distance and the recorded lost count) depends on what it
    remembered before and on the lines and clock readings it received;
    neither the content of the disk nor the outcome of any write has a
    part in it. *)
Theorem session_state_ignores_disk
    (log_dir : string) (w1 w2 : world) (rs1 rs2 : list reading) :
  locals w1 = locals w2 ->
  map heard rs1 = map heard rs2 ->
  locals (main_loop log_dir w1 rs1) = locals (main_loop log_dir w2 rs2).
Proof.
  revert w1 w2 rs2.
  induction rs1 as [|r1 rs1 IH]; intros w1 w2 [|r2 rs2] Hw Hrs;
    try discriminate Hrs; [exact Hw |].
  simpl in Hrs.
  assert (Hr : heard r1 = heard r2) by congruence.
  assert (Hrs' : map heard rs1 = map heard rs2) by congruence.
  rewrite !main_loop_cons. apply IH; [|exact Hrs'].
  now apply loop_body_locals.
Qed.

Lemma session_state_ignores_disk_witness :
  let line := "DATA,512,1,10.0,1,3,-71,9.25,1,0.00" in
  let r1 := at_second 1 line in
  let r2 := {| raw := line; now_row := clock 1; now_file := clock 1;
               disk_ok := false |} in
  let w1 := initial ∅ in
  let w2 := initial (<["/tmp/other.csv" := [["kept"]]]> ∅) in
  locals w1 = locals w2 /\
  map heard [r1] = map heard [r2] /\
  files (main_loop pi_logs w1 [r1]) <> files (main_loop pi_logs w2 [r2]) /\
  locals (main_loop pi_logs w1 [r1]) = locals (main_loop pi_logs w2 [r2]).
Proof.
  cbv zeta. split; [reflexivity |]. split; [reflexivity |]. split.
  - intros H.
    apply (f_equal (fun fs : gmap string (list (list string)) =>
                      fs !! "/tmp/other.csv")) in H.
    vm_compute in H. discriminate H.
  - apply (session_state_ignores_disk pi_logs); reflexivity.
Defined.

(** X15. Two sessions get the same log file exactly when their distances
    have the same two-decimal text and their clock readings agree to the
    second. *)
Theorem session_files_coincide_iff
    (log_dir : string) (d1 d2 : float) (t1 t2 : datetime) :
  session_file log_dir d1 t1 = session_file log_dir d2 t2 <->
  format_2f d1 = format_2f d2 /\ t1 = t2.
Proof.
  split.
  - intros [Hf Ht]%session_file_inj. apply strftime_inj in Ht. auto.
  - intros [Hf ->]. rewrite !session_file_eq. unfold session_name. now rewrite Hf.
Qed.

(** ** The transcript on standard output *)

Section Transcript.

Variable log_dir : string.

Lemma echoed_app (a b : list message) :
  echoed (a ++ b)%list = (echoed a ++ echoed b)%list.
Proof. apply flat_map_app. Qed.

Lemma lost_line_parses (now : datetime) (line : string) :
  startswith "LOST:" line = true ->
  exists data, process_lost_line now line = ([], Some data).
Proof.
  intros H. unfold process_lost_line.
  destruct (blank_or_trailing_token line) as [Hb | [tok Ht]].
  - apply startswith_spec in H. destruct H as [rest ->]. discriminate Hb.
  - rewrite (trailing_token_last line tok Ht). eauto.
Qed.

Lemma process_data_line_prints (now : datetime) (line : string) :
  echoed (fst (process_data_line now line)) = [] /\
  ~ In MsgLostError (fst (process_data_line now line)).
Proof.
  unfold process_data_line.
  destruct (length (split "," line) <? 10)%nat.
  - split; [reflexivity |]. simpl. intuition discriminate.
  - simpl. destruct (String.eqb _ "0"); simpl; auto.
Qed.

Lemma on_distance_prints r data d w :
  exists ms,
    stdout (on_distance log_dir r data d w) = (stdout w ++ ms)%list /\
    echoed ms = [] /\ ~ In MsgLostError ms.
Proof.
  unfold on_distance.
  destruct (last_distance w) as [last|] eqn:Hl.
  - destruct (feq d zero && fne last zero); simpl; rewrite Hl;
      destruct (fle d last && fne d last); simpl;
      try destruct (fgt d last); simpl;
      rewrite ?session_file_nonempty;
      try destruct (truthy (current_csv_log w));
      open_cases;
      simpl; eexists;
      (split; [first [ rewrite <- ?app_assoc; reflexivity
                     | symmetry; apply app_nil_r ] |]);
      (split; [reflexivity | simpl; intuition discriminate]).
  - simpl. rewrite Hl. simpl. rewrite session_file_nonempty.
    open_cases; simpl; eexists;
      (split; [rewrite <- ?app_assoc; reflexivity |]);
      (split; [reflexivity | simpl; intuition discriminate]).
Qed.

(** What one iteration adds to standard output: the echo of the line, if
    it is not empty, and never the error of [process_lost_line]. *)
Lemma loop_body_prints w r :
  exists ms,
    stdout (loop_body log_dir w r) = (stdout w ++ ms)%list /\
    echoed ms = (if String.eqb (strip (raw r)) "" then [] else [strip (raw r)]) /\
    ~ In MsgLostError ms.
Proof.
  unfold loop_body.
  destruct (String.eqb (strip (raw r)) "").
  { exists []. rewrite app_nil_r. auto. }
  destruct (startswith "Large gap detected" (strip (raw r))).
  { exists [MsgRaw (strip (raw r)); MsgIgnoringGap]. simpl.
    rewrite <- app_assoc. split; [reflexivity |].
    split; [reflexivity | intuition discriminate]. }
  destruct (startswith "LOST:" (strip (raw r))) eqn:Hlost.
  { destruct (lost_line_parses (now_row r) _ Hlost) as [data Hp]. rewrite Hp.
    unfold prints. simpl.
    destruct (truthy (current_csv_log w)); open_cases; simpl;
      rewrite <- app_assoc;
      eexists; (split; [reflexivity |]);
      (split; [reflexivity | simpl; intuition discriminate]). }
  destruct (startswith "DATA," (strip (raw r))).
  2:{ exists [MsgRaw (strip (raw r))]. simpl.
      split; [reflexivity |]. split; [reflexivity | intuition discriminate]. }
  destruct (process_data_line_prints (now_row r) (strip (raw r))) as [He Hn].
  destruct (process_data_line (now_row r) (strip (raw r))) as [msgs [data|]];
    simpl in He, Hn.
  - destruct (float_of_str (Distance data)) as [d|].
    + destruct (on_distance_prints r data d
                  (prints msgs (print (MsgRaw (strip (raw r))) w)))
        as (ms & Hs & Hq & Hi).
      exists ([MsgRaw (strip (raw r))] ++ msgs ++ ms)%list.
      rewrite Hs, stdout_prints. simpl. rewrite <- !app_assoc.
      split; [reflexivity |]. rewrite echoed_app, He, Hq.
      split; [reflexivity |]. rewrite in_app_iff. intuition discriminate.
    + exists ([MsgRaw (strip (raw r))] ++ msgs ++ [MsgDistanceError])%list.
      simpl. rewrite stdout_prints. simpl. rewrite <- !app_assoc.
      split; [reflexivity |]. rewrite echoed_app, He.
      split; [reflexivity |]. rewrite in_app_iff. simpl. intuition discriminate.
  - exists ([MsgRaw (strip (raw r))] ++ msgs)%list.
    rewrite stdout_prints. simpl. rewrite <- !app_assoc.
    split; [reflexivity |]. rewrite He.
    split; [reflexivity |]. intuition discriminate.
Qed.

End Transcript.

(** X16. The loop echoes every line that is not empty after stripping,
    once and in the order of arrival; empty lines are not echoed. *)
Theorem raw_lines_echoed_in_order
    (log_dir : string) (fs : gmap string (list (list string)))
    (rs : list reading) :
  echoed (stdout (main_loop log_dir (initial fs) rs)) =
  List.filter (fun line => negb (String.eqb line ""))
              (map (fun r => strip (raw r)) rs).
Proof.
  assert (H : forall w,
            echoed (stdout (main_loop log_dir w rs)) =
            (echoed (stdout w) ++
             List.filter (fun line => negb (String.eqb line ""))
                         (map (fun r => strip (raw r)) rs))%list).
  { induction rs as [|r rs IH]; intros w.
    - rewrite main_loop_nil. simpl. now rewrite app_nil_r.
    - rewrite main_loop_cons, IH.
      destruct (loop_body_prints log_dir w r) as (ms & Hs & He & _).
      rewrite Hs, echoed_app, He. simpl.
      destruct (String.eqb (strip (raw r)) ""); simpl.
      + now rewrite app_nil_r.
      + now rewrite <- app_assoc. }
  apply (H (initial fs)).
Qed.

(** X17. The error branch of [process_lost_line] is dead in the loop: the
    function is only called on a line that begins with [LOST:], which has
    a last token, so its error message is never printed. *)
Theorem lost_error_never_printed
    (log_dir : string) (fs : gmap string (list (list string)))
    (rs : list reading) :
  ~ In MsgLostError (stdout (main_loop log_dir (initial fs) rs)).
Proof.
  assert (H : forall w, ~ In MsgLostError (stdout w) ->
                        ~ In MsgLostError (stdout (main_loop log_dir w rs))).
  { induction rs as [|r rs IH]; intros w Hw.
    - rewrite main_loop_nil. exact Hw.
    - rewrite main_loop_cons. apply IH.
      destruct (loop_body_prints log_dir w r) as (ms & Hs & _ & Hn).
      rewrite Hs, in_app_iff. tauto. }
  apply H. simpl. tauto.
Qed.

(** ** When the log file cannot be opened *)

(** X18. A path in which a name is longer than [NAME_MAX] is never
    written: whatever lines arrive and whatever the disk allows, no file
    is created or changed there. *)
Theorem long_named_file_is_never_written
    (log_dir : string) (w : world) (rs : list reading) (path : string) :
  name_too_long path = true ->
  files (main_loop log_dir w rs) !! path = files w !! path.
Proof.
  intros Hlong. revert w. induction rs as [|r rs IH]; intros w; [reflexivity |].
  rewrite main_loop_cons, IH.
  destruct (loop_body_writes log_dir w r) as [-> | (data & p & _ & Hopen & -> & _)];
    [reflexivity |].
  apply write_row_other. intros ->.
  unfold can_open in Hopen. rewrite Hlong, andb_false_r in Hopen.
  discriminate Hopen.
Qed.

Lemma long_named_file_is_never_written_witness :
  let rs := [at_second 1 "DATA,512,1,1e300,1,2,-71,9.25,1,0.00";
             at_second 2 "LOST: Packet 2"] in
  let w := main_loop pi_logs (initial ∅) rs in
  let path := session_file pi_logs (the_float "1e300") (clock 1) in
  name_too_long path = true /\
  current_csv_log w = Some path /\
  files w !! path = None /\
  stdout w = [MsgRaw "DATA,512,1,1e300,1,2,-71,9.25,1,0.00";
              MsgNewSession (the_float "1e300") path; MsgWriteError;
              MsgRaw "LOST: Packet 2"; MsgWriteError].
Proof.
  cbv zeta.
  assert (Hlong : name_too_long (session_file pi_logs (the_float "1e300") (clock 1))
                  = true) by (vm_compute; reflexivity).
  split; [exact Hlong |]. split; [vm_compute; reflexivity |]. split.
  - rewrite (long_named_file_is_never_written pi_logs (initial ∅) _ _ Hlong).
    reflexivity.
  - vm_compute. reflexivity.
Defined.


